(** * taskmanager_dv: the ownership-scoped store and the event sync proxy

    A shallow embedding of
    - supabase/migrations/20251128063431_create_complete_task_management_schema.sql
    - the migration adding task features (due_date, start_date, priority, tags,
      task_comments)
    - supabase/migrations/20251209063429_add_task_attachments_and_calendar_events.sql
    - supabase/functions/google-calendar-sync/index.ts

    The migrations are declarative: tables, constraints, row-level-security
    policies and one trigger.  Each declaration is embedded as the function the
    database evaluates for it (a policy is a predicate on a row, a constraint is
    a check on a row, the trigger is a statement run after the insert), and the
    statements of the data API are state-passing programs over the tables. *)

From Stdlib Require Import List String Ascii ZArith NArith Bool Lia Permutation Sorted.
Import ListNotations.
Local Open Scope string_scope.
Local Open Scope list_scope.

(** ** SQL values *)

Definition uuid := N.
Definition timestamptz := Z.
Definition pg_date := Z.

(** A column of a row: [None] is SQL NULL. *)
Abbreviation NULL := None (only parsing).

(** What an INSERT supplies for a column: nothing (the column default is
    used), an explicit NULL, or a value. *)
Inductive value (A : Type) : Type :=
| DEFAULT
| VNULL
| V (a : A).
Arguments DEFAULT {A}.
Arguments VNULL {A}.
Arguments V {A} a.

Definition default {A : Type} (dflt : option A) (v : value A) : option A :=
  match v with
  | DEFAULT => dflt
  | VNULL => NULL
  | V a => Some a
  end.

Definition of_column {A : Type} (o : option A) : value A :=
  match o with
  | Some a => V a
  | None => VNULL
  end.

(** Three-valued comparison: NULL on either side is unknown. *)
Definition sql_eq {A : Type} (eqb : A -> A -> bool) (x y : option A) : option bool :=
  match x, y with
  | Some a, Some b => Some (eqb a b)
  | _, _ => None
  end.

Definition sql_in (x : option string) (l : list string) : option bool :=
  match x with
  | Some a => Some (existsb (String.eqb a) l)
  | None => None
  end.

(** WHERE, USING and WITH CHECK keep a row only when the condition is true. *)
Definition is_true (b : option bool) : bool :=
  match b with
  | Some true => true
  | _ => false
  end.

(** A CHECK constraint rejects a row only when the condition is false. *)
Definition not_false (b : option bool) : bool :=
  match b with
  | Some false => false
  | _ => true
  end.

Definition uuid_is (x y : option uuid) : bool := is_true (sql_eq N.eqb x y).

(** ** Callers *)

Inductive role : Type :=
| anon
| authenticated (uid : uuid)
| service_role.

(** auth.uid() *)
Definition auth_uid (r : role) : option uuid :=
  match r with
  | authenticated u => Some u
  | _ => NULL
  end.

(** Every policy of the migrations is declared TO authenticated; a table with
    row-level security enabled and no applicable policy denies, and the
    service role bypasses row-level security. *)
Definition rls (r : role) (policy : bool) : bool :=
  match r with
  | service_role => true
  | authenticated _ => policy
  | anon => false
  end.

Record env : Type := {
  caller : role;
  now : timestamptz;
  (** the successive results of gen_random_uuid() within one statement *)
  gen_random_uuid : nat -> uuid
}.

(** ** Rows *)

Module Client.
Record row : Type := {
  id : option uuid;
  user_id : option uuid;
  name : option string;
  created_at : option timestamptz
}.
Record values : Type := {
  v_id : value uuid;
  v_user_id : value uuid;
  v_name : value string;
  v_created_at : value timestamptz
}.
End Client.

Module ClientCategory.
Record row : Type := {
  id : option uuid;
  client_id : option uuid;
  category : option string;
  created_at : option timestamptz
}.
Record values : Type := {
  v_id : value uuid;
  v_client_id : value uuid;
  v_category : value string;
  v_created_at : value timestamptz
}.
End ClientCategory.

Module Task.
Record row : Type := {
  id : option uuid;
  user_id : option uuid;
  client_id : option uuid;
  category : option string;
  name : option string;
  description : option string;
  assignee : option string;
  status : option string;
  created_at : option timestamptz;
  updated_at : option timestamptz;
  due_date : option timestamptz;
  start_date : option timestamptz;
  priority : option string;
  tags : option (list string)
}.
Record values : Type := {
  v_id : value uuid;
  v_user_id : value uuid;
  v_client_id : value uuid;
  v_category : value string;
  v_name : value string;
  v_description : value string;
  v_assignee : value string;
  v_status : value string;
  v_created_at : value timestamptz;
  v_updated_at : value timestamptz;
  v_due_date : value timestamptz;
  v_start_date : value timestamptz;
  v_priority : value string;
  v_tags : value (list string)
}.
End Task.

Module TaskComment.
Record row : Type := {
  id : option uuid;
  task_id : option uuid;
  user_id : option uuid;
  user_email : option string;
  comment_text : option string;
  created_at : option timestamptz
}.
Record values : Type := {
  v_id : value uuid;
  v_task_id : value uuid;
  v_user_id : value uuid;
  v_user_email : value string;
  v_comment_text : value string;
  v_created_at : value timestamptz
}.
End TaskComment.

Module TaskAttachment.
Record row : Type := {
  id : option uuid;
  task_id : option uuid;
  file_url : option string;
  file_name : option string;
  file_size : option Z;
  file_type : option string;
  uploaded_at : option timestamptz;
  user_id : option uuid
}.
Record values : Type := {
  v_id : value uuid;
  v_task_id : value uuid;
  v_file_url : value string;
  v_file_name : value string;
  v_file_size : value Z;
  v_file_type : value string;
  v_uploaded_at : value timestamptz;
  v_user_id : value uuid
}.
End TaskAttachment.

Module CalendarEvent.
Record row : Type := {
  id : option uuid;
  google_event_id : option string;
  title : option string;
  description : option string;
  date : option pg_date;
  time : option string;
  user_id : option uuid;
  created_at : option timestamptz;
  updated_at : option timestamptz
}.
Record values : Type := {
  v_id : value uuid;
  v_google_event_id : value string;
  v_title : value string;
  v_description : value string;
  v_date : value pg_date;
  v_time : value string;
  v_user_id : value uuid;
  v_created_at : value timestamptz;
  v_updated_at : value timestamptz
}.
End CalendarEvent.

(** ** The store *)

Record store : Type := {
  auth_users : list uuid;
  clients : list Client.row;
  client_categories : list ClientCategory.row;
  tasks : list Task.row;
  task_comments : list TaskComment.row;
  task_attachments : list TaskAttachment.row;
  calendar_events : list CalendarEvent.row
}.

Definition empty_store (users : list uuid) : store :=
  {| auth_users := users; clients := []; client_categories := []; tasks := [];
     task_comments := []; task_attachments := []; calendar_events := [] |}.

Definition set_auth_users (l : list uuid) (s : store) : store :=
  {| auth_users := l; clients := clients s;
     client_categories := client_categories s; tasks := tasks s;
     task_comments := task_comments s; task_attachments := task_attachments s;
     calendar_events := calendar_events s |}.

Definition set_clients (l : list Client.row) (s : store) : store :=
  {| auth_users := auth_users s; clients := l;
     client_categories := client_categories s; tasks := tasks s;
     task_comments := task_comments s; task_attachments := task_attachments s;
     calendar_events := calendar_events s |}.

Definition set_client_categories (l : list ClientCategory.row) (s : store) : store :=
  {| auth_users := auth_users s; clients := clients s;
     client_categories := l; tasks := tasks s;
     task_comments := task_comments s; task_attachments := task_attachments s;
     calendar_events := calendar_events s |}.

Definition set_tasks (l : list Task.row) (s : store) : store :=
  {| auth_users := auth_users s; clients := clients s;
     client_categories := client_categories s; tasks := l;
     task_comments := task_comments s; task_attachments := task_attachments s;
     calendar_events := calendar_events s |}.

Definition set_task_comments (l : list TaskComment.row) (s : store) : store :=
  {| auth_users := auth_users s; clients := clients s;
     client_categories := client_categories s; tasks := tasks s;
     task_comments := l; task_attachments := task_attachments s;
     calendar_events := calendar_events s |}.

Definition set_task_attachments (l : list TaskAttachment.row) (s : store) : store :=
  {| auth_users := auth_users s; clients := clients s;
     client_categories := client_categories s; tasks := tasks s;
     task_comments := task_comments s; task_attachments := l;
     calendar_events := calendar_events s |}.

Definition set_calendar_events (l : list CalendarEvent.row) (s : store) : store :=
  {| auth_users := auth_users s; clients := clients s;
     client_categories := client_categories s; tasks := tasks s;
     task_comments := task_comments s; task_attachments := task_attachments s;
     calendar_events := l |}.

(** ** Errors and the statement monad *)

Inductive pg_error : Type :=
| insufficient_privilege (table : string)
    (* new row violates row-level security policy for the table *)
| not_null_violation (column : string)
| check_violation (constraint : string)
| unique_violation (constraint : string)
| foreign_key_violation (constraint : string)
| invalid_text_representation (type : string).

Inductive result (A : Type) : Type :=
| Ok (a : A)
| Err (e : pg_error).
Arguments Ok {A} a.
Arguments Err {A} e.

(** A piece of a statement: it runs on the tables and leaves them as they are
    when it raises; [statement] is what makes the whole atomic. *)
Definition M (A : Type) : Type := store -> store * result A.

Definition ret {A : Type} (a : A) : M A := fun s => (s, Ok a).

Definition raise {A : Type} (e : pg_error) : M A := fun s => (s, Err e).

Definition bind {A B : Type} (m : M A) (k : A -> M B) : M B :=
  fun s =>
    match m s with
    | (s', Ok a) => k a s'
    | (s', Err e) => (s', Err e)
    end.

Notation "x <- m ;; k" := (bind m (fun x => k))
  (at level 61, m at next level, right associativity).
Notation "m ;;; k" := (bind m (fun _ => k))
  (at level 61, right associativity).

Definition get : M store := fun s => (s, Ok s).

Definition modify (f : store -> store) : M unit := fun s => (f s, Ok tt).

Definition guard (ok : bool) (e : pg_error) : M unit :=
  if ok then ret tt else raise e.

Fixpoint for_each {A B : Type} (f : A -> M B) (l : list A) : M (list B) :=
  match l with
  | [] => ret []
  | a :: l' => b <- f a ;; bs <- for_each f l' ;; ret (b :: bs)
  end.

(** A statement that raises is rolled back: the tables are those it started
    from. *)
Definition statement {A : Type} (m : M A) : M A :=
  fun s =>
    match m s with
    | (s', Ok a) => (s', Ok a)
    | (_, Err e) => (s, Err e)
    end.

Definition is_null {A : Type} (o : option A) : bool :=
  match o with
  | Some _ => false
  | None => true
  end.

Definition not_null {A : Type} (column : string) (o : option A) : M unit :=
  guard (negb (is_null o)) (not_null_violation column).

Definition unless_exists {R : Type} (same : R -> bool) (t : list R) (e : pg_error) : M unit :=
  guard (negb (existsb same t)) e.

(** UPDATE over a table: the targeted rows are rewritten one after the other;
    the result is the new table and the rows that were updated. *)
Definition update_rows {R : Type} (target : R -> bool) (upd : R -> M R) (t : list R)
  : M (list R * list R) :=
  rs <- for_each (fun r => if target r
                           then r' <- upd r ;; ret (r', [r'])
                           else ret (r, [])) t ;;
  ret (map fst rs, List.concat (map snd rs)).

(** Does a foreign-key column point at one of the given keys? *)
Definition references (keys : list (option uuid)) (fk : option uuid) : bool :=
  existsb (fun k => uuid_is k fk) keys.

(** ** clients *)

(** USING (auth.uid() = user_id), WITH CHECK (auth.uid() = user_id): the four
    policies of clients share one condition. *)
Definition clients_policy (uid : option uuid) (r : Client.row) : bool :=
  is_true (sql_eq N.eqb uid (Client.user_id r)).

(** The rows of clients a query of the caller sees. *)
Definition visible_clients (e : env) (s : store) : list Client.row :=
  filter (fun c => rls (caller e) (clients_policy (auth_uid (caller e)) c)) (clients s).

(** ** client_categories *)

Definition categories : list string := ["tasks"; "gtm"; "recurring"].

(** EXISTS (SELECT 1 FROM clients WHERE clients.id = client_id
            AND clients.user_id = auth.uid()): the condition of both policies
    of client_categories (SELECT and INSERT).  The subquery runs as the
    caller. *)
Definition client_categories_policy (e : env) (s : store) (r : ClientCategory.row) : bool :=
  existsb (fun c => uuid_is (Client.id c) (ClientCategory.client_id r)
                    && is_true (sql_eq N.eqb (Client.user_id c) (auth_uid (caller e))))
          (visible_clients e s).

Definition client_categories_row (e : env) (n : nat) (v : ClientCategory.values)
  : ClientCategory.row :=
  {| ClientCategory.id := default (Some (gen_random_uuid e n)) (ClientCategory.v_id v);
     ClientCategory.client_id := default NULL (ClientCategory.v_client_id v);
     ClientCategory.category := default NULL (ClientCategory.v_category v);
     ClientCategory.created_at := default (Some (now e)) (ClientCategory.v_created_at v) |}.

Definition same_client_category (r k : ClientCategory.row) : bool :=
  uuid_is (ClientCategory.client_id k) (ClientCategory.client_id r)
  && is_true (sql_eq String.eqb (ClientCategory.category k) (ClientCategory.category r)).

(** One row of an INSERT INTO client_categories: the policy, the column
    constraints, the two unique indexes, then the row is in the table. *)
Definition client_categories_put (e : env) (r : ClientCategory.row) : M unit :=
  s <- get ;;
  guard (rls (caller e) (client_categories_policy e s r))
        (insufficient_privilege "client_categories") ;;;
  not_null "id" (ClientCategory.id r) ;;;
  not_null "client_id" (ClientCategory.client_id r) ;;;
  not_null "category" (ClientCategory.category r) ;;;
  guard (not_false (sql_in (ClientCategory.category r) categories))
        (check_violation "client_categories_category_check") ;;;
  unless_exists (fun k => uuid_is (ClientCategory.id k) (ClientCategory.id r))
                (client_categories s) (unique_violation "client_categories_pkey") ;;;
  unless_exists (same_client_category r)
                (client_categories s)
                (unique_violation "client_categories_client_id_category_key") ;;;
  modify (fun s => set_client_categories (client_categories s ++ [r]) s).

(** client_id REFERENCES clients(id), checked when the statement ends. *)
Definition client_categories_fkey (r : ClientCategory.row) : M unit :=
  s <- get ;;
  guard (references (map Client.id (clients s)) (ClientCategory.client_id r))
        (foreign_key_violation "client_categories_client_id_fkey").

Definition insert_into_client_categories (e : env) (first : nat)
    (vs : list ClientCategory.values) : M (list ClientCategory.row) :=
  let rows := map (fun nv => client_categories_row e (fst nv) (snd nv))
                  (combine (seq first (List.length vs)) vs) in
  for_each (client_categories_put e) rows ;;;
  for_each client_categories_fkey rows ;;;
  ret rows.

Definition insert_client_categories (e : env) (vs : list ClientCategory.values)
  : M (list ClientCategory.row) :=
  statement (insert_into_client_categories e 0 vs).

Definition select_client_categories (e : env) (where_ : ClientCategory.row -> bool)
  : M (list ClientCategory.row) :=
  s <- get ;;
  ret (filter (fun r => where_ r && rls (caller e) (client_categories_policy e s r))
              (client_categories s)).

(** ** The trigger create_categories_on_client_insert *)

Definition default_category (NEW : Client.row) (tag : string) : ClientCategory.values :=
  {| ClientCategory.v_id := DEFAULT;
     ClientCategory.v_client_id := of_column (Client.id NEW);
     ClientCategory.v_category := V tag;
     ClientCategory.v_created_at := DEFAULT |}.

(** create_default_categories(): one INSERT of three rows, run with the rights
    of the caller of the client insert; RETURN NEW. *)
Definition create_default_categories (e : env) (NEW : Client.row) : M Client.row :=
  insert_into_client_categories e 1
    [ default_category NEW "tasks";
      default_category NEW "gtm";
      default_category NEW "recurring" ] ;;;
  ret NEW.

(** ** Statements on clients *)

Definition clients_row (e : env) (v : Client.values) : Client.row :=
  {| Client.id := default (Some (gen_random_uuid e 0)) (Client.v_id v);
     Client.user_id := default NULL (Client.v_user_id v);
     Client.name := default NULL (Client.v_name v);
     Client.created_at := default (Some (now e)) (Client.v_created_at v) |}.

Definition clients_constraints (r : Client.row) : M unit :=
  not_null "id" (Client.id r) ;;;
  not_null "user_id" (Client.user_id r) ;;;
  not_null "name" (Client.name r).

(** user_id REFERENCES auth.users(id) *)
Definition clients_fkey (r : Client.row) : M unit :=
  s <- get ;;
  guard (existsb (fun u => uuid_is (Some u) (Client.user_id r)) (auth_users s))
        (foreign_key_violation "clients_user_id_fkey").

(** The row of an INSERT INTO clients: the policy, the column constraints,
    the primary key, then the row is in the table. *)
Definition clients_put (e : env) (v : Client.values) : M Client.row :=
  let r := clients_row e v in
  s <- get ;;
  guard (rls (caller e) (clients_policy (auth_uid (caller e)) r))
        (insufficient_privilege "clients") ;;;
  clients_constraints r ;;;
  unless_exists (fun c => uuid_is (Client.id c) (Client.id r))
                (clients s) (unique_violation "clients_pkey") ;;;
  modify (fun s => set_clients (clients s ++ [r]) s) ;;;
  ret r.

(** INSERT INTO clients of one row; when the row is in, the referential
    check of user_id, then AFTER INSERT ... FOR EACH ROW EXECUTE FUNCTION
    create_default_categories(). *)
Definition insert_into_clients (e : env) (v : Client.values) : M Client.row :=
  r <- clients_put e v ;;
  clients_fkey r ;;;
  create_default_categories e r.

Definition insert_client (e : env) (v : Client.values) : M Client.row :=
  statement (insert_into_clients e v).

Definition clients_target (e : env) (where_ : Client.row -> bool) (r : Client.row) : bool :=
  where_ r && rls (caller e) (clients_policy (auth_uid (caller e)) r).

Definition select_clients (e : env) (where_ : Client.row -> bool) : M (list Client.row) :=
  s <- get ;;
  ret (filter (clients_target e where_) (clients s)).

(** UPDATE clients SET ... WHERE ...; the primary key is not assigned.  No
    trigger is declared for UPDATE. *)
Definition clients_assign (set : Client.row -> Client.row) (r : Client.row) : Client.row :=
  {| Client.id := Client.id r;
     Client.user_id := Client.user_id (set r);
     Client.name := Client.name (set r);
     Client.created_at := Client.created_at (set r) |}.

Definition update_clients_row (e : env) (set : Client.row -> Client.row) (r : Client.row)
  : M Client.row :=
  let r' := clients_assign set r in
  guard (rls (caller e) (clients_policy (auth_uid (caller e)) r'))
        (insufficient_privilege "clients") ;;;
  clients_constraints r' ;;;
  ret r'.

Definition update_clients (e : env) (where_ : Client.row -> bool)
    (set : Client.row -> Client.row) : M (list Client.row) :=
  statement (
    s <- get ;;
    tu <- update_rows (clients_target e where_) (update_clients_row e set) (clients s) ;;
    modify (set_clients (fst tu)) ;;;
    for_each clients_fkey (snd tu) ;;;
    ret (snd tu)).

(** ** tasks *)

Definition statuses : list string := ["Pending"; "In-Progress"; "Completed"].
Definition priorities : list string := ["Low"; "Medium"; "High"; "Urgent"].

(** The four policies of tasks: USING / WITH CHECK (auth.uid() = user_id). *)
Definition tasks_policy (uid : option uuid) (r : Task.row) : bool :=
  is_true (sql_eq N.eqb uid (Task.user_id r)).

Definition visible_tasks (e : env) (s : store) : list Task.row :=
  filter (fun t => rls (caller e) (tasks_policy (auth_uid (caller e)) t)) (tasks s).

Definition tasks_row (e : env) (v : Task.values) : Task.row :=
  {| Task.id := default (Some (gen_random_uuid e 0)) (Task.v_id v);
     Task.user_id := default NULL (Task.v_user_id v);
     Task.client_id := default NULL (Task.v_client_id v);
     Task.category := default (Some "tasks") (Task.v_category v);
     Task.name := default NULL (Task.v_name v);
     Task.description := default (Some "") (Task.v_description v);
     Task.assignee := default (Some "") (Task.v_assignee v);
     Task.status := default (Some "Pending") (Task.v_status v);
     Task.created_at := default (Some (now e)) (Task.v_created_at v);
     Task.updated_at := default (Some (now e)) (Task.v_updated_at v);
     Task.due_date := default NULL (Task.v_due_date v);
     Task.start_date := default NULL (Task.v_start_date v);
     Task.priority := default (Some "Medium") (Task.v_priority v);
     Task.tags := default NULL (Task.v_tags v) |}.

(** NOT NULL on id, user_id, category, name, status; the three CHECKs.
    priority is declared  text DEFAULT 'Medium' CHECK (priority IN (...))
    without NOT NULL. *)
Definition tasks_constraints (r : Task.row) : M unit :=
  not_null "id" (Task.id r) ;;;
  not_null "user_id" (Task.user_id r) ;;;
  not_null "category" (Task.category r) ;;;
  not_null "name" (Task.name r) ;;;
  not_null "status" (Task.status r) ;;;
  guard (not_false (sql_in (Task.category r) categories))
        (check_violation "tasks_category_check") ;;;
  guard (not_false (sql_in (Task.status r) statuses))
        (check_violation "tasks_status_check") ;;;
  guard (not_false (sql_in (Task.priority r) priorities))
        (check_violation "tasks_priority_check").

(** user_id REFERENCES auth.users(id); client_id REFERENCES clients(id), a
    NULL client_id references nothing.  Referential checks read the tables
    themselves, not what the caller may see of them. *)
Definition tasks_fkey (r : Task.row) : M unit :=
  s <- get ;;
  guard (existsb (fun u => uuid_is (Some u) (Task.user_id r)) (auth_users s))
        (foreign_key_violation "tasks_user_id_fkey") ;;;
  guard (is_null (Task.client_id r)
         || references (map Client.id (clients s)) (Task.client_id r))
        (foreign_key_violation "tasks_client_id_fkey").

Definition insert_into_tasks (e : env) (v : Task.values) : M Task.row :=
  let r := tasks_row e v in
  s <- get ;;
  guard (rls (caller e) (tasks_policy (auth_uid (caller e)) r))
        (insufficient_privilege "tasks") ;;;
  tasks_constraints r ;;;
  unless_exists (fun t => uuid_is (Task.id t) (Task.id r))
                (tasks s) (unique_violation "tasks_pkey") ;;;
  modify (fun s => set_tasks (tasks s ++ [r]) s) ;;;
  tasks_fkey r ;;;
  ret r.

Definition insert_task (e : env) (v : Task.values) : M Task.row :=
  statement (insert_into_tasks e v).

Definition tasks_target (e : env) (where_ : Task.row -> bool) (r : Task.row) : bool :=
  where_ r && rls (caller e) (tasks_policy (auth_uid (caller e)) r).

Definition select_tasks (e : env) (where_ : Task.row -> bool) : M (list Task.row) :=
  s <- get ;;
  ret (filter (tasks_target e where_) (tasks s)).

Definition tasks_assign (set : Task.row -> Task.row) (r : Task.row) : Task.row :=
  {| Task.id := Task.id r;
     Task.user_id := Task.user_id (set r);
     Task.client_id := Task.client_id (set r);
     Task.category := Task.category (set r);
     Task.name := Task.name (set r);
     Task.description := Task.description (set r);
     Task.assignee := Task.assignee (set r);
     Task.status := Task.status (set r);
     Task.created_at := Task.created_at (set r);
     Task.updated_at := Task.updated_at (set r);
     Task.due_date := Task.due_date (set r);
     Task.start_date := Task.start_date (set r);
     Task.priority := Task.priority (set r);
     Task.tags := Task.tags (set r) |}.

Definition update_tasks_row (e : env) (set : Task.row -> Task.row) (r : Task.row)
  : M Task.row :=
  let r' := tasks_assign set r in
  guard (rls (caller e) (tasks_policy (auth_uid (caller e)) r'))
        (insufficient_privilege "tasks") ;;;
  tasks_constraints r' ;;;
  ret r'.

(** UPDATE tasks SET ... WHERE ...; the primary key is not assigned. *)
Definition update_tasks (e : env) (where_ : Task.row -> bool)
    (set : Task.row -> Task.row) : M (list Task.row) :=
  statement (
    s <- get ;;
    tu <- update_rows (tasks_target e where_) (update_tasks_row e set) (tasks s) ;;
    modify (set_tasks (fst tu)) ;;;
    for_each tasks_fkey (snd tu) ;;;
    ret (snd tu)).

(** task_comments.task_id and task_attachments.task_id:
    REFERENCES tasks(id) ON DELETE CASCADE. *)
Definition cascade_tasks (gone : list Task.row) : M unit :=
  modify (fun s =>
    set_task_comments
      (filter (fun m => negb (references (map Task.id gone) (TaskComment.task_id m)))
              (task_comments s))
      (set_task_attachments
         (filter (fun a => negb (references (map Task.id gone) (TaskAttachment.task_id a)))
                 (task_attachments s))
         s)).

Definition delete_tasks (e : env) (where_ : Task.row -> bool) : M (list Task.row) :=
  statement (
    s <- get ;;
    let gone := filter (tasks_target e where_) (tasks s) in
    modify (set_tasks (filter (fun t => negb (tasks_target e where_ t)) (tasks s))) ;;;
    cascade_tasks gone ;;;
    ret gone).

(** client_categories.client_id and tasks.client_id:
    REFERENCES clients(id) ON DELETE CASCADE; the tasks removed this way take
    their comments and attachments with them. *)
Definition cascade_clients (gone : list Client.row) : M unit :=
  s <- get ;;
  let gone_tasks :=
    filter (fun t => references (map Client.id gone) (Task.client_id t)) (tasks s) in
  modify (fun s =>
    set_client_categories
      (filter (fun k => negb (references (map Client.id gone) (ClientCategory.client_id k)))
              (client_categories s))
      (set_tasks
         (filter (fun t => negb (references (map Client.id gone) (Task.client_id t)))
                 (tasks s))
         s)) ;;;
  cascade_tasks gone_tasks.

Definition delete_clients (e : env) (where_ : Client.row -> bool) : M (list Client.row) :=
  statement (
    s <- get ;;
    let gone := filter (clients_target e where_) (clients s) in
    modify (set_clients (filter (fun c => negb (clients_target e where_ c)) (clients s))) ;;;
    cascade_clients gone ;;;
    ret gone).

(** ** task_comments *)

(** EXISTS (SELECT 1 FROM tasks WHERE tasks.id = task_id
            AND tasks.user_id = auth.uid()) *)
Definition owns_task (e : env) (s : store) (task_id : option uuid) : bool :=
  existsb (fun t => uuid_is (Task.id t) task_id
                    && is_true (sql_eq N.eqb (Task.user_id t) (auth_uid (caller e))))
          (visible_tasks e s).

Definition task_comments_select (e : env) (s : store) (r : TaskComment.row) : bool :=
  owns_task e s (TaskComment.task_id r).

Definition task_comments_insert (e : env) (s : store) (r : TaskComment.row) : bool :=
  owns_task e s (TaskComment.task_id r)
  && is_true (sql_eq N.eqb (auth_uid (caller e)) (TaskComment.user_id r)).

(** "Users can update their own comments", "Users can delete their own
    comments": auth.uid() = user_id *)
Definition task_comments_own (e : env) (r : TaskComment.row) : bool :=
  is_true (sql_eq N.eqb (auth_uid (caller e)) (TaskComment.user_id r)).

Definition task_comments_row (e : env) (v : TaskComment.values) : TaskComment.row :=
  {| TaskComment.id := default (Some (gen_random_uuid e 0)) (TaskComment.v_id v);
     TaskComment.task_id := default NULL (TaskComment.v_task_id v);
     TaskComment.user_id := default NULL (TaskComment.v_user_id v);
     TaskComment.user_email := default NULL (TaskComment.v_user_email v);
     TaskComment.comment_text := default NULL (TaskComment.v_comment_text v);
     TaskComment.created_at := default (Some (now e)) (TaskComment.v_created_at v) |}.

Definition insert_task_comment (e : env) (v : TaskComment.values) : M TaskComment.row :=
  statement (
    let r := task_comments_row e v in
    s <- get ;;
    guard (rls (caller e) (task_comments_insert e s r))
          (insufficient_privilege "task_comments") ;;;
    not_null "id" (TaskComment.id r) ;;;
    not_null "task_id" (TaskComment.task_id r) ;;;
    not_null "user_id" (TaskComment.user_id r) ;;;
    not_null "user_email" (TaskComment.user_email r) ;;;
    not_null "comment_text" (TaskComment.comment_text r) ;;;
    unless_exists (fun m => uuid_is (TaskComment.id m) (TaskComment.id r))
                  (task_comments s) (unique_violation "task_comments_pkey") ;;;
    modify (fun s => set_task_comments (task_comments s ++ [r]) s) ;;;
    guard (references (map Task.id (tasks s)) (TaskComment.task_id r))
          (foreign_key_violation "task_comments_task_id_fkey") ;;;
    guard (existsb (fun u => uuid_is (Some u) (TaskComment.user_id r)) (auth_users s))
          (foreign_key_violation "task_comments_user_id_fkey") ;;;
    ret r).

(** DELETE FROM task_comments [WHERE ...] [RETURNING ...].  The DELETE policy
    applies to every row the statement would remove.  The SELECT policy
    applies as well when the statement reads a column of the table, in its
    WHERE or in its RETURNING clause ([reads]); a statement that reads no
    column is decided by the DELETE policy alone (its WHERE, if it has one,
    is then the same for every row).  For clients, tasks and calendar_events
    the SELECT policy and the DELETE policy are one condition, so there the
    distinction does not arise.  The result is the rows removed: RETURNING *
    gives them, without it their number is reported. *)
Definition delete_task_comments (e : env) (reads : bool)
    (where_ : TaskComment.row -> bool) : M (list TaskComment.row) :=
  statement (
    s <- get ;;
    let target := fun m =>
      where_ m
      && rls (caller e)
             ((if reads then task_comments_select e s m else true)
              && task_comments_own e m) in
    modify (set_task_comments (filter (fun m => negb (target m)) (task_comments s))) ;;;
    ret (filter target (task_comments s))).

(** ** task_attachments *)

Definition task_attachments_select (e : env) (s : store) (r : TaskAttachment.row) : bool :=
  owns_task e s (TaskAttachment.task_id r).

Definition task_attachments_insert (e : env) (s : store) (r : TaskAttachment.row) : bool :=
  owns_task e s (TaskAttachment.task_id r)
  && is_true (sql_eq N.eqb (TaskAttachment.user_id r) (auth_uid (caller e))).

Definition task_attachments_delete (e : env) (r : TaskAttachment.row) : bool :=
  is_true (sql_eq N.eqb (TaskAttachment.user_id r) (auth_uid (caller e))).

Definition task_attachments_row (e : env) (v : TaskAttachment.values) : TaskAttachment.row :=
  {| TaskAttachment.id := default (Some (gen_random_uuid e 0)) (TaskAttachment.v_id v);
     TaskAttachment.task_id := default NULL (TaskAttachment.v_task_id v);
     TaskAttachment.file_url := default NULL (TaskAttachment.v_file_url v);
     TaskAttachment.file_name := default NULL (TaskAttachment.v_file_name v);
     TaskAttachment.file_size := default (Some 0%Z) (TaskAttachment.v_file_size v);
     TaskAttachment.file_type := default (Some "") (TaskAttachment.v_file_type v);
     TaskAttachment.uploaded_at := default (Some (now e)) (TaskAttachment.v_uploaded_at v);
     TaskAttachment.user_id := default NULL (TaskAttachment.v_user_id v) |}.

Definition insert_task_attachment (e : env) (v : TaskAttachment.values)
  : M TaskAttachment.row :=
  statement (
    let r := task_attachments_row e v in
    s <- get ;;
    guard (rls (caller e) (task_attachments_insert e s r))
          (insufficient_privilege "task_attachments") ;;;
    not_null "id" (TaskAttachment.id r) ;;;
    not_null "task_id" (TaskAttachment.task_id r) ;;;
    not_null "file_url" (TaskAttachment.file_url r) ;;;
    not_null "file_name" (TaskAttachment.file_name r) ;;;
    not_null "user_id" (TaskAttachment.user_id r) ;;;
    unless_exists (fun a => uuid_is (TaskAttachment.id a) (TaskAttachment.id r))
                  (task_attachments s) (unique_violation "task_attachments_pkey") ;;;
    modify (fun s => set_task_attachments (task_attachments s ++ [r]) s) ;;;
    guard (references (map Task.id (tasks s)) (TaskAttachment.task_id r))
          (foreign_key_violation "task_attachments_task_id_fkey") ;;;
    guard (existsb (fun u => uuid_is (Some u) (TaskAttachment.user_id r)) (auth_users s))
          (foreign_key_violation "task_attachments_user_id_fkey") ;;;
    ret r).

(** DELETE FROM task_attachments [WHERE ...] [RETURNING ...]: as for
    task_comments, the SELECT policy applies only to a statement that reads
    a column of the table. *)
Definition delete_task_attachments (e : env) (reads : bool)
    (where_ : TaskAttachment.row -> bool) : M (list TaskAttachment.row) :=
  statement (
    s <- get ;;
    let target := fun a =>
      where_ a
      && rls (caller e)
             ((if reads then task_attachments_select e s a else true)
              && task_attachments_delete e a) in
    modify (set_task_attachments (filter (fun a => negb (target a)) (task_attachments s))) ;;;
    ret (filter target (task_attachments s))).

(** ** calendar_events *)

(** The four policies of calendar_events: user_id = auth.uid(). *)
Definition calendar_events_policy (uid : option uuid) (r : CalendarEvent.row) : bool :=
  is_true (sql_eq N.eqb (CalendarEvent.user_id r) uid).

Definition calendar_events_row (e : env) (v : CalendarEvent.values) : CalendarEvent.row :=
  {| CalendarEvent.id :=
       default (Some (gen_random_uuid e 0)) (CalendarEvent.v_id v);
     CalendarEvent.google_event_id := default NULL (CalendarEvent.v_google_event_id v);
     CalendarEvent.title := default NULL (CalendarEvent.v_title v);
     CalendarEvent.description := default (Some "") (CalendarEvent.v_description v);
     CalendarEvent.date := default NULL (CalendarEvent.v_date v);
     CalendarEvent.time := default (Some "") (CalendarEvent.v_time v);
     CalendarEvent.user_id := default NULL (CalendarEvent.v_user_id v);
     CalendarEvent.created_at := default (Some (now e)) (CalendarEvent.v_created_at v);
     CalendarEvent.updated_at := default (Some (now e)) (CalendarEvent.v_updated_at v) |}.

Definition calendar_events_constraints (r : CalendarEvent.row) : M unit :=
  not_null "id" (CalendarEvent.id r) ;;;
  not_null "title" (CalendarEvent.title r) ;;;
  not_null "date" (CalendarEvent.date r) ;;;
  not_null "user_id" (CalendarEvent.user_id r).

Definition calendar_events_fkey (r : CalendarEvent.row) : M unit :=
  s <- get ;;
  guard (existsb (fun u => uuid_is (Some u) (CalendarEvent.user_id r)) (auth_users s))
        (foreign_key_violation "calendar_events_user_id_fkey").

Definition insert_calendar_event (e : env) (v : CalendarEvent.values)
  : M (list CalendarEvent.row) :=
  statement (
    let r := calendar_events_row e v in
    s <- get ;;
    guard (rls (caller e) (calendar_events_policy (auth_uid (caller e)) r))
          (insufficient_privilege "calendar_events") ;;;
    calendar_events_constraints r ;;;
    unless_exists (fun x => uuid_is (CalendarEvent.id x) (CalendarEvent.id r))
                  (calendar_events s) (unique_violation "calendar_events_pkey") ;;;
    modify (fun s => set_calendar_events (calendar_events s ++ [r]) s) ;;;
    calendar_events_fkey r ;;;
    ret [r]).

Definition calendar_events_target (e : env) (where_ : CalendarEvent.row -> bool)
    (r : CalendarEvent.row) : bool :=
  where_ r && rls (caller e) (calendar_events_policy (auth_uid (caller e)) r).

(** ORDER BY date ASC: NULL sorts last. *)
Definition date_le (x y : CalendarEvent.row) : bool :=
  match CalendarEvent.date x, CalendarEvent.date y with
  | Some a, Some b => (a <=? b)%Z
  | Some _, None => true
  | None, Some _ => false
  | None, None => true
  end.

Fixpoint insert_by_date (x : CalendarEvent.row) (l : list CalendarEvent.row)
  : list CalendarEvent.row :=
  match l with
  | [] => [x]
  | y :: l' => if date_le x y then x :: l else y :: insert_by_date x l'
  end.

Definition order_by_date (l : list CalendarEvent.row) : list CalendarEvent.row :=
  fold_right insert_by_date [] l.

Definition select_calendar_events (e : env) (where_ : CalendarEvent.row -> bool)
  : M (list CalendarEvent.row) :=
  s <- get ;;
  ret (order_by_date (filter (calendar_events_target e where_) (calendar_events s))).

Definition calendar_events_assign (set : CalendarEvent.row -> CalendarEvent.row)
    (r : CalendarEvent.row) : CalendarEvent.row :=
  {| CalendarEvent.id := CalendarEvent.id r;
     CalendarEvent.google_event_id := CalendarEvent.google_event_id (set r);
     CalendarEvent.title := CalendarEvent.title (set r);
     CalendarEvent.description := CalendarEvent.description (set r);
     CalendarEvent.date := CalendarEvent.date (set r);
     CalendarEvent.time := CalendarEvent.time (set r);
     CalendarEvent.user_id := CalendarEvent.user_id (set r);
     CalendarEvent.created_at := CalendarEvent.created_at (set r);
     CalendarEvent.updated_at := CalendarEvent.updated_at (set r) |}.

Definition update_calendar_events_row (e : env)
    (set : CalendarEvent.row -> CalendarEvent.row) (r : CalendarEvent.row)
  : M CalendarEvent.row :=
  let r' := calendar_events_assign set r in
  guard (rls (caller e) (calendar_events_policy (auth_uid (caller e)) r'))
        (insufficient_privilege "calendar_events") ;;;
  calendar_events_constraints r' ;;;
  ret r'.

Definition update_calendar_events (e : env) (where_ : CalendarEvent.row -> bool)
    (set : CalendarEvent.row -> CalendarEvent.row) : M (list CalendarEvent.row) :=
  statement (
    s <- get ;;
    tu <- update_rows (calendar_events_target e where_)
                      (update_calendar_events_row e set) (calendar_events s) ;;
    modify (set_calendar_events (fst tu)) ;;;
    for_each calendar_events_fkey (snd tu) ;;;
    ret (snd tu)).

Definition delete_calendar_events (e : env) (where_ : CalendarEvent.row -> bool)
  : M (list CalendarEvent.row) :=
  statement (
    s <- get ;;
    modify (set_calendar_events
              (filter (fun x => negb (calendar_events_target e where_ x))
                      (calendar_events s))) ;;;
    ret (filter (calendar_events_target e where_) (calendar_events s))).

(** ** Reachable stores *)

(** One step of the store: a sign-up at the identity provider, or one
    statement of some caller.  The rows of calendar_events are constrained by
    nothing the other tables refer to, so any change of that table is a
    step. *)
Inductive step : store -> store -> Prop :=
| step_sign_up u s :
    step s (set_auth_users (u :: auth_users s) s)
| step_insert_client e v s :
    step s (fst (insert_client e v s))
| step_update_clients e where_ set s :
    step s (fst (update_clients e where_ set s))
| step_delete_clients e where_ s :
    step s (fst (delete_clients e where_ s))
| step_insert_client_categories e vs s :
    step s (fst (insert_client_categories e vs s))
| step_insert_task e v s :
    step s (fst (insert_task e v s))
| step_update_tasks e where_ set s :
    step s (fst (update_tasks e where_ set s))
| step_delete_tasks e where_ s :
    step s (fst (delete_tasks e where_ s))
| step_insert_task_comment e v s :
    step s (fst (insert_task_comment e v s))
| step_delete_task_comments e reads where_ s :
    step s (fst (delete_task_comments e reads where_ s))
| step_insert_task_attachment e v s :
    step s (fst (insert_task_attachment e v s))
| step_delete_task_attachments e reads where_ s :
    step s (fst (delete_task_attachments e reads where_ s))
| step_calendar_events l s :
    step s (set_calendar_events l s).

Inductive reachable : store -> Prop :=
| reachable_empty : reachable (empty_store [])
| reachable_step s s' : reachable s -> step s s' -> reachable s'.

(** The value of a text column lies in an enumerated set. *)
Definition one_of (l : list string) (x : option string) : Prop :=
  exists v, x = Some v /\ In v l.

(** What the constraints of the schema maintain: every category row
    references a client, and the enumerated columns of tasks hold a value of
    their set, priority possibly none at all. *)
Definition referenced_client (s : store) (k : ClientCategory.row) : Prop :=
  references (map Client.id (clients s)) (ClientCategory.client_id k) = true.

Definition task_checks (t : Task.row) : Prop :=
  one_of statuses (Task.status t)
  /\ one_of categories (Task.category t)
  /\ (Task.priority t = NULL \/ one_of priorities (Task.priority t)).

Definition consistent (s : store) : Prop :=
  Forall (referenced_client s) (client_categories s)
  /\ Forall task_checks (tasks s).

(** ** The event sync proxy: supabase/functions/google-calendar-sync/index.ts *)

(** String.prototype.replace with a string pattern: the first occurrence. *)
Definition replace (pattern replacement s : string) : string :=
  match index 0 pattern s with
  | Some i =>
      (substring 0 i s ++ replacement
       ++ substring (i + String.length pattern)
                    (String.length s - (i + String.length pattern)) s)%string
  | None => s
  end.

(** What  await req.json()  gives: a rejection, null, or an object whose
    fields are absent ([DEFAULT]), null or text. *)
Inductive Json : Type :=
| invalid_json
| json_null
| json_object (title description date time : value string).

Record Request : Type := {
  method : string;
  Authorization : option string;   (* req.headers.get('Authorization') *)
  action : option string;          (* url.searchParams.get('action') *)
  id : option string;              (* url.searchParams.get('id') *)
  json : Json
}.

(** { data: { user }, error } of supabase.auth.getUser(token) *)
Record UserResponse : Type := {
  user : option uuid;
  authError : option string
}.

(** The error of a query: one raised by the database, or the refusal of
    .single() to turn anything but one row into an object. *)
Inductive PostgrestError : Type :=
| pg (e : pg_error)
| PGRST116.

Inductive exn : Type :=
| TypeError
| SyntaxError
| thrown (error : PostgrestError).

Inductive Body : Type :=
| error_body (message : string)     (* { error: '...' } *)
| error_message_of (error : exn)    (* { error: error.message } *)
| events_body (events : list CalendarEvent.row)
| event_body (event : CalendarEvent.row)
| success_body.                     (* { success: true } *)

Definition corsHeaders : list (string * string) :=
  [ ("Access-Control-Allow-Origin", "*");
    ("Access-Control-Allow-Methods", "GET, POST, PUT, DELETE, OPTIONS");
    ("Access-Control-Allow-Headers", "Content-Type, Authorization, X-Client-Info, Apikey") ].

Record Response : Type := {
  status : nat;
  headers : list (string * string);
  body : option Body
}.

Definition json_response (status : nat) (b : Body) : Response :=
  {| status := status;
     headers := corsHeaders ++ [("Content-Type", "application/json")];
     body := Some b |}.

(** What the handler asks of the outside, in order. *)
Inductive call : Type :=
| auth_getUser (token : string)
| from_select
| from_insert
| from_update
| from_delete.

Definition store_call (c : call) : bool :=
  match c with
  | auth_getUser _ => false
  | _ => true
  end.

Record outcome (A : Type) : Type := {
  calls : list call;
  db : store;
  returned : exn + A
}.
Arguments calls {A} o.
Arguments db {A} o.
Arguments returned {A} o.

(** The body of the try block: it reads and writes the store, records its
    calls, and returns or throws. *)
Definition J (A : Type) : Type := store -> outcome A.

Definition pure {A : Type} (a : A) : J A :=
  fun s => {| calls := []; db := s; returned := inr a |}.

Definition throw {A : Type} (error : exn) : J A :=
  fun s => {| calls := []; db := s; returned := inl error |}.

Definition and_then {A B : Type} (m : J A) (k : A -> J B) : J B :=
  fun s =>
    let o := m s in
    match returned o with
    | inl error => {| calls := calls o; db := db o; returned := inl error |}
    | inr a =>
        let o' := k a (db o) in
        {| calls := calls o ++ calls o'; db := db o'; returned := returned o' |}
    end.

Notation "x <~ m ;; k" := (and_then m (fun x => k))
  (at level 61, m at next level, right associativity).

(** await of a query builder: { data, error }. *)
Definition await {A : Type} (c : call) (q : store -> store * (PostgrestError + A))
  : J (PostgrestError + A) :=
  fun s => {| calls := [c]; db := fst (q s); returned := inr (snd (q s)) |}.

(** if (error) throw error; *)
Definition data_or_throw {A : Type} (r : PostgrestError + A) : J A :=
  match r with
  | inl error => throw (thrown error)
  | inr data => pure data
  end.

Definition rows {A : Type} (m : M A) : store -> store * (PostgrestError + A) :=
  fun s =>
    match m s with
    | (s', Ok a) => (s', inr a)
    | (s', Err e) => (s', inl (pg e))
    end.

(** .single(): exactly one row, or PGRST116 and nothing is kept of the
    request. *)
Definition single {A : Type} (m : M (list A)) : store -> store * (PostgrestError + A) :=
  fun s =>
    match m s with
    | (s', Ok [a]) => (s', inr a)
    | (_, Ok _) => (s, inl PGRST116)
    | (s', Err e) => (s', inl (pg e))
    end.

(** A request that cannot be read as a statement is an error of the
    database and touches nothing. *)
Definition rejected {A : Type} (e : pg_error) : store -> store * (PostgrestError + A) :=
  fun s => (s, inl (pg e)).

Definition text_to {A : Type} (input : string -> option A) (type : string)
    (v : value string) : result (value A) :=
  match v with
  | DEFAULT => Ok DEFAULT
  | VNULL => Ok VNULL
  | V text =>
      match input text with
      | Some a => Ok (V a)
      | None => Err (invalid_text_representation type)
      end
  end.

(** A key that is undefined is left out of the JSON sent; an insert of an
    array names its columns, so a left-out key is NULL; an update sets only
    the keys that are sent. *)
Definition missing_is_null {A : Type} (v : value A) : value A :=
  match v with
  | DEFAULT => VNULL
  | _ => v
  end.

Definition assign {A : Type} (v : value A) (old : option A) : option A :=
  match v with
  | DEFAULT => old
  | VNULL => NULL
  | V a => Some a
  end.

Section Handler.

(** supabase.auth.getUser *)
Variable getUser : string -> UserResponse.
(** how the database reads a uuid and a date written as text *)
Variable uuid_in : string -> option uuid.
Variable date_in : string -> option pg_date.
(** now() and gen_random_uuid() of the database, new Date() of the runtime *)
Variable db_now : timestamptz.
Variable db_uuid : nat -> uuid.
Variable Date_now : timestamptz.

(** createClient(supabaseUrl, supabaseKey) with the service role key *)
Definition supabase : env :=
  {| caller := service_role; now := db_now; gen_random_uuid := db_uuid |}.

Definition list_events (user_id : uuid) : J Response :=
  r <~ await from_select
         (rows (select_calendar_events supabase
                  (fun x => uuid_is (CalendarEvent.user_id x) (Some user_id)))) ;;
  events <~ data_or_throw r ;;
  pure (json_response 200 (events_body events)).

Definition create_query (user_id : uuid) (title description date time : value string)
  : store -> store * (PostgrestError + CalendarEvent.row) :=
  match text_to date_in "date" date with
  | Err e => rejected e
  | Ok d =>
      single (insert_calendar_event supabase
        {| CalendarEvent.v_id := DEFAULT;
           CalendarEvent.v_google_event_id := VNULL;
           CalendarEvent.v_title := missing_is_null title;
           CalendarEvent.v_description := missing_is_null description;
           CalendarEvent.v_date := missing_is_null d;
           CalendarEvent.v_time := missing_is_null time;
           CalendarEvent.v_user_id := V user_id;
           CalendarEvent.v_created_at := DEFAULT;
           CalendarEvent.v_updated_at := DEFAULT |})
  end.

Definition create_event (req : Request) (user_id : uuid) : J Response :=
  match json req with
  | invalid_json => throw SyntaxError
  | json_null => throw TypeError          (* body.title of null *)
  | json_object title description date time =>
      r <~ await from_insert (create_query user_id title description date time) ;;
      event <~ data_or_throw r ;;
      pure (json_response 200 (event_body event))
  end.

Definition update_query (eventId : string) (user_id : uuid)
    (title description date time : value string)
  : store -> store * (PostgrestError + CalendarEvent.row) :=
  match uuid_in eventId, text_to date_in "date" date with
  | None, _ => rejected (invalid_text_representation "uuid")
  | Some _, Err e => rejected e
  | Some i, Ok d =>
      single (update_calendar_events supabase
        (fun x => uuid_is (CalendarEvent.id x) (Some i)
                  && uuid_is (CalendarEvent.user_id x) (Some user_id))
        (fun x =>
           {| CalendarEvent.id := CalendarEvent.id x;
              CalendarEvent.google_event_id := CalendarEvent.google_event_id x;
              CalendarEvent.title := assign title (CalendarEvent.title x);
              CalendarEvent.description := assign description (CalendarEvent.description x);
              CalendarEvent.date := assign d (CalendarEvent.date x);
              CalendarEvent.time := assign time (CalendarEvent.time x);
              CalendarEvent.user_id := CalendarEvent.user_id x;
              CalendarEvent.created_at := CalendarEvent.created_at x;
              CalendarEvent.updated_at := Some Date_now |}))
  end.

Definition Event_ID_required : Response :=
  json_response 400 (error_body "Event ID required").

(** !eventId: null or the empty string *)
Definition falsy (eventId : option string) : bool :=
  match eventId with
  | None => true
  | Some text => String.eqb text ""
  end.

Definition update_event (req : Request) (user_id : uuid) : J Response :=
  match json req with
  | invalid_json => throw SyntaxError     (* const body = await req.json() *)
  | body =>
      match id req with
      | Some eventId =>
          if falsy (Some eventId) then pure Event_ID_required
          else
            match body with
            | json_object title description date time =>
                r <~ await from_update
                       (update_query eventId user_id title description date time) ;;
                event <~ data_or_throw r ;;
                pure (json_response 200 (event_body event))
            | _ => throw TypeError        (* body.title of null *)
            end
      | None => pure Event_ID_required
      end
  end.

Definition delete_query (eventId : string) (user_id : uuid)
  : store -> store * (PostgrestError + list CalendarEvent.row) :=
  match uuid_in eventId with
  | None => rejected (invalid_text_representation "uuid")
  | Some i =>
      rows (delete_calendar_events supabase
        (fun x => uuid_is (CalendarEvent.id x) (Some i)
                  && uuid_is (CalendarEvent.user_id x) (Some user_id)))
  end.

Definition delete_event (req : Request) (user_id : uuid) : J Response :=
  match id req with
  | Some eventId =>
      if falsy (Some eventId) then pure Event_ID_required
      else
        r <~ await from_delete (delete_query eventId user_id) ;;
        _ <~ data_or_throw r ;;
        pure (json_response 200 success_body)
  | None => pure Event_ID_required
  end.

(** switch (action) *)
Definition switch_action (req : Request) (user_id : uuid) : J Response :=
  match action req with
  | Some a =>
      if String.eqb a "list" then list_events user_id
      else if String.eqb a "create" then create_event req user_id
      else if String.eqb a "update" then update_event req user_id
      else if String.eqb a "delete" then delete_event req user_id
      else pure (json_response 400 (error_body "Invalid action"))
  | None => pure (json_response 400 (error_body "Invalid action"))
  end.

(** The try block of the handler. *)
Definition try_block (req : Request) : J Response :=
  match Authorization req with
  | None => throw TypeError                (* authHeader.replace of null *)
  | Some authHeader =>
      let token := replace "Bearer " "" authHeader in
      r <~ (fun s => {| calls := [auth_getUser token]; db := s;
                        returned := inr (getUser token) |}) ;;
      match authError r, user r with
      | None, Some user_id => switch_action req user_id
      | _, _ => pure (json_response 401 (error_body "Unauthorized"))
      end
  end.

(** Deno.serve(async (req) => ...): the response, with the calls made and
    the store left behind. *)
Definition serve (req : Request) : J Response :=
  fun s =>
    if String.eqb (method req) "OPTIONS"
    then {| calls := []; db := s;
            returned := inr {| status := 200; headers := corsHeaders; body := None |} |}
    else
      let o := try_block req s in
      match returned o with
      | inr response => o
      | inl error =>
          {| calls := calls o; db := db o;
             returned := inr (json_response 500 (error_message_of error)) |}
      end.

(** The handler went to the identity provider with the token of the request
    and the answer was an error or no user. *)
Definition credential_fails (req : Request) (s : store) : Prop :=
  exists token,
    In (auth_getUser token) (calls (serve req s))
    /\ (authError (getUser token) <> None \/ user (getUser token) = None).

(** The handler went to the identity provider and was given this user. *)
Definition authenticated_as (req : Request) (s : store) (user_id : uuid) : Prop :=
  exists token,
    In (auth_getUser token) (calls (serve req s))
    /\ authError (getUser token) = None
    /\ user (getUser token) = Some user_id.

Definition no_store_call (req : Request) (s : store) : Prop :=
  forallb (fun c => negb (store_call c)) (calls (serve req s)) = true.

End Handler.

(** ** Conditions used in the statements below *)

(** The client already has a category row for each of the three tags. *)
Definition has_default_categories (s : store) (c : Client.row) : Prop :=
  forall tag, In tag categories ->
    exists k, In k (client_categories s)
              /\ uuid_is (ClientCategory.client_id k) (Client.id c) = true
              /\ ClientCategory.category k = Some tag.

(** The category rows of a client. *)
Definition categories_of (s : store) (c : Client.row) : list ClientCategory.row :=
  filter (fun k => uuid_is (ClientCategory.client_id k) (Client.id c)) (client_categories s).

(** gen_random_uuid() gives the statement identifiers that are not in use:
    the first for the client when its id is left to the default, the next
    three for the category rows. *)
Definition fresh_client_id (e : env) (v : Client.values) (s : store) : bool :=
  negb (is_null (Client.id (clients_row e v)))
  && negb (existsb (fun c => uuid_is (Client.id c) (Client.id (clients_row e v)))
                   (clients s)).

Definition fresh_category_id (e : env) (s : store) (n : nat) : bool :=
  negb (existsb (fun k => uuid_is (ClientCategory.id k) (Some (gen_random_uuid e n)))
                (client_categories s)).

Definition fresh_category_ids (e : env) (s : store) : bool :=
  fresh_category_id e s 1 && fresh_category_id e s 2 && fresh_category_id e s 3
  && negb (N.eqb (gen_random_uuid e 1) (gen_random_uuid e 2))
  && negb (N.eqb (gen_random_uuid e 1) (gen_random_uuid e 3))
  && negb (N.eqb (gen_random_uuid e 2) (gen_random_uuid e 3)).

(** WHERE id = ... *)
Definition client_id_is (i : uuid) (c : Client.row) : bool := uuid_is (Client.id c) (Some i).
Definition task_id_is (i : uuid) (t : Task.row) : bool := uuid_is (Task.id t) (Some i).

(** ** A small world: two users, one client, one task, one event *)

Module Scenario.

Definition alice : uuid := 1%N.
Definition bob : uuid := 2%N.

Definition as_alice : env :=
  {| caller := authenticated alice; now := 100%Z;
     gen_random_uuid := fun n => (1000 + N.of_nat n)%N |}.

Definition as_bob : env :=
  {| caller := authenticated bob; now := 200%Z;
     gen_random_uuid := fun n => (2000 + N.of_nat n)%N |}.

Definition signed_up : store :=
  set_auth_users (bob :: auth_users (set_auth_users [alice] (empty_store [])))
                 (set_auth_users [alice] (empty_store [])).

(** .insert([{ name, user_id }]) *)
Definition new_client (name : string) (user_id : uuid) : Client.values :=
  {| Client.v_id := DEFAULT; Client.v_user_id := V user_id;
     Client.v_name := V name; Client.v_created_at := DEFAULT |}.

(** alice creates the client Acme: its id is 1000. *)
Definition with_acme : store := fst (insert_client as_alice (new_client "Acme" alice) signed_up).

Definition acme : Client.row :=
  {| Client.id := Some 1000%N; Client.user_id := Some alice;
     Client.name := Some "Acme"; Client.created_at := Some 100%Z |}.

Definition new_task (user_id : uuid) (client_id : value uuid)
    (status priority : value string) : Task.values :=
  {| Task.v_id := DEFAULT; Task.v_user_id := V user_id; Task.v_client_id := client_id;
     Task.v_category := V "tasks"; Task.v_name := V "Call back";
     Task.v_description := V ""; Task.v_assignee := V "";
     Task.v_status := status;
     Task.v_created_at := DEFAULT; Task.v_updated_at := DEFAULT;
     Task.v_due_date := DEFAULT; Task.v_start_date := DEFAULT;
     Task.v_priority := priority; Task.v_tags := DEFAULT |}.

(** bob's task on alice's client: its id is 2000. *)
Definition bobs_task : Task.row :=
  {| Task.id := Some 2000%N; Task.user_id := Some bob; Task.client_id := Some 1000%N;
     Task.category := Some "tasks"; Task.name := Some "Call back";
     Task.description := Some ""; Task.assignee := Some "";
     Task.status := Some "Pending";
     Task.created_at := Some 200%Z; Task.updated_at := Some 200%Z;
     Task.due_date := NULL; Task.start_date := NULL;
     Task.priority := Some "Medium"; Task.tags := NULL |}.

(** alice's own task on Acme: its id is 1000. *)
Definition with_task : store :=
  fst (insert_task as_alice (new_task alice (V 1000%N) (V "Pending") DEFAULT) with_acme).

Definition alices_task : Task.row :=
  {| Task.id := Some 1000%N; Task.user_id := Some alice; Task.client_id := Some 1000%N;
     Task.category := Some "tasks"; Task.name := Some "Call back";
     Task.description := Some ""; Task.assignee := Some "";
     Task.status := Some "Pending";
     Task.created_at := Some 100%Z; Task.updated_at := Some 100%Z;
     Task.due_date := NULL; Task.start_date := NULL;
     Task.priority := Some "Medium"; Task.tags := NULL |}.

(** A task without a priority. *)
Definition no_priority : Task.row :=
  {| Task.id := Some 1000%N; Task.user_id := Some alice; Task.client_id := Some 1000%N;
     Task.category := Some "tasks"; Task.name := Some "Call back";
     Task.description := Some ""; Task.assignee := Some "";
     Task.status := Some "Pending";
     Task.created_at := Some 100%Z; Task.updated_at := Some 100%Z;
     Task.due_date := NULL; Task.start_date := NULL;
     Task.priority := NULL; Task.tags := NULL |}.

(** alice once more, with other identifiers to come. *)
Definition alice_again : env :=
  {| caller := authenticated alice; now := 150%Z;
     gen_random_uuid := fun n => (7000 + N.of_nat n)%N |}.

(** alice comments on her task and attaches a file to it; bob has his task
    on Acme. *)
Definition with_comment : store :=
  fst (insert_task_comment as_alice
         {| TaskComment.v_id := DEFAULT; TaskComment.v_task_id := V 1000%N;
            TaskComment.v_user_id := V alice;
            TaskComment.v_user_email := V "alice@example.com";
            TaskComment.v_comment_text := V "Called, no answer";
            TaskComment.v_created_at := DEFAULT |}
         with_task).

Definition with_attachment : store :=
  fst (insert_task_attachment as_alice
         {| TaskAttachment.v_id := DEFAULT; TaskAttachment.v_task_id := V 1000%N;
            TaskAttachment.v_file_url := V "1/notes.txt";
            TaskAttachment.v_file_name := V "notes.txt";
            TaskAttachment.v_file_size := V 12%Z;
            TaskAttachment.v_file_type := V "text/plain";
            TaskAttachment.v_uploaded_at := DEFAULT;
            TaskAttachment.v_user_id := V alice |}
         with_comment).

Definition crowded : store :=
  fst (insert_task as_bob (new_task bob (V 1000%N) (V "Pending") DEFAULT) with_attachment).

(** A caller whose second generated identifier is already the id of a
    category row of Acme. *)
Definition unlucky : env :=
  {| caller := authenticated bob; now := 300%Z;
     gen_random_uuid := fun n => match n with
                                 | 2 => 1001%N
                                 | _ => (5000 + N.of_nat n)%N
                                 end |}.

(** The identity provider knows two tokens. *)
Definition getUser (token : string) : UserResponse :=
  if String.eqb token "alice-token" then {| user := Some alice; authError := NULL |}
  else if String.eqb token "bob-token" then {| user := Some bob; authError := NULL |}
  else {| user := NULL; authError := Some "invalid JWT" |}.

Definition uuid_in (text : string) : option uuid :=
  if String.eqb text "00000000-0000-0000-0000-000000000007" then Some 7%N
  else if String.eqb text "00000000-0000-0000-0000-000000000008" then Some 8%N
  else NULL.

Definition date_in (text : string) : option pg_date :=
  if String.eqb text "2025-12-09" then Some 20431%Z else NULL.

Definition proxy : Request -> J Response :=
  serve getUser uuid_in date_in 400%Z (fun n => (7 + N.of_nat n)%N) 401%Z.

Definition standup : CalendarEvent.row :=
  {| CalendarEvent.id := Some 7%N; CalendarEvent.google_event_id := NULL;
     CalendarEvent.title := Some "Standup"; CalendarEvent.description := Some "";
     CalendarEvent.date := Some 20431%Z; CalendarEvent.time := Some "09:30";
     CalendarEvent.user_id := Some alice;
     CalendarEvent.created_at := Some 400%Z; CalendarEvent.updated_at := Some 400%Z |}.

(** alice has one event, with id 7. *)
Definition with_event : store := set_calendar_events [standup] signed_up.

Definition request (method token action : string) (id : option string) (json : Json)
  : Request :=
  {| method := method; Authorization := Some ("Bearer " ++ token)%string;
     action := Some action; id := id; json := json |}.

Definition retitle : Json := json_object (V "Retro") DEFAULT DEFAULT DEFAULT.

End Scenario.

(** ** Further statements of the data API *)

(** .from('task_comments').select('*') and .from('task_attachments')
    .select('*'): the rows the SELECT policy lets the caller see. *)
Definition select_task_comments (e : env) (where_ : TaskComment.row -> bool)
  : M (list TaskComment.row) :=
  s <- get ;;
  ret (filter (fun m => where_ m && rls (caller e) (task_comments_select e s m))
              (task_comments s)).

Definition select_task_attachments (e : env) (where_ : TaskAttachment.row -> bool)
  : M (list TaskAttachment.row) :=
  s <- get ;;
  ret (filter (fun a => where_ a && rls (caller e) (task_attachments_select e s a))
              (task_attachments s)).

(** ** What the keys and the references of the schema maintain *)

(** PRIMARY KEY: no two rows with the same id, and no row without one. *)
Definition primary_key {R : Type} (id : R -> option uuid) (t : list R) : Prop :=
  NoDup (map id t) /\ ~ In None (map id t).

(** UNIQUE(client_id, category) *)
Definition category_key (k : ClientCategory.row) : option uuid * option string :=
  (ClientCategory.client_id k, ClientCategory.category k).

Definition category_checked (k : ClientCategory.row) : Prop :=
  one_of categories (ClientCategory.category k) /\ ClientCategory.client_id k <> None.

(** What the primary key, UNIQUE and CHECK keep of client_categories. *)
Definition categories_keyed (l : list ClientCategory.row) : Prop :=
  primary_key ClientCategory.id l
  /\ NoDup (map category_key l)
  /\ Forall category_checked l.

Definition keyed (s : store) : Prop :=
  primary_key Client.id (clients s)
  /\ categories_keyed (client_categories s)
  /\ primary_key Task.id (tasks s)
  /\ primary_key TaskComment.id (task_comments s)
  /\ primary_key TaskAttachment.id (task_attachments s).

(** REFERENCES clients(id) of tasks (a NULL client_id refers to nothing),
    REFERENCES tasks(id) of task_comments and task_attachments. *)
Definition referential (s : store) : Prop :=
  Forall (fun t => Task.client_id t = None
                   \/ references (map Client.id (clients s)) (Task.client_id t) = true)
         (tasks s)
  /\ Forall (fun m => references (map Task.id (tasks s)) (TaskComment.task_id m) = true)
            (task_comments s)
  /\ Forall (fun a => references (map Task.id (tasks s)) (TaskAttachment.task_id a) = true)
            (task_attachments s).

(** Every client has a category row for each tag. *)
Definition provisioned (s : store) : Prop :=
  forall c, In c (clients s) -> has_default_categories s c.

(** The row belongs to the user. *)
Definition owner_is (u : uuid) (user_id : option uuid) : bool := uuid_is (Some u) user_id.

(** ** Conditions on what the proxy answers *)

(** { error: string } *)
Definition error_response (r : Response) : Prop :=
  (exists message, body r = Some (error_body message))
  \/ (exists error, body r = Some (error_message_of error)).

(** ORDER BY date ASC, as a relation between neighbours. *)
Definition date_ascending (x y : CalendarEvent.row) : Prop := date_le x y = true.

(** .eq('id', i).eq('user_id', u) *)
Definition event_is (i u : uuid) (x : CalendarEvent.row) : bool :=
  uuid_is (CalendarEvent.id x) (Some i) && uuid_is (CalendarEvent.user_id x) (Some u).

(** Every answer carries the CORS headers; it is 200, or 400, 401 or 500 with
    { error: string }. *)
Definition well_formed (r : Response) : Prop :=
  incl corsHeaders (headers r)
  /\ (status r = 200
      \/ ((status r = 400 \/ status r = 401 \/ status r = 500) /\ error_response r)).

(** ** The small world, with more events *)

Module Agenda.

(** A second event of alice, a day before the standup, and an event of bob. *)
Definition retro : CalendarEvent.row :=
  {| CalendarEvent.id := Some 8%N; CalendarEvent.google_event_id := NULL;
     CalendarEvent.title := Some "Retro"; CalendarEvent.description := Some "";
     CalendarEvent.date := Some 20430%Z; CalendarEvent.time := Some "16:00";
     CalendarEvent.user_id := Some Scenario.alice;
     CalendarEvent.created_at := Some 410%Z; CalendarEvent.updated_at := Some 410%Z |}.

Definition review : CalendarEvent.row :=
  {| CalendarEvent.id := Some 9%N; CalendarEvent.google_event_id := NULL;
     CalendarEvent.title := Some "Review"; CalendarEvent.description := Some "";
     CalendarEvent.date := Some 20429%Z; CalendarEvent.time := Some "11:00";
     CalendarEvent.user_id := Some Scenario.bob;
     CalendarEvent.created_at := Some 420%Z; CalendarEvent.updated_at := Some 420%Z |}.

Definition busy : store :=
  set_calendar_events [Scenario.standup; review; retro] Scenario.signed_up.

(** { title: 'Retro', date: '2025-12-09' } *)
Definition retro_body : Json := json_object (V "Retro") DEFAULT (V "2025-12-09") DEFAULT.

End Agenda.

(** ** The client of the proxy: src/lib/googleCalendar.ts *)

(** response.ok *)
Definition ok (r : Response) : bool := Nat.leb 200 (status r) && Nat.leb (status r) 299.

(** getAuthHeaders: `Bearer ${session?.access_token}`; without a session the
    text is "Bearer undefined". *)
Definition getAuthHeaders (session : option string) : string :=
  ("Bearer " ++ match session with
                | Some access_token => access_token
                | None => "undefined"
                end)%string.

(** What createCalendarEvent is given: the four fields the proxy reads. *)
Module Draft.
Record event : Type := {
  title : string;
  description : string;
  date : string;
  time : string
}.
End Draft.

Section Client.

(** fetch to EDGE_FUNCTION_URL: the answer of the proxy, or a rejection. *)
Variable fetch : Request -> J Response.
(** the access token of supabase.auth.getSession(), if there is a session *)
Variable session : option string.

(** listCalendarEvents: data.events || [], and [] for whatever goes wrong. *)
Definition listCalendarEvents : store -> store * list CalendarEvent.row :=
  fun s =>
    let o := fetch {| method := "GET";
                      Authorization := Some (getAuthHeaders session);
                      action := Some "list"; id := None; json := invalid_json |} s in
    (db o,
     match returned o with
     | inr response =>
         if ok response
         then match body response with
              | Some (events_body events) => events
              | _ => []
              end
         else []
     | inl _ => []
     end).

(** createCalendarEvent: data.event, and null for whatever goes wrong. *)
Definition createCalendarEvent (event : Draft.event)
  : store -> store * option CalendarEvent.row :=
  fun s =>
    let o := fetch {| method := "POST";
                      Authorization := Some (getAuthHeaders session);
                      action := Some "create"; id := None;
                      json := json_object (V (Draft.title event))
                                          (V (Draft.description event))
                                          (V (Draft.date event))
                                          (V (Draft.time event)) |} s in
    (db o,
     match returned o with
     | inr response =>
         if ok response
         then match body response with
              | Some (event_body event) => Some event
              | _ => None
              end
         else None
     | inl _ => None
     end).

End Client.

(** ** Counts the front end shows *)

(** t.status === 'Pending' *)
Definition strictly_equal (x : option string) (text : string) : bool :=
  match x with
  | Some a => String.eqb a text
  | None => false
  end.

Record TaskStats : Type := {
  pending : nat;
  completed : nat;
  inProgress : nat
}.

(** fetchTaskStats of the home tab (components/TasksTable.tsx):
    .from('tasks').select('status'), counted by status. *)
Definition fetchTaskStats (e : env) : M TaskStats :=
  tasks <- select_tasks e (fun _ => true) ;;
  ret {| pending :=
           List.length (filter (fun t => strictly_equal (Task.status t) "Pending") tasks);
         completed :=
           List.length (filter (fun t => strictly_equal (Task.status t) "Completed") tasks);
         inProgress :=
           List.length (filter (fun t => strictly_equal (Task.status t) "In-Progress")
                               tasks) |}.

Record Counts : Type := {
  count_tasks : nat;
  count_gtm : nat;
  count_recurring : nat
}.

(** The counts of fetchClientsAndCategories (components/Sidebar.tsx) for one
    client: .from('tasks').select('category').eq('client_id', client.id),
    counted by category. *)
Definition counts (e : env) (client_id : option uuid) : M Counts :=
  tasksCount <- select_tasks e (fun t => uuid_is (Task.client_id t) client_id) ;;
  ret {| count_tasks :=
           List.length (filter (fun t => strictly_equal (Task.category t) "tasks")
                               tasksCount);
         count_gtm :=
           List.length (filter (fun t => strictly_equal (Task.category t) "gtm")
                               tasksCount);
         count_recurring :=
           List.length (filter (fun t => strictly_equal (Task.category t) "recurring")
                               tasksCount) |}.

(** ** Small functions of the components *)

(** truncateDescription of the task list; !text holds of null and of the
    empty string. *)
Definition truncateDescription (text : option string) (maxLength : nat) : string :=
  match text with
  | None => "No description"
  | Some text =>
      if String.eqb text "" then "No description"
      else if Nat.leb (String.length text) maxLength then text
      else (substring 0 maxLength text ++ "...")%string
  end.

(** The clients of the side bar, and toggleClient. *)
Module Sidebar.

Record Client : Type := {
  id : string;
  name : string;
  categories : Counts;
  isExpanded : bool
}.

Definition toggleClient (clients : list Client) (clientId : string) : list Client :=
  map (fun client =>
         if String.eqb (id client) clientId
         then {| id := id client; name := name client; categories := categories client;
                 isExpanded := negb (isExpanded client) |}
         else client)
      clients.

End Sidebar.

(** ** What a cascade can reach *)

(** The reference is to a task of the user. *)
Definition own_task (u : uuid) (s : store) (task_id : option uuid) : Prop :=
  exists t, In t (tasks s)
            /\ uuid_is (Task.id t) task_id = true
            /\ owner_is u (Task.user_id t) = true.

(** The reference is to a client of the user. *)
Definition own_client (u : uuid) (s : store) (client_id : option uuid) : Prop :=
  exists c, In c (clients s)
            /\ uuid_is (Client.id c) client_id = true
            /\ owner_is u (Client.user_id c) = true.

(** The reference is to a task, of whatever user, on a client of the user. *)
Definition task_of_own_client (u : uuid) (s : store) (task_id : option uuid) : Prop :=
  exists t, In t (tasks s)
            /\ uuid_is (Task.id t) task_id = true
            /\ own_client u s (Task.client_id t).

(** ** A comment on a task of another user *)

Module Thread.

Definition as_service : env :=
  {| caller := service_role; now := 500%Z;
     gen_random_uuid := fun n => (9000 + N.of_nat n)%N |}.

(** Written through the service role: a comment in the name of alice on the
    task of bob.  alice now has two comments, one on her task and this
    one. *)
Definition stray : store :=
  fst (insert_task_comment as_service
         {| TaskComment.v_id := DEFAULT; TaskComment.v_task_id := V 2000%N;
            TaskComment.v_user_id := V Scenario.alice;
            TaskComment.v_user_email := V "alice@example.com";
            TaskComment.v_comment_text := V "Is this one mine?";
            TaskComment.v_created_at := DEFAULT |}
         Scenario.crowded).

End Thread.

(** * Properties *)

(** ** Running a statement *)

Lemma bind_Ok {A B : Type} (m : M A) (k : A -> M B) s s' b :
  bind m k s = (s', Ok b) ->
  exists a s1, m s = (s1, Ok a) /\ k a s1 = (s', Ok b).
Proof.
  unfold bind. destruct (m s) as [s1 [a | e]]; intros H.
  - exists a, s1. split; [reflexivity | exact H].
  - discriminate H.
Qed.

Lemma bind_Ok_run {A B : Type} (m : M A) (k : A -> M B) s s1 a :
  m s = (s1, Ok a) -> bind m k s = k a s1.
Proof. intros H. unfold bind. rewrite H. reflexivity. Qed.

Lemma bind_Err_run {A B : Type} (m : M A) (k : A -> M B) s s1 e :
  m s = (s1, Err e) -> bind m k s = (s1, Err e).
Proof. intros H. unfold bind. rewrite H. reflexivity. Qed.

Lemma guard_Ok ok e s s' u : guard ok e s = (s', Ok u) -> ok = true /\ s' = s.
Proof.
  unfold guard, ret, raise. destruct ok; intros H; inversion H; split; reflexivity.
Qed.

Lemma guard_state ok e s s' (x : result unit) : guard ok e s = (s', x) -> s' = s.
Proof. unfold guard, ret, raise. destruct ok; intros H; inversion H; reflexivity. Qed.

Lemma not_null_Ok {A : Type} column (o : option A) s s' u :
  not_null column o s = (s', Ok u) -> (exists a, o = Some a) /\ s' = s.
Proof.
  unfold not_null. intros H. apply guard_Ok in H. destruct H as [H ->].
  destruct o as [a |]; [split; [exists a |]; reflexivity | discriminate H].
Qed.

Lemma unless_exists_Ok {R : Type} (same : R -> bool) t e s s' u :
  unless_exists same t e s = (s', Ok u) -> existsb same t = false /\ s' = s.
Proof.
  unfold unless_exists. intros H. apply guard_Ok in H. destruct H as [H ->].
  split; [apply negb_true_iff in H; exact H | reflexivity].
Qed.

Lemma get_Ok s s' a : get s = (s', Ok a) -> a = s /\ s' = s.
Proof. unfold get. intros H. inversion H. split; reflexivity. Qed.

Lemma modify_Ok f s s' u : modify f s = (s', Ok u) -> s' = f s.
Proof. unfold modify. intros H. inversion H. reflexivity. Qed.

Lemma ret_Ok {A : Type} (a : A) s s' b : ret a s = (s', Ok b) -> b = a /\ s' = s.
Proof. unfold ret. intros H. inversion H. split; reflexivity. Qed.

Lemma statement_Ok {A : Type} (m : M A) s s' a :
  statement m s = (s', Ok a) -> m s = (s', Ok a).
Proof.
  unfold statement. destruct (m s) as [s1 [b | e]]; intros H; inversion H; reflexivity.
Qed.

Lemma statement_Err {A : Type} (m : M A) s s' e :
  statement m s = (s', Err e) -> s' = s.
Proof.
  unfold statement. destruct (m s) as [s1 [b | e1]]; intros H; inversion H; reflexivity.
Qed.

Lemma statement_raises {A : Type} (m : M A) s s1 e :
  m s = (s1, Err e) -> statement m s = (s, Err e).
Proof. intros H. unfold statement. rewrite H. reflexivity. Qed.

Lemma statement_fst {A : Type} (m : M A) s :
  fst (statement m s) = s \/ exists a, m s = (fst (statement m s), Ok a).
Proof.
  unfold statement. destruct (m s) as [s1 [a | e]]; simpl.
  - right. exists a. reflexivity.
  - left. reflexivity.
Qed.

Ltac run_step :=
  match goal with
  | H : statement _ _ = (_, Ok _) |- _ => apply statement_Ok in H
  | H : bind _ _ _ = (_, Ok _) |- _ =>
      apply bind_Ok in H; destruct H as (? & ? & ? & H)
  | H : guard _ _ _ = (_, Ok _) |- _ => apply guard_Ok in H; destruct H as [? ?]
  | H : not_null _ _ _ = (_, Ok _) |- _ => apply not_null_Ok in H; destruct H as [? ?]
  | H : unless_exists _ _ _ _ = (_, Ok _) |- _ =>
      apply unless_exists_Ok in H; destruct H as [? ?]
  | H : get _ = (_, Ok _) |- _ => apply get_Ok in H; destruct H as [? ?]
  | H : modify _ _ = (_, Ok _) |- _ => apply modify_Ok in H
  | H : ret _ _ = (_, Ok _) |- _ => apply ret_Ok in H; destruct H as [? ?]
  end.

Ltac run := repeat (run_step; subst).

(** ** The tables a setter leaves alone *)

Lemma set_clients_same s : set_clients (clients s) s = s.
Proof. destruct s; reflexivity. Qed.

Lemma set_client_categories_same s : set_client_categories (client_categories s) s = s.
Proof. destruct s; reflexivity. Qed.

Lemma set_tasks_same s : set_tasks (tasks s) s = s.
Proof. destruct s; reflexivity. Qed.

Lemma set_task_comments_same s : set_task_comments (task_comments s) s = s.
Proof. destruct s; reflexivity. Qed.

Lemma set_task_attachments_same s : set_task_attachments (task_attachments s) s = s.
Proof. destruct s; reflexivity. Qed.

Lemma set_calendar_events_same s : set_calendar_events (calendar_events s) s = s.
Proof. destruct s; reflexivity. Qed.

Lemma filter_all {R : Type} (f : R -> bool) (l : list R) :
  (forall x, In x l -> f x = true) -> filter f l = l.
Proof.
  induction l as [| x l IH]; intros H; simpl; [reflexivity |].
  rewrite (H x (or_introl eq_refl)). f_equal. apply IH.
  intros y Hy. apply H. right. exact Hy.
Qed.

Lemma filter_none {R : Type} (f : R -> bool) (l : list R) :
  (forall x, In x l -> f x = false) -> filter f l = [].
Proof.
  induction l as [| x l IH]; intros H; simpl; [reflexivity |].
  rewrite (H x (or_introl eq_refl)). apply IH.
  intros y Hy. apply H. right. exact Hy.
Qed.

(** ** Comparisons *)

Lemma uuid_is_Some x y : uuid_is (Some x) (Some y) = N.eqb x y.
Proof. unfold uuid_is, is_true, sql_eq. destruct (N.eqb x y); reflexivity. Qed.

Lemma uuid_is_true x y : uuid_is x y = true <-> exists a, x = Some a /\ y = Some a.
Proof.
  split.
  - destruct x as [a |], y as [b |]; try discriminate.
    rewrite uuid_is_Some. intros H. apply N.eqb_eq in H. subst. exists b. auto.
  - intros (a & -> & ->). rewrite uuid_is_Some. apply N.eqb_refl.
Qed.

Lemma references_true keys fk :
  references keys fk = true <-> exists a, fk = Some a /\ In (Some a) keys.
Proof.
  unfold references. rewrite existsb_exists. split.
  - intros (k & Hk & H). apply uuid_is_true in H. destruct H as (a & -> & ->).
    exists a. auto.
  - intros (a & -> & H). exists (Some a). split; [exact H |].
    apply uuid_is_true. exists a. auto.
Qed.

Lemma check_in (l : list string) (x : option string) :
  x <> None -> not_false (sql_in x l) = true -> one_of l x.
Proof.
  destruct x as [v |]; [intros _ | intros H; contradiction H; reflexivity].
  simpl. destruct (existsb (String.eqb v) l) eqn:E; [intros _ | discriminate].
  apply existsb_exists in E. destruct E as (w & Hw & E).
  apply String.eqb_eq in E. subst w. exists v. auto.
Qed.

Lemma check_in_or_null (l : list string) (x : option string) :
  not_false (sql_in x l) = true -> x = None \/ one_of l x.
Proof.
  destruct x as [v |]; [| left; reflexivity].
  intros H. right. apply check_in; [discriminate | exact H].
Qed.

(** ** Inserting category rows *)

Lemma client_categories_put_Ok e r s s' u :
  client_categories_put e r s = (s', Ok u) ->
  s' = set_client_categories (client_categories s ++ [r]) s
  /\ one_of categories (ClientCategory.category r)
  /\ existsb (same_client_category r) (client_categories s) = false.
Proof.
  unfold client_categories_put. intros H. run.
  split; [reflexivity |]. split; [| assumption].
  apply check_in; [| assumption].
  match goal with H : exists a, ClientCategory.category r = Some a |- _ =>
    destruct H as [a ->] end. discriminate.
Qed.

Lemma for_each_put_Ok e rows s s' us :
  for_each (client_categories_put e) rows s = (s', Ok us) ->
  s' = set_client_categories (client_categories s ++ rows) s.
Proof.
  revert s us. induction rows as [| r rows IH]; intros s us H; simpl in H.
  - run. rewrite app_nil_r. symmetry. apply set_client_categories_same.
  - run.
    match goal with H : client_categories_put _ _ _ = _ |- _ =>
      apply client_categories_put_Ok in H; destruct H as (-> & _) end.
    match goal with H : for_each _ _ _ = _ |- _ => apply IH in H; subst end.
    simpl. rewrite <- app_assoc. reflexivity.
Qed.

Lemma for_each_fkey_Ok rows s s' us :
  for_each client_categories_fkey rows s = (s', Ok us) ->
  s' = s /\ Forall (referenced_client s) rows.
Proof.
  revert s us. induction rows as [| r rows IH]; intros s us H; simpl in H.
  - run. split; [reflexivity | constructor].
  - run. unfold client_categories_fkey in *. run.
    match goal with H : for_each _ _ _ = _ |- _ => apply IH in H; destruct H as [-> ?] end.
    split; [reflexivity |]. constructor; assumption.
Qed.

Lemma insert_into_client_categories_Ok e first vs s s' out :
  insert_into_client_categories e first vs s = (s', Ok out) ->
  out = map (fun nv => client_categories_row e (fst nv) (snd nv))
            (combine (seq first (List.length vs)) vs)
  /\ s' = set_client_categories (client_categories s ++ out) s
  /\ Forall (referenced_client s) out.
Proof.
  unfold insert_into_client_categories. intros H. run.
  match goal with H : for_each (client_categories_put _) _ _ = _ |- _ =>
    apply for_each_put_Ok in H; subst end.
  match goal with H : for_each client_categories_fkey _ _ = _ |- _ =>
    apply for_each_fkey_Ok in H; destruct H as [-> HF] end.
  split; [reflexivity |]. split; [reflexivity |].
  destruct s; exact HF.
Qed.

Lemma references_app keys more fk :
  references keys fk = true -> references (keys ++ more) fk = true.
Proof.
  unfold references. rewrite existsb_app. intros ->. reflexivity.
Qed.

(** ** Inserting a client *)

Lemma clients_put_Ok e v s s' r :
  clients_put e v s = (s', Ok r) ->
  r = clients_row e v
  /\ s' = set_clients (clients s ++ [r]) s
  /\ existsb (fun c => uuid_is (Client.id c) (Client.id r)) (clients s) = false.
Proof.
  unfold clients_put, clients_constraints. intros H. run.
  repeat split; assumption.
Qed.

Lemma clients_fkey_state r s s' (x : result unit) : clients_fkey r s = (s', x) -> s' = s.
Proof.
  unfold clients_fkey, bind, get. intros H. apply guard_state in H. exact H.
Qed.

Lemma insert_into_clients_Ok e v s s' c :
  insert_into_clients e v s = (s', Ok c) ->
  c = clients_row e v
  /\ s' = set_client_categories
            (client_categories s
             ++ [ client_categories_row e 1 (default_category c "tasks");
                  client_categories_row e 2 (default_category c "gtm");
                  client_categories_row e 3 (default_category c "recurring") ])
            (set_clients (clients s ++ [c]) s)
  /\ existsb (fun x => uuid_is (Client.id x) (Client.id c)) (clients s) = false
  /\ Forall (referenced_client (set_clients (clients s ++ [c]) s))
            [ client_categories_row e 1 (default_category c "tasks");
              client_categories_row e 2 (default_category c "gtm");
              client_categories_row e 3 (default_category c "recurring") ].
Proof.
  unfold insert_into_clients, create_default_categories. intros H. run.
  match goal with H : clients_put _ _ _ = _ |- _ =>
    apply clients_put_Ok in H; destruct H as (Hr & -> & Hpk) end.
  match goal with H : clients_fkey _ _ = _ |- _ => apply clients_fkey_state in H; subst end.
  match goal with H : insert_into_client_categories _ _ _ _ = _ |- _ =>
    apply insert_into_client_categories_Ok in H; destruct H as (-> & -> & HF) end.
  simpl in *. repeat split; assumption.
Qed.

(** ** UPDATE *)

Lemma update_rows_Ok {R : Type} (target : R -> bool) (upd : R -> M R) t s s' tu :
  (forall r s1 s2 x, upd r s1 = (s2, x) -> s2 = s1) ->
  update_rows target upd t s = (s', Ok tu) ->
  s' = s
  /\ Forall2 (fun r r' => if target r then upd r s = (s, Ok r') else r' = r) t (fst tu).
Proof.
  intros Hupd. unfold update_rows. intros H. run. simpl.
  match goal with H : for_each _ _ _ = _ |- _ => rename H into HF end.
  match type of HF with for_each _ _ _ = (?s1, Ok ?l) => revert s1 l HF end.
  induction t as [| r t IH]; intros s1 rs HF; simpl in HF.
  - run. split; [reflexivity | constructor].
  - run. destruct (target r) eqn:Et.
    + run. match goal with H : upd _ _ = _ |- _ =>
        pose proof (Hupd _ _ _ _ H); subst; rename H into Hr end.
      match goal with H : for_each _ _ _ = _ |- _ =>
        apply IH in H; destruct H as [-> HT] end.
      split; [reflexivity |]. simpl. constructor; [rewrite Et; exact Hr | exact HT].
    + run. match goal with H : for_each _ _ _ = _ |- _ =>
        apply IH in H; destruct H as [-> HT] end.
      split; [reflexivity |]. simpl. constructor; [rewrite Et; reflexivity | exact HT].
Qed.

Lemma update_rows_none {R : Type} (target : R -> bool) (upd : R -> M R) t s :
  (forall r, In r t -> target r = false) ->
  update_rows target upd t s = (s, Ok (t, [])).
Proof.
  intros H. unfold update_rows.
  assert (HF : for_each (fun r => if target r
                                  then r' <- upd r ;; ret (r', [r'])
                                  else ret (r, [])) t s
               = (s, Ok (map (fun r => (r, [])) t))).
  { induction t as [| r t IH]; simpl; [reflexivity |].
    rewrite (H r (or_introl eq_refl)).
    unfold bind at 1. unfold ret at 1.
    rewrite (bind_Ok_run _ _ _ _ _ (IH (fun x Hx => H x (or_intror Hx)))).
    reflexivity. }
  rewrite (bind_Ok_run _ _ _ _ _ HF). unfold ret. f_equal. f_equal. f_equal.
  - rewrite map_map. simpl. apply map_id.
  - rewrite map_map. simpl. clear. induction t; simpl; [reflexivity | assumption].
Qed.

Lemma update_clients_row_state e set r s1 s2 (x : result Client.row) :
  update_clients_row e set r s1 = (s2, x) -> s2 = s1.
Proof.
  unfold update_clients_row, clients_constraints, not_null, bind, guard, ret, raise.
  intros H.
  repeat match type of H with
         | context [if ?b then _ else _] => destruct b
         end; inversion H; reflexivity.
Qed.

Lemma update_tasks_row_state e set r s1 s2 (x : result Task.row) :
  update_tasks_row e set r s1 = (s2, x) -> s2 = s1.
Proof.
  unfold update_tasks_row, tasks_constraints, not_null, bind, guard, ret, raise.
  intros H.
  repeat match type of H with
         | context [if ?b then _ else _] => destruct b
         end; inversion H; reflexivity.
Qed.

Lemma for_each_state {A B : Type} (f : A -> M B) l s s' bs :
  (forall a s1 s2 x, f a s1 = (s2, x) -> s2 = s1) ->
  for_each f l s = (s', Ok bs) -> s' = s.
Proof.
  intros Hf. revert s bs. induction l as [| a l IH]; intros s bs H; simpl in H.
  - run. reflexivity.
  - run. match goal with H : f _ _ = _ |- _ => apply Hf in H; subst end.
    match goal with H : for_each _ _ _ = _ |- _ => apply IH in H; subst end.
    reflexivity.
Qed.

Lemma tasks_fkey_state r s s' (x : result unit) : tasks_fkey r s = (s', x) -> s' = s.
Proof.
  unfold tasks_fkey, bind, get, guard, ret, raise. intros H.
  repeat match type of H with
         | context [if ?b then _ else _] => destruct b
         end; inversion H; reflexivity.
Qed.

Lemma update_clients_Ok e where_ set s s' out :
  update_clients e where_ set s = (s', Ok out) ->
  exists t', s' = set_clients t' s
             /\ map Client.id t' = map Client.id (clients s).
Proof.
  unfold update_clients. intros H. run.
  match goal with H : update_rows _ _ _ _ = _ |- _ =>
    apply update_rows_Ok in H; [destruct H as [-> HT] | apply update_clients_row_state] end.
  match goal with H : for_each _ _ _ = _ |- _ =>
    apply for_each_state in H; [subst | apply clients_fkey_state] end.
  eexists. split; [reflexivity |].
  induction HT as [| r r' t t' Hr HT IH]; simpl; [reflexivity |].
  f_equal; [| exact IH].
  destruct (clients_target e where_ r); [| subst; reflexivity].
  unfold update_clients_row in Hr. run. reflexivity.
Qed.

(** ** The constraints of tasks *)

Lemma tasks_constraints_Ok r s s' u :
  tasks_constraints r s = (s', Ok u) -> task_checks r /\ s' = s.
Proof.
  unfold tasks_constraints. intros H. run.
  split; [| reflexivity]. unfold task_checks.
  repeat match goal with H : exists a, _ = Some a |- _ => destruct H as [? ?] end.
  repeat split.
  - apply check_in; [congruence | assumption].
  - apply check_in; [congruence | assumption].
  - apply check_in_or_null. assumption.
Qed.

Lemma insert_into_tasks_Ok e v s s' r :
  insert_into_tasks e v s = (s', Ok r) ->
  r = tasks_row e v /\ task_checks r /\ s' = set_tasks (tasks s ++ [r]) s.
Proof.
  unfold insert_into_tasks. intros H. run.
  match goal with H : tasks_constraints _ _ = _ |- _ =>
    apply tasks_constraints_Ok in H; destruct H as [Hc ->] end.
  run.
  match goal with H : tasks_fkey _ _ = _ |- _ => apply tasks_fkey_state in H; subst end.
  split; [reflexivity | split; [exact Hc | reflexivity]].
Qed.

Lemma update_tasks_Ok e where_ set s s' out :
  update_tasks e where_ set s = (s', Ok out) ->
  exists t', s' = set_tasks t' s
             /\ Forall2 (fun r r' => r' = r \/ task_checks r') (tasks s) t'.
Proof.
  unfold update_tasks. intros H. run.
  match goal with H : update_rows _ _ _ _ = _ |- _ =>
    apply update_rows_Ok in H; [destruct H as [-> HT] | apply update_tasks_row_state] end.
  match goal with H : for_each _ _ _ = _ |- _ =>
    apply for_each_state in H; [subst | apply tasks_fkey_state] end.
  eexists. split; [reflexivity |].
  induction HT as [| r r' t t' Hr HT IH]; constructor; [| exact IH].
  destruct (tasks_target e where_ r); [right | left; exact Hr].
  unfold update_tasks_row in Hr. run.
  match goal with H : tasks_constraints _ _ = _ |- _ =>
    apply tasks_constraints_Ok in H; destruct H as [Hc _] end.
  exact Hc.
Qed.

(** ** DELETE and its cascades, as equations *)

Lemma delete_tasks_run e where_ s :
  delete_tasks e where_ s =
  (set_task_comments
     (filter (fun m => negb (references
                               (map Task.id (filter (tasks_target e where_) (tasks s)))
                               (TaskComment.task_id m)))
             (task_comments s))
     (set_task_attachments
        (filter (fun a => negb (references
                                  (map Task.id (filter (tasks_target e where_) (tasks s)))
                                  (TaskAttachment.task_id a)))
                (task_attachments s))
        (set_tasks (filter (fun t => negb (tasks_target e where_ t)) (tasks s)) s)),
   Ok (filter (tasks_target e where_) (tasks s))).
Proof. reflexivity. Qed.

Lemma delete_clients_run e where_ s :
  let gone := filter (clients_target e where_) (clients s) in
  let gone_tasks := filter (fun t => references (map Client.id gone) (Task.client_id t))
                           (tasks s) in
  delete_clients e where_ s =
  (set_task_comments
     (filter (fun m => negb (references (map Task.id gone_tasks) (TaskComment.task_id m)))
             (task_comments s))
     (set_task_attachments
        (filter (fun a => negb (references (map Task.id gone_tasks)
                                           (TaskAttachment.task_id a)))
                (task_attachments s))
        (set_client_categories
           (filter (fun k => negb (references (map Client.id gone)
                                              (ClientCategory.client_id k)))
                   (client_categories s))
           (set_tasks
              (filter (fun t => negb (references (map Client.id gone) (Task.client_id t)))
                      (tasks s))
              (set_clients (filter (fun c => negb (clients_target e where_ c)) (clients s))
                           s)))),
   Ok gone).
Proof. reflexivity. Qed.

(** ** The constraints hold in every reachable store *)

Lemma consistent_frame s s' :
  clients s' = clients s ->
  client_categories s' = client_categories s ->
  tasks s' = tasks s ->
  consistent s -> consistent s'.
Proof.
  unfold consistent, referenced_client. intros -> -> ->. tauto.
Qed.

Lemma Forall_filter {R : Type} (P : R -> Prop) (f : R -> bool) (l : list R) :
  Forall P l -> Forall P (filter f l).
Proof.
  rewrite !Forall_forall. intros H x Hx. apply filter_In in Hx. apply H, Hx.
Qed.

Lemma consistent_insert_client e v s :
  consistent s -> consistent (fst (insert_client e v s)).
Proof.
  intros [H1 H2]. unfold insert_client.
  destruct (statement_fst (insert_into_clients e v) s) as [-> | [c Hc]]; [split; assumption |].
  apply insert_into_clients_Ok in Hc. destruct Hc as (_ & -> & _ & HF).
  split; simpl; [| exact H2].
  apply Forall_app. split; [| exact HF].
  revert H1. apply Forall_impl. intros k. unfold referenced_client. simpl.
  rewrite map_app. apply references_app.
Qed.

Lemma consistent_update_clients e where_ set s :
  consistent s -> consistent (fst (update_clients e where_ set s)).
Proof.
  intros [H1 H2].
  destruct (update_clients e where_ set s) as [s' [out | err]] eqn:E; simpl.
  - apply update_clients_Ok in E. destruct E as (t' & -> & Hid).
    split; simpl; [| exact H2].
    revert H1. apply Forall_impl. intros k. unfold referenced_client. simpl.
    rewrite Hid. tauto.
  - unfold update_clients in E. apply statement_Err in E. subst. split; assumption.
Qed.

Lemma consistent_delete_clients e where_ s :
  consistent s -> consistent (fst (delete_clients e where_ s)).
Proof.
  intros [H1 H2]. rewrite delete_clients_run. simpl. split; simpl.
  - rewrite Forall_forall in *. intros k Hk. apply filter_In in Hk.
    destruct Hk as [Hk Hn]. apply negb_true_iff in Hn.
    specialize (H1 k Hk). unfold referenced_client in *. simpl.
    apply references_true in H1. destruct H1 as (a & Ha & Hin).
    apply references_true. exists a. split; [exact Ha |].
    apply in_map_iff in Hin. destruct Hin as (c & Hc & Hin).
    apply in_map_iff. exists c. split; [exact Hc |].
    apply filter_In. split; [exact Hin |].
    destruct (clients_target e where_ c) eqn:Et; [| reflexivity].
    exfalso. assert (Hr : references
      (map Client.id (filter (clients_target e where_) (clients s)))
      (ClientCategory.client_id k) = true).
    { apply references_true. exists a. split; [exact Ha |].
      apply in_map_iff. exists c. split; [exact Hc |].
      apply filter_In. split; assumption. }
    congruence.
  - apply Forall_filter. exact H2.
Qed.

Lemma consistent_insert_client_categories e vs s :
  consistent s -> consistent (fst (insert_client_categories e vs s)).
Proof.
  intros [H1 H2]. unfold insert_client_categories.
  destruct (statement_fst (insert_into_client_categories e 0 vs) s) as [-> | [c Hc]];
    [split; assumption |].
  apply insert_into_client_categories_Ok in Hc. destruct Hc as (_ & -> & HF).
  split; simpl; [| exact H2].
  apply Forall_app. split; [exact H1 | exact HF].
Qed.

Lemma consistent_insert_task e v s :
  consistent s -> consistent (fst (insert_task e v s)).
Proof.
  intros [H1 H2]. unfold insert_task.
  destruct (statement_fst (insert_into_tasks e v) s) as [-> | [c Hc]]; [split; assumption |].
  apply insert_into_tasks_Ok in Hc. destruct Hc as (_ & Hc & ->).
  split; simpl; [exact H1 |].
  apply Forall_app. split; [exact H2 | constructor; [exact Hc | constructor]].
Qed.

Lemma consistent_update_tasks e where_ set s :
  consistent s -> consistent (fst (update_tasks e where_ set s)).
Proof.
  intros [H1 H2].
  destruct (update_tasks e where_ set s) as [s' [out | err]] eqn:E; simpl.
  - apply update_tasks_Ok in E. destruct E as (t' & -> & HT).
    split; simpl; [exact H1 |].
    induction HT as [| r r' t t' Hr HT IH]; constructor.
    + inversion H2; subst. destruct Hr as [-> | Hr]; assumption.
    + apply IH. inversion H2; assumption.
  - unfold update_tasks in E. apply statement_Err in E. subst. split; assumption.
Qed.

Lemma consistent_delete_tasks e where_ s :
  consistent s -> consistent (fst (delete_tasks e where_ s)).
Proof.
  intros [H1 H2]. rewrite delete_tasks_run. simpl. split; simpl.
  - exact H1.
  - apply Forall_filter. exact H2.
Qed.

Lemma step_consistent s s' : step s s' -> consistent s -> consistent s'.
Proof.
  intros Hstep Hs. destruct Hstep.
  - revert Hs. apply consistent_frame; reflexivity.
  - apply consistent_insert_client, Hs.
  - apply consistent_update_clients, Hs.
  - apply consistent_delete_clients, Hs.
  - apply consistent_insert_client_categories, Hs.
  - apply consistent_insert_task, Hs.
  - apply consistent_update_tasks, Hs.
  - apply consistent_delete_tasks, Hs.
  - destruct (insert_task_comment e v s) as [s' [out | err]] eqn:E; simpl.
    + unfold insert_task_comment in E. run.
      revert Hs. apply consistent_frame; reflexivity.
    + apply statement_Err in E. subst. exact Hs.
  - destruct (delete_task_comments e reads where_ s) as [s' [out | err]] eqn:E; simpl.
    + unfold delete_task_comments in E. run.
      revert Hs. apply consistent_frame; reflexivity.
    + apply statement_Err in E. subst. exact Hs.
  - destruct (insert_task_attachment e v s) as [s' [out | err]] eqn:E; simpl.
    + unfold insert_task_attachment in E. run.
      revert Hs. apply consistent_frame; reflexivity.
    + apply statement_Err in E. subst. exact Hs.
  - destruct (delete_task_attachments e reads where_ s) as [s' [out | err]] eqn:E; simpl.
    + unfold delete_task_attachments in E. run.
      revert Hs. apply consistent_frame; reflexivity.
    + apply statement_Err in E. subst. exact Hs.
  - revert Hs. apply consistent_frame; reflexivity.
Qed.

Lemma reachable_consistent s : reachable s -> consistent s.
Proof.
  induction 1 as [| s s' _ IH Hstep].
  - split; constructor.
  - exact (step_consistent s s' Hstep IH).
Qed.

(** ** The small world is reachable *)

Lemma reachable_signed_up : reachable Scenario.signed_up.
Proof.
  unfold Scenario.signed_up.
  apply reachable_step with (s := set_auth_users [Scenario.alice] (empty_store [])).
  - apply reachable_step with (s := empty_store []).
    + apply reachable_empty.
    + exact (step_sign_up Scenario.alice (empty_store [])).
  - apply step_sign_up.
Qed.

Lemma reachable_with_acme : reachable Scenario.with_acme.
Proof.
  unfold Scenario.with_acme.
  apply reachable_step with (s := Scenario.signed_up).
  - apply reachable_signed_up.
  - apply step_insert_client.
Qed.

Lemma reachable_with_task : reachable Scenario.with_task.
Proof.
  unfold Scenario.with_task.
  apply reachable_step with (s := Scenario.with_acme).
  - apply reachable_with_acme.
  - apply step_insert_task.
Qed.

(** ** C1: the insert policy of tasks *)

(** The WITH CHECK of "Users can create tasks" reads user_id alone: the row
    passes whatever its client_id is. *)
Lemma tasks_policy_ignores_client uid (r : Task.row) (client_id : option uuid) :
  tasks_policy uid
    {| Task.id := Task.id r; Task.user_id := Task.user_id r; Task.client_id := client_id;
       Task.category := Task.category r; Task.name := Task.name r;
       Task.description := Task.description r; Task.assignee := Task.assignee r;
       Task.status := Task.status r; Task.created_at := Task.created_at r;
       Task.updated_at := Task.updated_at r; Task.due_date := Task.due_date r;
       Task.start_date := Task.start_date r; Task.priority := Task.priority r;
       Task.tags := Task.tags r |}
  = tasks_policy uid r.
Proof. reflexivity. Qed.

(** C1, as the code has it: in a reachable store where the client Acme
    belongs to alice, bob inserts a task whose user_id is his own and whose
    client_id is Acme.  The policy of clients does not hold of Acme for bob,
    and the insert is accepted: the task is stored. *)
Theorem C1_task_on_foreign_client_is_accepted :
  reachable Scenario.with_acme
  /\ In Scenario.acme (clients Scenario.with_acme)
  /\ clients_policy (Some Scenario.bob) Scenario.acme = false
  /\ insert_task Scenario.as_bob
       (Scenario.new_task Scenario.bob (V 1000%N) (V "Pending") DEFAULT)
       Scenario.with_acme
     = (set_tasks (tasks Scenario.with_acme ++ [Scenario.bobs_task]) Scenario.with_acme,
        Ok Scenario.bobs_task).
Proof.
  split; [apply reachable_with_acme |].
  split; [left; reflexivity |].
  split; reflexivity.
Qed.

(** ** C2: rows of other identities *)

Lemma delete_tasks_none e where_ s :
  (forall t, In t (tasks s) -> tasks_target e where_ t = false) ->
  delete_tasks e where_ s = (s, Ok []).
Proof.
  intros H. rewrite delete_tasks_run.
  rewrite (filter_none _ _ H). simpl.
  rewrite !filter_all by (intros x Hx; try rewrite (H x Hx); reflexivity).
  destruct s; reflexivity.
Qed.

Lemma delete_clients_none e where_ s :
  (forall c, In c (clients s) -> clients_target e where_ c = false) ->
  delete_clients e where_ s = (s, Ok []).
Proof.
  intros H. rewrite delete_clients_run. cbv zeta.
  rewrite (filter_none _ _ H). simpl.
  rewrite !(filter_none (fun _ : Task.row => false)) by reflexivity. simpl.
  rewrite !filter_all by (intros x Hx; try rewrite (H x Hx); reflexivity).
  destruct s; reflexivity.
Qed.

Lemma update_tasks_none e where_ set s :
  (forall t, In t (tasks s) -> tasks_target e where_ t = false) ->
  update_tasks e where_ set s = (s, Ok []).
Proof.
  intros H. unfold update_tasks, statement.
  unfold bind at 1. unfold get at 1.
  rewrite (bind_Ok_run _ _ _ _ _ (update_rows_none _ (update_tasks_row e set) _ s H)).
  simpl. unfold bind, modify, ret. simpl. rewrite set_tasks_same. reflexivity.
Qed.

Lemma update_clients_none e where_ set s :
  (forall c, In c (clients s) -> clients_target e where_ c = false) ->
  update_clients e where_ set s = (s, Ok []).
Proof.
  intros H. unfold update_clients, statement.
  unfold bind at 1. unfold get at 1.
  rewrite (bind_Ok_run _ _ _ _ _ (update_rows_none _ (update_clients_row e set) _ s H)).
  simpl. unfold bind, modify, ret. simpl. rewrite set_clients_same. reflexivity.
Qed.

(** C2, as stated, fails: bob reads, updates and deletes by id the task of
    alice.  The ownership predicate is false of that row for bob; each
    statement ends without an error, with no row and the store as it was,
    which is also what the same statements give for an id that no row
    has. *)
Lemma C2_row_of_another_is_not_denied :
  In Scenario.alices_task (tasks Scenario.with_task)
  /\ tasks_policy (Some Scenario.bob) Scenario.alices_task = false
  /\ select_tasks Scenario.as_bob (task_id_is 1000%N) Scenario.with_task
     = (Scenario.with_task, Ok [])
  /\ update_tasks Scenario.as_bob (task_id_is 1000%N) (fun t => t) Scenario.with_task
     = (Scenario.with_task, Ok [])
  /\ delete_tasks Scenario.as_bob (task_id_is 1000%N) Scenario.with_task
     = (Scenario.with_task, Ok [])
  /\ (forall err, snd (delete_tasks Scenario.as_bob (task_id_is 1000%N) Scenario.with_task)
                  <> Err err)
  /\ select_tasks Scenario.as_bob (task_id_is 4242%N) Scenario.with_task
     = (Scenario.with_task, Ok [])
  /\ delete_tasks Scenario.as_bob (task_id_is 4242%N) Scenario.with_task
     = (Scenario.with_task, Ok []).
Proof.
  split; [left; reflexivity |].
  repeat split; try reflexivity.
  intros err. discriminate.
Qed.

(** C2, amended: when every row of clients (of tasks) that the WHERE clause
    of a caller's statement selects fails the ownership predicate for that
    caller, the SELECT, the UPDATE and the DELETE return no row, raise no
    error and leave the store as it was: the rows are filtered, and the
    outcome is the one of a statement that matches no row. *)
Theorem C2_rows_of_others_are_filtered
    (e : env) (u : uuid) (s : store)
    (where_client : Client.row -> bool) (set_client : Client.row -> Client.row)
    (where_task : Task.row -> bool) (set_task : Task.row -> Task.row) :
  caller e = authenticated u ->
  (forall c, In c (clients s) -> where_client c = true ->
             clients_policy (Some u) c = false) ->
  (forall t, In t (tasks s) -> where_task t = true ->
             tasks_policy (Some u) t = false) ->
  select_clients e where_client s = (s, Ok [])
  /\ update_clients e where_client set_client s = (s, Ok [])
  /\ delete_clients e where_client s = (s, Ok [])
  /\ select_tasks e where_task s = (s, Ok [])
  /\ update_tasks e where_task set_task s = (s, Ok [])
  /\ delete_tasks e where_task s = (s, Ok []).
Proof.
  intros He Hc Ht.
  assert (Hc' : forall c, In c (clients s) -> clients_target e where_client c = false).
  { intros c Hin. unfold clients_target. rewrite He. simpl.
    destruct (where_client c) eqn:Ew; [| reflexivity].
    rewrite (Hc c Hin Ew). reflexivity. }
  assert (Ht' : forall t, In t (tasks s) -> tasks_target e where_task t = false).
  { intros t Hin. unfold tasks_target. rewrite He. simpl.
    destruct (where_task t) eqn:Ew; [| reflexivity].
    rewrite (Ht t Hin Ew). reflexivity. }
  repeat split.
  - unfold select_clients, bind, get, ret. rewrite (filter_none _ _ Hc'). reflexivity.
  - apply update_clients_none, Hc'.
  - apply delete_clients_none, Hc'.
  - unfold select_tasks, bind, get, ret. rewrite (filter_none _ _ Ht'). reflexivity.
  - apply update_tasks_none, Ht'.
  - apply delete_tasks_none, Ht'.
Qed.

Lemma C2_rows_of_others_are_filtered_witness :
  select_tasks Scenario.as_bob (task_id_is 1000%N) Scenario.with_task
  = (Scenario.with_task, Ok [])
  /\ delete_clients Scenario.as_bob (client_id_is 1000%N) Scenario.with_task
     = (Scenario.with_task, Ok []).
Proof.
  pose proof (C2_rows_of_others_are_filtered
                Scenario.as_bob Scenario.bob Scenario.with_task
                (client_id_is 1000%N) (fun c => c)
                (task_id_is 1000%N) (fun t => t)) as H.
  destruct H as (_ & _ & Hd & Hs & _).
  - reflexivity.
  - intros c Hc Hw. vm_compute in Hc.
    destruct Hc as [<- | []]. reflexivity.
  - intros t Ht Hw. vm_compute in Ht.
    destruct Ht as [<- | []]. reflexivity.
  - split; [exact Hs | exact Hd].
Defined.

(** ** C3: the categories of a new client *)

Lemma existsb_none {R : Type} (f : R -> bool) (l : list R) :
  existsb f l = false <-> (forall x, In x l -> f x = false).
Proof.
  induction l as [| y l IH]; simpl.
  - split; [intros _ x [] | reflexivity].
  - rewrite orb_false_iff, IH. split.
    + intros [Hy Hl] x [<- | Hx]; [exact Hy | apply Hl, Hx].
    + intros H. split; [apply H; left; reflexivity | intros x Hx; apply H; right; exact Hx].
Qed.

Lemma default_of_column {A : Type} (d o : option A) : default d (of_column o) = o.
Proof. destruct o; reflexivity. Qed.

Lemma default_row_client_id e n c tag :
  ClientCategory.client_id (client_categories_row e n (default_category c tag)) = Client.id c.
Proof. simpl. apply default_of_column. Qed.

(** No category row refers to an identifier that no client has. *)
Lemma no_categories_of_unknown s c :
  consistent s ->
  existsb (fun x => uuid_is (Client.id x) (Client.id c)) (clients s) = false ->
  categories_of s c = [].
Proof.
  intros [H1 _] Hpk. unfold categories_of. apply filter_none. intros k Hk.
  destruct (uuid_is (ClientCategory.client_id k) (Client.id c)) eqn:E; [| reflexivity].
  exfalso. rewrite Forall_forall in H1. specialize (H1 k Hk).
  unfold referenced_client in H1. apply references_true in H1.
  destruct H1 as (a & Ha & Hin). apply in_map_iff in Hin. destruct Hin as (x & Hx & Hin).
  apply uuid_is_true in E. destruct E as (b & Hb & Hc).
  assert (Ht : existsb (fun x => uuid_is (Client.id x) (Client.id c)) (clients s) = true).
  { apply existsb_exists. exists x. split; [exact Hin |].
    apply uuid_is_true. exists a. split; congruence. }
  congruence.
Qed.

Lemma uuid_is_sym x y : uuid_is x y = uuid_is y x.
Proof.
  destruct x as [a |], y as [b |]; try reflexivity.
  rewrite !uuid_is_Some. apply N.eqb_sym.
Qed.

Lemma insert_client_Ok e v s s' c :
  consistent s ->
  insert_client e v s = (s', Ok c) ->
  In c (clients s')
  /\ client_categories s' = client_categories s ++ categories_of s' c
  /\ categories_of s' c =
       [ client_categories_row e 1 (default_category c "tasks");
         client_categories_row e 2 (default_category c "gtm");
         client_categories_row e 3 (default_category c "recurring") ]
  /\ (forall c', In c' (clients s) -> categories_of s' c' = categories_of s c').
Proof.
  intros Hs H. unfold insert_client in H. apply statement_Ok in H.
  apply insert_into_clients_Ok in H. destruct H as (_ & -> & Hpk & HF).
  assert (Hid : exists i, Client.id c = Some i).
  { inversion HF as [| k l Hk _]; subst. unfold referenced_client in Hk.
    apply references_true in Hk. destruct Hk as (a & Ha & _).
    rewrite default_row_client_id in Ha. exists a. exact Ha. }
  destruct Hid as [i Hi].
  assert (Hnew : categories_of
            (set_client_categories
               (client_categories s
                ++ [ client_categories_row e 1 (default_category c "tasks");
                     client_categories_row e 2 (default_category c "gtm");
                     client_categories_row e 3 (default_category c "recurring") ])
               (set_clients (clients s ++ [c]) s)) c
          = [ client_categories_row e 1 (default_category c "tasks");
              client_categories_row e 2 (default_category c "gtm");
              client_categories_row e 3 (default_category c "recurring") ]).
  { unfold categories_of. simpl client_categories. rewrite filter_app.
    fold (categories_of s c). rewrite (no_categories_of_unknown s c Hs Hpk).
    simpl. rewrite !default_of_column, Hi, uuid_is_Some, N.eqb_refl. reflexivity. }
  split; [simpl; apply in_or_app; right; left; reflexivity |].
  split; [rewrite Hnew; reflexivity |].
  split; [exact Hnew |].
  intros c' Hc'. unfold categories_of. simpl client_categories. rewrite filter_app.
  assert (Hne : uuid_is (Client.id c) (Client.id c') = false).
  { rewrite uuid_is_sym. rewrite existsb_none in Hpk. apply Hpk, Hc'. }
  simpl. rewrite !default_of_column, Hne. apply app_nil_r.
Qed.

Lemma check_inside (l : list string) (tag : string) :
  In tag l -> not_false (sql_in (Some tag) l) = true.
Proof.
  intros H. simpl.
  assert (E : existsb (String.eqb tag) l = true).
  { apply existsb_exists. exists tag. split; [exact H | apply String.eqb_refl]. }
  rewrite E. reflexivity.
Qed.

Lemma for_each_cons_run {A B : Type} (f : A -> M B) a l s s1 b s2 bs :
  f a s = (s1, Ok b) ->
  for_each f l s1 = (s2, Ok bs) ->
  for_each f (a :: l) s = (s2, Ok (b :: bs)).
Proof.
  intros Ha Hl. simpl. rewrite (bind_Ok_run _ _ _ _ _ Ha), (bind_Ok_run _ _ _ _ _ Hl).
  reflexivity.
Qed.

Lemma client_categories_put_run e k s i c tag :
  rls (caller e) (client_categories_policy e s k) = true ->
  ClientCategory.id k = Some i ->
  ClientCategory.client_id k = Some c ->
  ClientCategory.category k = Some tag ->
  In tag categories ->
  existsb (fun x => uuid_is (ClientCategory.id x) (Some i)) (client_categories s) = false ->
  existsb (same_client_category k) (client_categories s) = false ->
  client_categories_put e k s
  = (set_client_categories (client_categories s ++ [k]) s, Ok tt).
Proof.
  intros Hp Hi Hc Ht Hin Hpk Hu.
  unfold client_categories_put, unless_exists, not_null, bind, get.
  rewrite Hp, Hi, Hc, Ht, (check_inside _ _ Hin), Hpk, Hu. reflexivity.
Qed.

(** The policy of client_categories holds of a row for a client of the
    caller. *)
Lemma client_categories_policy_own e u s k c i :
  caller e = authenticated u ->
  In c (clients s) ->
  Client.id c = Some i ->
  Client.user_id c = Some u ->
  ClientCategory.client_id k = Some i ->
  rls (caller e) (client_categories_policy e s k) = true.
Proof.
  intros He Hin Hi Hu Hk. rewrite He. simpl.
  unfold client_categories_policy, visible_clients. rewrite He. simpl.
  apply existsb_exists. exists c. split.
  - apply filter_In. split; [exact Hin |].
    unfold clients_policy. rewrite Hu. simpl. rewrite N.eqb_refl. reflexivity.
  - rewrite Hi, Hk, Hu, uuid_is_Some, N.eqb_refl. simpl. rewrite N.eqb_refl. reflexivity.
Qed.

Lemma insert_client_succeeds e v s u name :
  consistent s ->
  caller e = authenticated u ->
  In u (auth_users s) ->
  Client.v_user_id v = V u ->
  Client.v_name v = V name ->
  fresh_client_id e v s = true ->
  fresh_category_ids e s = true ->
  exists s', insert_client e v s = (s', Ok (clients_row e v))
             /\ Client.name (clients_row e v) = Some name.
Proof.
  intros Hs He Hu Hvu Hvn Hfc Hfk.
  assert (Hru : Client.user_id (clients_row e v) = Some u)
    by (simpl; rewrite Hvu; reflexivity).
  assert (Hrn : Client.name (clients_row e v) = Some name)
    by (simpl; rewrite Hvn; reflexivity).
  unfold fresh_client_id in Hfc.
  remember (clients_row e v) as r eqn:Er.
  apply andb_true_iff in Hfc. destruct Hfc as [Hnn Hpk].
  apply negb_true_iff in Hpk.
  destruct (Client.id r) as [i |] eqn:Hri; [clear Hnn | discriminate Hnn].
  unfold fresh_category_ids, fresh_category_id in Hfk.
  repeat (apply andb_true_iff in Hfk; destruct Hfk as [Hfk ?]).
  repeat match goal with H : negb _ = true |- _ => apply negb_true_iff in H end.
  set (s1 := set_clients (clients s ++ [r]) s).
  assert (Hput : clients_put e v s = (s1, Ok r)).
  { unfold clients_put, clients_constraints, unless_exists, not_null, bind, get.
    rewrite <- Er. rewrite He. unfold clients_policy. rewrite Hru, Hri, Hrn. simpl.
    rewrite N.eqb_refl. simpl. rewrite Hpk. reflexivity. }
  assert (Hfk1 : clients_fkey r s1 = (s1, Ok tt)).
  { unfold clients_fkey, bind, get. rewrite Hru. simpl auth_users.
    assert (E : existsb (fun u0 => uuid_is (Some u0) (Some u)) (auth_users s) = true).
    { apply existsb_exists. exists u. split; [exact Hu |].
      rewrite uuid_is_Some. apply N.eqb_refl. }
    rewrite E. reflexivity. }
  assert (Hnone : forall k, In k (client_categories s) ->
            uuid_is (ClientCategory.client_id k) (Some i) = false).
  { pose proof (no_categories_of_unknown s r Hs) as Hn. rewrite Hri in Hn.
    specialize (Hn Hpk). unfold categories_of in Hn. rewrite Hri in Hn.
    intros k Hk.
    destruct (uuid_is (ClientCategory.client_id k) (Some i)) eqn:E; [| reflexivity].
    assert (Hf : In k (filter (fun k => uuid_is (ClientCategory.client_id k) (Some i))
                              (client_categories s))).
    { apply filter_In. split; assumption. }
    rewrite Hn in Hf. destruct Hf. }
  assert (Hold : forall tag n,
            existsb (same_client_category
                       (client_categories_row e n (default_category r tag)))
                    (client_categories s) = false).
  { intros tag n. rewrite existsb_none. intros k Hk. unfold same_client_category.
    rewrite default_row_client_id, Hri, (Hnone k Hk). reflexivity. }
  set (k1 := client_categories_row e 1 (default_category r "tasks")).
  set (k2 := client_categories_row e 2 (default_category r "gtm")).
  set (k3 := client_categories_row e 3 (default_category r "recurring")).
  pose proof (Hold "tasks" 1) as Hold1. fold k1 in Hold1.
  pose proof (Hold "gtm" 2) as Hold2. fold k2 in Hold2.
  pose proof (Hold "recurring" 3) as Hold3. fold k3 in Hold3.
  set (s2 := set_client_categories (client_categories s1 ++ [k1]) s1).
  set (s3 := set_client_categories (client_categories s2 ++ [k2]) s2).
  set (s4 := set_client_categories (client_categories s3 ++ [k3]) s3).
  assert (Hin : forall s', clients s' = clients s ++ [r] -> In r (clients s')).
  { intros s' ->. apply in_or_app. right. left. reflexivity. }
  assert (Hk1 : client_categories_put e k1 s1 = (s2, Ok tt)).
  { apply client_categories_put_run
      with (i := gen_random_uuid e 1) (c := i) (tag := "tasks").
    - apply client_categories_policy_own with (u := u) (c := r) (i := i); auto.
      unfold k1. rewrite default_row_client_id. exact Hri.
    - reflexivity.
    - unfold k1. rewrite default_row_client_id. exact Hri.
    - reflexivity.
    - left. reflexivity.
    - assumption.
    - exact Hold1. }
  assert (Hk2 : client_categories_put e k2 s2 = (s3, Ok tt)).
  { apply client_categories_put_run
      with (i := gen_random_uuid e 2) (c := i) (tag := "gtm").
    - apply client_categories_policy_own with (u := u) (c := r) (i := i); auto.
      unfold k2. rewrite default_row_client_id. exact Hri.
    - reflexivity.
    - unfold k2. rewrite default_row_client_id. exact Hri.
    - reflexivity.
    - right. left. reflexivity.
    - simpl client_categories. rewrite existsb_app. simpl.
      rewrite uuid_is_Some, orb_false_r. apply orb_false_iff. split; assumption.
    - simpl client_categories. rewrite existsb_app. rewrite Hold2. simpl.
      unfold same_client_category. simpl. rewrite andb_false_r. reflexivity. }
  assert (Hk3 : client_categories_put e k3 s3 = (s4, Ok tt)).
  { apply client_categories_put_run
      with (i := gen_random_uuid e 3) (c := i) (tag := "recurring").
    - apply client_categories_policy_own with (u := u) (c := r) (i := i); auto.
      unfold k3. rewrite default_row_client_id. exact Hri.
    - reflexivity.
    - unfold k3. rewrite default_row_client_id. exact Hri.
    - reflexivity.
    - right. right. left. reflexivity.
    - simpl client_categories. rewrite !existsb_app. simpl.
      rewrite !uuid_is_Some, !orb_false_r.
      repeat (apply orb_false_iff; split); assumption.
    - simpl client_categories. rewrite !existsb_app. rewrite Hold3. simpl.
      unfold same_client_category. simpl. rewrite !andb_false_r. reflexivity. }
  assert (Hrefs : forall k, ClientCategory.client_id k = Some i ->
            client_categories_fkey k s4 = (s4, Ok tt)).
  { intros k Hk. unfold client_categories_fkey, bind, get. rewrite Hk.
    assert (E : references (map Client.id (clients s4)) (Some i) = true).
    { apply references_true. exists i. split; [reflexivity |].
      rewrite <- Hri. apply in_map. apply Hin. reflexivity. }
    rewrite E. reflexivity. }
  assert (Hputs : for_each (client_categories_put e) [k1; k2; k3] s1
                  = (s4, Ok [tt; tt; tt])).
  { apply for_each_cons_run with (s1 := s2); [exact Hk1 |].
    apply for_each_cons_run with (s1 := s3); [exact Hk2 |].
    apply for_each_cons_run with (s1 := s4); [exact Hk3 | reflexivity]. }
  assert (Hfks : for_each client_categories_fkey [k1; k2; k3] s4
                 = (s4, Ok [tt; tt; tt])).
  { repeat (apply for_each_cons_run with (s1 := s4);
            [apply Hrefs; unfold k1, k2, k3; rewrite default_row_client_id; exact Hri |]).
    reflexivity. }
  assert (Hins : insert_into_client_categories e 1
                   [default_category r "tasks"; default_category r "gtm";
                    default_category r "recurring"] s1
                 = (s4, Ok [k1; k2; k3])).
  { unfold insert_into_client_categories.
    change (map (fun nv => client_categories_row e (fst nv) (snd nv))
                (combine (seq 1 (List.length
                   [default_category r "tasks"; default_category r "gtm";
                    default_category r "recurring"]))
                   [default_category r "tasks"; default_category r "gtm";
                    default_category r "recurring"]))
      with [k1; k2; k3].
    cbv zeta.
    rewrite (bind_Ok_run _ _ _ _ _ Hputs), (bind_Ok_run _ _ _ _ _ Hfks).
    reflexivity. }
  assert (Htrigger : create_default_categories e r s1 = (s4, Ok r)).
  { unfold create_default_categories.
    rewrite (bind_Ok_run _ _ _ _ _ Hins). reflexivity. }
  exists s4. split; [| exact Hrn].
  unfold insert_client, statement, insert_into_clients.
  rewrite (bind_Ok_run _ _ _ _ _ Hput), (bind_Ok_run _ _ _ _ _ Hfk1), Htrigger.
  reflexivity.
Qed.

(** C3.  In a reachable store, an insert of a client that succeeds leaves the
    client in the table together with exactly three category rows that
    reference its id, tagged "tasks", "gtm" and "recurring" and added by the
    same statement; the category rows of the clients that were there are the
    ones they had.  The rows are found by the id of the client: an insert by
    an authenticated user, for themselves, with identifiers not in use,
    succeeds whatever the name, so also for a name another client has. *)
Theorem C3_client_insert_creates_three_categories
    (e : env) (v : Client.values) (s : store) :
  reachable s ->
  (forall s' c,
      insert_client e v s = (s', Ok c) ->
      In c (clients s')
      /\ client_categories s' = client_categories s ++ categories_of s' c
      /\ map ClientCategory.category (categories_of s' c)
         = [Some "tasks"; Some "gtm"; Some "recurring"]
      /\ (forall c', In c' (clients s) -> categories_of s' c' = categories_of s c'))
  /\ (forall u name,
         caller e = authenticated u ->
         In u (auth_users s) ->
         Client.v_user_id v = V u ->
         Client.v_name v = V name ->
         fresh_client_id e v s = true ->
         fresh_category_ids e s = true ->
         exists s' c, insert_client e v s = (s', Ok c) /\ Client.name c = Some name).
Proof.
  intros Hr. apply reachable_consistent in Hr. split.
  - intros s' c H. destruct (insert_client_Ok e v s s' c Hr H) as (Hin & Happ & Hnew & Hold).
    split; [exact Hin |]. split; [exact Happ |]. split; [| exact Hold].
    rewrite Hnew. reflexivity.
  - intros u name He Hu Hvu Hvn Hfc Hfk.
    destruct (insert_client_succeeds e v s u name Hr He Hu Hvu Hvn Hfc Hfk) as (s' & H & Hn).
    exists s', (clients_row e v). split; assumption.
Qed.

(** bob creates a client named Acme in the store where alice has one. *)
Lemma C3_client_insert_creates_three_categories_witness :
  exists s' c,
    insert_client Scenario.as_bob (Scenario.new_client "Acme" Scenario.bob) Scenario.with_acme
    = (s', Ok c)
    /\ Client.name c = Client.name Scenario.acme
    /\ map ClientCategory.category (categories_of s' c)
       = [Some "tasks"; Some "gtm"; Some "recurring"]
    /\ categories_of s' Scenario.acme = categories_of Scenario.with_acme Scenario.acme.
Proof.
  destruct (C3_client_insert_creates_three_categories
              Scenario.as_bob (Scenario.new_client "Acme" Scenario.bob)
              Scenario.with_acme reachable_with_acme) as [HA HB].
  assert (Hu : In Scenario.bob (auth_users Scenario.with_acme)) by (left; reflexivity).
  destruct (HB Scenario.bob "Acme" eq_refl Hu eq_refl eq_refl eq_refl eq_refl)
    as (s' & c & H & Hn).
  exists s', c. destruct (HA s' c H) as (_ & _ & Hcat & Hold).
  split; [exact H |]. split; [exact Hn |]. split; [exact Hcat |].
  apply Hold. left. reflexivity.
Defined.

(** ** C4: atomicity of the client insert *)

Lemma insert_client_Err e v s s' err :
  insert_client e v s = (s', Err err) -> s' = s.
Proof. apply statement_Err. Qed.

(** C4.  When the row of the client is in the table and the trigger function
    create_default_categories raises, at whichever of its three rows, the
    insert of the client raises the same error and the store is the one the
    statement started from: neither the client row nor any category row is
    kept.  The statement answers with the client row or with the error,
    nothing else. *)
Theorem C4_client_creation_is_atomic
    (e : env) (v : Client.values) (s s1 s2 : store) (r : Client.row) (err : pg_error) :
  clients_put e v s = (s1, Ok r) ->
  clients_fkey r s1 = (s1, Ok tt) ->
  create_default_categories e r s1 = (s2, Err err) ->
  insert_client e v s = (s, Err err).
Proof.
  intros Hput Hfk Htrigger. unfold insert_client. apply statement_raises with (s1 := s2).
  unfold insert_into_clients.
  rewrite (bind_Ok_run _ _ _ _ _ Hput), (bind_Ok_run _ _ _ _ _ Hfk).
  exact Htrigger.
Qed.

(** The second of the three category rows collides with a row that exists:
    when the trigger raises, the client and the first category row are in the
    tables; the statement leaves none of them. *)
Lemma C4_client_creation_is_atomic_witness :
  (exists s2,
      create_default_categories Scenario.unlucky
        (clients_row Scenario.unlucky (Scenario.new_client "Beta" Scenario.bob))
        (set_clients
           (clients Scenario.with_acme
            ++ [clients_row Scenario.unlucky (Scenario.new_client "Beta" Scenario.bob)])
           Scenario.with_acme)
      = (s2, Err (unique_violation "client_categories_pkey"))
      /\ List.length (clients s2) = 2
      /\ List.length (client_categories s2) = 4)
  /\ insert_client Scenario.unlucky (Scenario.new_client "Beta" Scenario.bob)
       Scenario.with_acme
     = (Scenario.with_acme, Err (unique_violation "client_categories_pkey")).
Proof.
  split.
  - eexists. split; [reflexivity | split; reflexivity].
  - eapply C4_client_creation_is_atomic; reflexivity.
Defined.

(** ** C7: the trigger function run again, and UPDATE *)

Lemma default_row_fails_again e n NEW tag s :
  In tag categories ->
  (exists k, In k (client_categories s)
             /\ uuid_is (ClientCategory.client_id k) (Client.id NEW) = true
             /\ ClientCategory.category k = Some tag) ->
  exists err,
    client_categories_put e (client_categories_row e n (default_category NEW tag)) s
    = (s, Err err)
    /\ (err = insufficient_privilege "client_categories"
        \/ err = unique_violation "client_categories_pkey"
        \/ err = unique_violation "client_categories_client_id_category_key").
Proof.
  intros Htag (k & Hk & Hid & Hcat).
  assert (Hsame : existsb (same_client_category
                             (client_categories_row e n (default_category NEW tag)))
                          (client_categories s) = true).
  { apply existsb_exists. exists k. split; [exact Hk |].
    unfold same_client_category. rewrite default_row_client_id, Hid, Hcat. simpl.
    rewrite String.eqb_refl. reflexivity. }
  apply uuid_is_true in Hid. destruct Hid as (a & _ & Ha).
  remember (client_categories_row e n (default_category NEW tag)) as r eqn:Er.
  assert (Hri : ClientCategory.id r = Some (gen_random_uuid e n)) by (subst r; reflexivity).
  assert (Hrc : ClientCategory.client_id r = Some a)
    by (subst r; rewrite default_row_client_id; exact Ha).
  assert (Hrt : ClientCategory.category r = Some tag) by (subst r; reflexivity).
  unfold client_categories_put, unless_exists, not_null, bind, get.
  destruct (rls (caller e) (client_categories_policy e s r)).
  - rewrite Hri, Hrc, Hrt, (check_inside _ _ Htag). simpl.
    destruct (existsb (fun k0 => uuid_is (ClientCategory.id k0) (Some (gen_random_uuid e n)))
                      (client_categories s)).
    + eexists. split; [reflexivity |]. right. left. reflexivity.
    + simpl. rewrite Hsame. eexists. split; [reflexivity |]. right. right. reflexivity.
  - eexists. split; [reflexivity |]. left. reflexivity.
Qed.

Lemma create_default_categories_again e NEW s :
  has_default_categories s NEW ->
  exists err,
    create_default_categories e NEW s = (s, Err err)
    /\ (err = insufficient_privilege "client_categories"
        \/ err = unique_violation "client_categories_pkey"
        \/ err = unique_violation "client_categories_client_id_category_key").
Proof.
  intros H.
  destruct (default_row_fails_again e 1 NEW "tasks" s (or_introl eq_refl)
              (H "tasks" (or_introl eq_refl))) as (err & Hput & Herr).
  exists err. split; [| exact Herr].
  unfold create_default_categories, insert_into_client_categories. cbv zeta.
  apply bind_Err_run. apply bind_Err_run. simpl for_each.
  apply bind_Err_run. exact Hput.
Qed.

Lemma default_row_violates_unique e n NEW tag s :
  In tag categories ->
  (exists k, In k (client_categories s)
             /\ uuid_is (ClientCategory.client_id k) (Client.id NEW) = true
             /\ ClientCategory.category k = Some tag) ->
  rls (caller e)
      (client_categories_policy e s (client_categories_row e n (default_category NEW tag)))
  = true ->
  fresh_category_id e s n = true ->
  client_categories_put e (client_categories_row e n (default_category NEW tag)) s
  = (s, Err (unique_violation "client_categories_client_id_category_key")).
Proof.
  intros Htag (k & Hk & Hid & Hcat) Hpolicy Hfresh.
  assert (Hsame : existsb (same_client_category
                             (client_categories_row e n (default_category NEW tag)))
                          (client_categories s) = true).
  { apply existsb_exists. exists k. split; [exact Hk |].
    unfold same_client_category. rewrite default_row_client_id, Hid, Hcat. simpl.
    rewrite String.eqb_refl. reflexivity. }
  apply uuid_is_true in Hid. destruct Hid as (a & _ & Ha).
  unfold fresh_category_id in Hfresh. apply negb_true_iff in Hfresh.
  remember (client_categories_row e n (default_category NEW tag)) as r eqn:Er.
  assert (Hri : ClientCategory.id r = Some (gen_random_uuid e n)) by (subst r; reflexivity).
  assert (Hrc : ClientCategory.client_id r = Some a)
    by (subst r; rewrite default_row_client_id; exact Ha).
  assert (Hrt : ClientCategory.category r = Some tag) by (subst r; reflexivity).
  unfold client_categories_put, unless_exists, not_null, bind, get.
  rewrite Hpolicy, Hri, Hrc, Hrt, (check_inside _ _ Htag). simpl.
  rewrite Hfresh. simpl. rewrite Hsame. reflexivity.
Qed.

(** Run by the owner of the client, with an identifier that is not in use,
    the second run is refused by UNIQUE(client_id, category). *)
Lemma create_default_categories_violates_unique e u NEW s :
  has_default_categories s NEW ->
  caller e = authenticated u ->
  In NEW (clients s) ->
  Client.user_id NEW = Some u ->
  fresh_category_id e s 1 = true ->
  create_default_categories e NEW s
  = (s, Err (unique_violation "client_categories_client_id_category_key")).
Proof.
  intros Hhas He Hin Hown Hfresh.
  destruct (Hhas "tasks" (or_introl eq_refl)) as (k & Hk & Hid & Hcat).
  apply uuid_is_true in Hid as Hid'. destruct Hid' as (i & _ & Hi).
  assert (Hput : client_categories_put e
                   (client_categories_row e 1 (default_category NEW "tasks")) s
                 = (s, Err (unique_violation "client_categories_client_id_category_key"))).
  { apply default_row_violates_unique; [left; reflexivity | | | exact Hfresh].
    - exists k. split; [exact Hk |]. split; [exact Hid | exact Hcat].
    - apply (client_categories_policy_own e u s _ NEW i He Hin Hi Hown).
      rewrite default_row_client_id. exact Hi. }
  unfold create_default_categories, insert_into_client_categories. cbv zeta.
  apply bind_Err_run. apply bind_Err_run. simpl for_each.
  apply bind_Err_run. exact Hput.
Qed.

(** What a successful insert of a client leaves: three more category rows,
    and the client has its three rows. *)
Lemma insert_client_provisions e v s s' c :
  consistent s ->
  insert_client e v s = (s', Ok c) ->
  In c (clients s')
  /\ List.length (client_categories s') = List.length (client_categories s) + 3
  /\ has_default_categories s' c.
Proof.
  intros Hs H.
  destruct (insert_client_Ok e v s s' c Hs H) as (Hin & Happ & Hnew & _).
  split; [exact Hin |]. split; [rewrite Happ, Hnew, length_app; reflexivity |].
  intros tag Htag.
  assert (Hk : exists k, In k (categories_of s' c)
                         /\ ClientCategory.category k = Some tag).
  { rewrite Hnew. simpl in Htag.
    destruct Htag as [<- | [<- | [<- | []]]].
    - exists (client_categories_row e 1 (default_category c "tasks")).
      split; [simpl; auto | reflexivity].
    - exists (client_categories_row e 2 (default_category c "gtm")).
      split; [simpl; auto | reflexivity].
    - exists (client_categories_row e 3 (default_category c "recurring")).
      split; [simpl; auto | reflexivity]. }
  destruct Hk as (k & Hk & Hcat). unfold categories_of in Hk.
  apply filter_In in Hk. destruct Hk as [Hk Hid].
  exists k. repeat split; assumption.
Qed.

(** C7.  The trigger function is not idempotent.  Its first run, inside the
    INSERT of a client, succeeds: in a reachable store, a caller who is a
    registered user and inserts a client of their own with a name, the
    generated identifiers not being in use, gets the client stored with
    three more category rows.  A second run for that client raises and adds
    nothing; run by the owner of the client with an identifier that is not
    in use, the error is the violation of UNIQUE(client_id, category).  The
    same holds of every client that has its three rows (for another caller,
    or an identifier in use, the policy or the primary key refuses the row
    before the unique constraint is looked at).  An UPDATE of clients does
    not run the function: the category rows are those that were there.  An
    INSERT runs it once: a successful insert adds three rows, not more. *)
Theorem C7_provisioning_is_not_idempotent (e : env) (s : store) :
  (forall NEW,
      has_default_categories s NEW ->
      (exists err,
          create_default_categories e NEW s = (s, Err err)
          /\ (err = insufficient_privilege "client_categories"
              \/ err = unique_violation "client_categories_pkey"
              \/ err = unique_violation "client_categories_client_id_category_key"))
      /\ forall u,
           caller e = authenticated u ->
           In NEW (clients s) ->
           Client.user_id NEW = Some u ->
           fresh_category_id e s 1 = true ->
           create_default_categories e NEW s
           = (s, Err (unique_violation "client_categories_client_id_category_key")))
  /\ (forall where_ set,
         client_categories (fst (update_clients e where_ set s)) = client_categories s)
  /\ (reachable s ->
      forall v s' c,
        insert_client e v s = (s', Ok c) ->
        List.length (client_categories s') = List.length (client_categories s) + 3
        /\ has_default_categories s' c
        /\ forall e', exists err, create_default_categories e' c s' = (s', Err err))
  /\ (reachable s ->
      forall v u name,
        caller e = authenticated u ->
        In u (auth_users s) ->
        Client.v_user_id v = V u ->
        Client.v_name v = V name ->
        fresh_client_id e v s = true ->
        fresh_category_ids e s = true ->
        exists s' c,
          insert_client e v s = (s', Ok c)
          /\ List.length (client_categories s') = List.length (client_categories s) + 3
          /\ forall e',
               caller e' = authenticated u ->
               fresh_category_id e' s' 1 = true ->
               create_default_categories e' c s'
               = (s', Err (unique_violation "client_categories_client_id_category_key"))).
Proof.
  split; [| split; [| split]].
  - intros NEW H. split; [apply create_default_categories_again, H |].
    intros u He Hin Hown Hfresh.
    apply (create_default_categories_violates_unique e u NEW s H He Hin Hown Hfresh).
  - intros where_ set.
    destruct (update_clients e where_ set s) as [s' [out | err]] eqn:E; simpl.
    + apply update_clients_Ok in E. destruct E as (t' & -> & _). reflexivity.
    + unfold update_clients in E. apply statement_Err in E. subst. reflexivity.
  - intros Hr v s' c H. apply reachable_consistent in Hr.
    destruct (insert_client_provisions e v s s' c Hr H) as (_ & Hlen & Hhas).
    split; [exact Hlen |]. split; [exact Hhas |].
    intros e'. destruct (create_default_categories_again e' c s' Hhas) as (err & He & _).
    exists err. exact He.
  - intros Hr v u name He Hu Hvu Hvn Hfc Hfk. apply reachable_consistent in Hr.
    destruct (insert_client_succeeds e v s u name Hr He Hu Hvu Hvn Hfc Hfk)
      as (s' & Hrun & _).
    destruct (insert_client_provisions e v s s' _ Hr Hrun) as (Hin & Hlen & Hhas).
    exists s', (clients_row e v). split; [exact Hrun |]. split; [exact Hlen |].
    intros e' He' Hfresh.
    apply (create_default_categories_violates_unique e' u _ s' Hhas He' Hin);
      [| exact Hfresh].
    simpl. rewrite Hvu. reflexivity.
Qed.

(** alice creates Acme in a store without clients: the insert succeeds and
    leaves three category rows.  Run again for Acme by alice, with
    identifiers not in use, the function raises on the pair (client_id,
    category); run by bob it raises as well; renaming Acme leaves the three
    rows. *)
Lemma C7_provisioning_is_not_idempotent_witness :
  insert_client Scenario.as_alice (Scenario.new_client "Acme" Scenario.alice)
    Scenario.signed_up
  = (Scenario.with_acme, Ok Scenario.acme)
  /\ List.length (client_categories Scenario.signed_up) = 0
  /\ List.length (client_categories Scenario.with_acme) = 3
  /\ create_default_categories Scenario.alice_again Scenario.acme Scenario.with_acme
     = (Scenario.with_acme,
        Err (unique_violation "client_categories_client_id_category_key"))
  /\ (exists err,
         create_default_categories Scenario.as_bob Scenario.acme Scenario.with_acme
         = (Scenario.with_acme, Err err))
  /\ client_categories
       (fst (update_clients Scenario.as_alice (client_id_is 1000%N)
               (fun c => {| Client.id := Client.id c; Client.user_id := Client.user_id c;
                            Client.name := Some "Acme Ltd";
                            Client.created_at := Client.created_at c |})
               Scenario.with_acme))
     = client_categories Scenario.with_acme.
Proof.
  destruct (C7_provisioning_is_not_idempotent Scenario.as_alice Scenario.with_acme)
    as (_ & Hupdate & _).
  destruct (C7_provisioning_is_not_idempotent Scenario.as_alice Scenario.signed_up)
    as (_ & _ & Hinsert & Hfirst).
  destruct (Hfirst reachable_signed_up (Scenario.new_client "Acme" Scenario.alice)
              Scenario.alice "Acme") as (s' & c & Hrun & Hlen & Hsecond);
    try reflexivity; [right; left; reflexivity |].
  assert (E : insert_client Scenario.as_alice (Scenario.new_client "Acme" Scenario.alice)
                Scenario.signed_up
              = (Scenario.with_acme, Ok Scenario.acme)) by reflexivity.
  rewrite E in Hrun. inversion Hrun; subst s' c.
  destruct (Hinsert reachable_signed_up (Scenario.new_client "Acme" Scenario.alice)
              Scenario.with_acme Scenario.acme E) as (_ & _ & Hagain).
  split; [exact E |]. split; [reflexivity |]. split; [exact Hlen |].
  split; [apply (Hsecond Scenario.alice_again); reflexivity |].
  split; [apply Hagain | apply Hupdate].
Defined.

(** ** C5: ON DELETE CASCADE *)

Lemma not_referenced keys key fk :
  references keys fk = false -> In key keys -> uuid_is key fk = false.
Proof.
  unfold references. intros H Hin. rewrite existsb_none in H. apply H, Hin.
Qed.

Lemma Forall_filter_not {R : Type} (keys : list (option uuid)) (fk : R -> option uuid)
    (l : list R) key :
  In key keys ->
  Forall (fun r => uuid_is key (fk r) = false)
         (filter (fun r => negb (references keys (fk r))) l).
Proof.
  intros Hin. rewrite Forall_forall. intros r Hr. apply filter_In in Hr.
  destruct Hr as [_ Hr]. apply negb_true_iff in Hr.
  exact (not_referenced keys key (fk r) Hr Hin).
Qed.

(** C5.  A DELETE on clients always goes through and removes the rows the
    caller's WHERE clause and the policy select; for each client removed, no
    row of client_categories and no row of tasks that is left references it,
    and no comment or attachment that is left references a task that
    referenced it.  A DELETE on tasks removes the selected tasks; for each
    task removed, no row of task_comments and no row of task_attachments that
    is left references it. *)
Theorem C5_delete_cascades (e : env) (s : store) :
  (forall where_,
      exists s',
        delete_clients e where_ s = (s', Ok (filter (clients_target e where_) (clients s)))
        /\ forall c,
             In c (filter (clients_target e where_) (clients s)) ->
             ~ In c (clients s')
             /\ Forall (fun k => uuid_is (Client.id c) (ClientCategory.client_id k) = false)
                       (client_categories s')
             /\ Forall (fun t => uuid_is (Client.id c) (Task.client_id t) = false) (tasks s')
             /\ forall t,
                  In t (tasks s) ->
                  uuid_is (Client.id c) (Task.client_id t) = true ->
                  Forall (fun m => uuid_is (Task.id t) (TaskComment.task_id m) = false)
                         (task_comments s')
                  /\ Forall (fun a => uuid_is (Task.id t) (TaskAttachment.task_id a) = false)
                            (task_attachments s'))
  /\ (forall where_,
         exists s',
           delete_tasks e where_ s = (s', Ok (filter (tasks_target e where_) (tasks s)))
           /\ forall t,
                In t (filter (tasks_target e where_) (tasks s)) ->
                ~ In t (tasks s')
                /\ Forall (fun m => uuid_is (Task.id t) (TaskComment.task_id m) = false)
                          (task_comments s')
                /\ Forall (fun a => uuid_is (Task.id t) (TaskAttachment.task_id a) = false)
                          (task_attachments s')).
Proof.
  split; intros where_.
  - eexists. split; [apply delete_clients_run |]. cbv zeta. simpl.
    intros c Hc.
    assert (Hkey : In (Client.id c)
                      (map Client.id (filter (clients_target e where_) (clients s))))
      by (apply in_map, Hc).
    split; [| split; [| split]].
    + intros Hin. apply filter_In in Hin. apply filter_In in Hc.
      destruct Hin as [_ Hn], Hc as [_ Ht]. rewrite Ht in Hn. discriminate Hn.
    + apply Forall_filter_not, Hkey.
    + apply Forall_filter_not, Hkey.
    + intros t Ht Href.
      assert (Htk : In (Task.id t)
                (map Task.id
                   (filter (fun t0 => references
                              (map Client.id (filter (clients_target e where_) (clients s)))
                              (Task.client_id t0)) (tasks s)))).
      { apply in_map. apply filter_In. split; [exact Ht |].
        unfold references. apply existsb_exists. exists (Client.id c).
        split; [exact Hkey | exact Href]. }
      split; apply Forall_filter_not, Htk.
  - eexists. split; [apply delete_tasks_run |]. simpl.
    intros t Ht.
    assert (Hkey : In (Task.id t)
                      (map Task.id (filter (tasks_target e where_) (tasks s))))
      by (apply in_map, Ht).
    split; [| split].
    + intros Hin. apply filter_In in Hin. apply filter_In in Ht.
      destruct Hin as [_ Hn], Ht as [_ Ht]. rewrite Ht in Hn. discriminate Hn.
    + apply Forall_filter_not, Hkey.
    + apply Forall_filter_not, Hkey.
Qed.

(** alice deletes Acme: its categories, her task with its comment and its
    attachment, and the task bob had put on Acme are gone. *)
Lemma C5_delete_cascades_witness :
  In Scenario.bobs_task (tasks Scenario.crowded)
  /\ List.length (task_comments Scenario.crowded) = 1
  /\ List.length (task_attachments Scenario.crowded) = 1
  /\ exists s',
       delete_clients Scenario.as_alice (client_id_is 1000%N) Scenario.crowded
       = (s', Ok [Scenario.acme])
       /\ Forall (fun k => uuid_is (Some 1000%N) (ClientCategory.client_id k) = false)
                 (client_categories s')
       /\ Forall (fun t => uuid_is (Some 1000%N) (Task.client_id t) = false) (tasks s')
       /\ s' = Scenario.signed_up.
Proof.
  split; [right; left; reflexivity |]. split; [reflexivity |]. split; [reflexivity |].
  destruct (C5_delete_cascades Scenario.as_alice Scenario.crowded) as [Hclients _].
  destruct (Hclients (client_id_is 1000%N)) as (s' & Hrun & Hgone).
  exists s'. split; [exact Hrun |].
  destruct (Hgone Scenario.acme (or_introl eq_refl)) as (_ & Hk & Ht & _).
  split; [exact Hk |]. split; [exact Ht |].
  assert (E : fst (delete_clients Scenario.as_alice (client_id_is 1000%N) Scenario.crowded)
              = Scenario.signed_up) by reflexivity.
  rewrite Hrun in E. exact E.
Defined.

(** ** C6: the enumerated columns of tasks *)

Lemma reachable_task_checks s : reachable s -> Forall task_checks (tasks s).
Proof. intros H. apply reachable_consistent in H. apply H. Qed.

(** An INSERT that gives status, category or priority a text outside its set
    raises and leaves the store as it was. *)
Lemma insert_task_outside_rejected e v s :
  (exists x, Task.v_status v = V x /\ ~ In x statuses)
  \/ (exists x, Task.v_category v = V x /\ ~ In x categories)
  \/ (exists x, Task.v_priority v = V x /\ ~ In x priorities) ->
  exists err, insert_task e v s = (s, Err err).
Proof.
  intros H. destruct (insert_task e v s) as [s' [r | err]] eqn:E.
  - exfalso. unfold insert_task in E. apply statement_Ok in E.
    apply insert_into_tasks_Ok in E. destruct E as (-> & (Hs & Hc & Hp) & _).
    destruct H as [(x & Hx & Hn) | [(x & Hx & Hn) | (x & Hx & Hn)]].
    + destruct Hs as (w & Hw & Hin). simpl in Hw. rewrite Hx in Hw. simpl in Hw.
      inversion Hw; subst. contradiction.
    + destruct Hc as (w & Hw & Hin). simpl in Hw. rewrite Hx in Hw. simpl in Hw.
      inversion Hw; subst. contradiction.
    + simpl in Hp. rewrite Hx in Hp. simpl in Hp.
      destruct Hp as [Hp | (w & Hw & Hin)]; [discriminate Hp |].
      inversion Hw; subst. contradiction.
  - exists err. apply statement_Err in E. subst. reflexivity.
Qed.

(** An UPDATE that succeeds leaves only checked rows; one that raises leaves
    the store as it was. *)
Lemma update_tasks_checked e where_ set s :
  Forall task_checks (tasks s) ->
  Forall task_checks (tasks (fst (update_tasks e where_ set s)))
  /\ forall s' err, update_tasks e where_ set s = (s', Err err) -> s' = s.
Proof.
  intros H. split.
  - destruct (update_tasks e where_ set s) as [s' [out | err]] eqn:E; simpl.
    + apply update_tasks_Ok in E. destruct E as (t' & -> & HT). simpl.
      induction HT as [| r r' t t' Hr HT IH]; constructor.
      * inversion H; subst. destruct Hr as [-> | Hr]; assumption.
      * apply IH. inversion H; assumption.
    + unfold update_tasks in E. apply statement_Err in E. subst. exact H.
  - intros s' err E. unfold update_tasks in E. apply statement_Err in E. exact E.
Qed.

Example insert_blocked_rejected :
  insert_task Scenario.as_alice
    (Scenario.new_task Scenario.alice (V 1000%N) (V "Blocked") DEFAULT) Scenario.with_acme
  = (Scenario.with_acme, Err (check_violation "tasks_status_check")).
Proof. reflexivity. Qed.

(** C6, as the code has it: in a reachable store alice inserts a task with an
    explicit NULL for priority.  The column has a CHECK and a DEFAULT and no
    NOT NULL: the insert is accepted, and the store reached holds a task
    whose priority is none of Low, Medium, High, Urgent. *)
Theorem C6_task_without_priority_is_stored :
  insert_task Scenario.as_alice
    (Scenario.new_task Scenario.alice (V 1000%N) (V "Pending") VNULL) Scenario.with_acme
  = (set_tasks (tasks Scenario.with_acme ++ [Scenario.no_priority]) Scenario.with_acme,
     Ok Scenario.no_priority)
  /\ reachable (set_tasks (tasks Scenario.with_acme ++ [Scenario.no_priority])
                          Scenario.with_acme)
  /\ In Scenario.no_priority
        (tasks (set_tasks (tasks Scenario.with_acme ++ [Scenario.no_priority])
                          Scenario.with_acme))
  /\ ~ one_of priorities (Task.priority Scenario.no_priority).
Proof.
  assert (E : insert_task Scenario.as_alice
                (Scenario.new_task Scenario.alice (V 1000%N) (V "Pending") VNULL)
                Scenario.with_acme
              = (set_tasks (tasks Scenario.with_acme ++ [Scenario.no_priority])
                           Scenario.with_acme,
                 Ok Scenario.no_priority)) by reflexivity.
  split; [exact E |]. split; [| split].
  - apply reachable_step with (s := Scenario.with_acme); [apply reachable_with_acme |].
    pose proof (step_insert_task Scenario.as_alice
                  (Scenario.new_task Scenario.alice (V 1000%N) (V "Pending") VNULL)
                  Scenario.with_acme) as Hstep.
    rewrite E in Hstep. exact Hstep.
  - simpl. left. reflexivity.
  - intros (w & Hw & _). discriminate Hw.
Qed.

(** ** The event sync proxy *)

Lemma delete_calendar_events_none e where_ s :
  (forall x, In x (calendar_events s) -> calendar_events_target e where_ x = false) ->
  delete_calendar_events e where_ s = (s, Ok []).
Proof.
  intros H. unfold delete_calendar_events, statement, bind, get, modify, ret.
  rewrite (filter_none _ _ H).
  rewrite filter_all by (intros x Hx; rewrite (H x Hx); reflexivity).
  rewrite set_calendar_events_same. reflexivity.
Qed.

Lemma update_calendar_events_none e where_ set s :
  (forall x, In x (calendar_events s) -> calendar_events_target e where_ x = false) ->
  update_calendar_events e where_ set s = (s, Ok []).
Proof.
  intros H. unfold update_calendar_events, statement.
  unfold bind at 1. unfold get at 1.
  rewrite (bind_Ok_run _ _ _ _ _
             (update_rows_none _ (update_calendar_events_row e set) _ s H)).
  simpl. unfold bind, modify, ret. simpl. rewrite set_calendar_events_same. reflexivity.
Qed.

Section HandlerProperties.

Variable getUser : string -> UserResponse.
Variable uuid_in : string -> option uuid.
Variable date_in : string -> option pg_date.
Variable db_now : timestamptz.
Variable db_uuid : nat -> uuid.
Variable Date_now : timestamptz.

Local Abbreviation serve' := (serve getUser uuid_in date_in db_now db_uuid Date_now).
Local Abbreviation try_block' := (try_block getUser uuid_in date_in db_now db_uuid Date_now).
Local Abbreviation supabase' := (supabase db_now db_uuid).

Lemma and_then_calls {A B : Type} (m : J A) (k : A -> J B) s :
  calls (and_then m k s)
  = match returned (m s) with
    | inl _ => calls (m s)
    | inr a => calls (m s) ++ calls (k a (db (m s)))
    end.
Proof. unfold and_then. destruct (returned (m s)); reflexivity. Qed.

(** After the query a handler only looks at its result. *)
Lemma query_then_calls {A : Type} (c : call) (q : store -> store * (PostgrestError + A))
    (k : A -> Response) s :
  calls ((r <~ await c q ;; x <~ data_or_throw r ;; pure (k x)) s) = [c].
Proof.
  unfold and_then, await. simpl. destruct (snd (q s)); reflexivity.
Qed.

Lemma list_events_calls u s :
  calls (list_events db_now db_uuid u s) = [from_select].
Proof. apply query_then_calls. Qed.

Lemma create_event_calls req u s :
  forallb store_call (calls (create_event date_in db_now db_uuid req u s)) = true.
Proof.
  unfold create_event. destruct (json req); try reflexivity.
  rewrite query_then_calls. reflexivity.
Qed.

Lemma update_event_calls req u s :
  forallb store_call
          (calls (update_event uuid_in date_in db_now db_uuid Date_now req u s)) = true.
Proof.
  unfold update_event.
  destruct (json req); try reflexivity;
    destruct (id req) as [eventId |]; try reflexivity;
    destruct (falsy (Some eventId)); try reflexivity.
  rewrite query_then_calls. reflexivity.
Qed.

Lemma delete_event_calls req u s :
  forallb store_call (calls (delete_event uuid_in db_now db_uuid req u s)) = true.
Proof.
  unfold delete_event.
  destruct (id req) as [eventId |]; try reflexivity.
  destruct (falsy (Some eventId)); try reflexivity.
  unfold and_then, await. simpl.
  destruct (snd (delete_query uuid_in db_now db_uuid eventId u s)); reflexivity.
Qed.

Lemma switch_action_calls req u s :
  forallb store_call
          (calls (switch_action uuid_in date_in db_now db_uuid Date_now req u s)) = true.
Proof.
  unfold switch_action.
  destruct (action req) as [a |]; [| reflexivity].
  destruct (String.eqb a "list"); [rewrite list_events_calls; reflexivity |].
  destruct (String.eqb a "create"); [apply create_event_calls |].
  destruct (String.eqb a "update"); [apply update_event_calls |].
  destruct (String.eqb a "delete"); [apply delete_event_calls |].
  reflexivity.
Qed.

(** The try block asks the identity provider once, first, with the token of
    the header. *)
Lemma try_block_calls req s authHeader :
  Authorization req = Some authHeader ->
  exists rest,
    calls (try_block' req s) = auth_getUser (replace "Bearer " "" authHeader) :: rest
    /\ forallb store_call rest = true.
Proof.
  intros HA. unfold try_block. rewrite HA.
  remember (replace "Bearer " "" authHeader) as token eqn:Et.
  rewrite and_then_calls. cbn [returned calls db].
  destruct (authError (getUser token)), (user (getUser token)) as [u |];
    try (exists []; split; reflexivity).
  eexists. split; [reflexivity |]. apply switch_action_calls.
Qed.

Lemma serve_calls req s :
  calls (serve' req s)
  = if String.eqb (method req) "OPTIONS" then [] else calls (try_block' req s).
Proof.
  unfold serve. destruct (String.eqb (method req) "OPTIONS"); [reflexivity |].
  destruct (returned (try_block' req s)); reflexivity.
Qed.

Lemma serve_asked req s token :
  In (auth_getUser token) (calls (serve' req s)) ->
  String.eqb (method req) "OPTIONS" = false
  /\ exists authHeader,
       Authorization req = Some authHeader
       /\ token = replace "Bearer " "" authHeader.
Proof.
  rewrite serve_calls. destruct (String.eqb (method req) "OPTIONS"); [intros [] |].
  intros Hin. split; [reflexivity |].
  destruct (Authorization req) as [authHeader |] eqn:HA.
  - exists authHeader. split; [reflexivity |].
    destruct (try_block_calls req s authHeader HA) as (rest & Hc & Hrest).
    rewrite Hc in Hin. destruct Hin as [Hin | Hin]; [inversion Hin; reflexivity |].
    rewrite forallb_forall in Hrest. specialize (Hrest _ Hin). discriminate Hrest.
  - exfalso. unfold try_block in Hin. rewrite HA in Hin. exact Hin.
Qed.

Lemma serve_unauthorized req s authHeader :
  String.eqb (method req) "OPTIONS" = false ->
  Authorization req = Some authHeader ->
  authError (getUser (replace "Bearer " "" authHeader)) <> None
  \/ user (getUser (replace "Bearer " "" authHeader)) = None ->
  serve' req s
  = {| calls := [auth_getUser (replace "Bearer " "" authHeader)];
       db := s;
       returned := inr (json_response 401 (error_body "Unauthorized")) |}.
Proof.
  intros Hm HA Hfail. unfold serve, try_block. rewrite Hm, HA.
  remember (replace "Bearer " "" authHeader) as token eqn:Et.
  unfold and_then. cbn [returned calls db].
  destruct (authError (getUser token)) as [error |];
    [reflexivity |].
  destruct (user (getUser token)) as [u |]; [| reflexivity].
  exfalso. destruct Hfail as [Hfail | Hfail]; [apply Hfail; reflexivity | discriminate Hfail].
Qed.

Lemma serve_authorized req s authHeader u :
  String.eqb (method req) "OPTIONS" = false ->
  Authorization req = Some authHeader ->
  authError (getUser (replace "Bearer " "" authHeader)) = None ->
  user (getUser (replace "Bearer " "" authHeader)) = Some u ->
  let o := switch_action uuid_in date_in db_now db_uuid Date_now req u s in
  calls (serve' req s) = auth_getUser (replace "Bearer " "" authHeader) :: calls o
  /\ db (serve' req s) = db o
  /\ returned (serve' req s)
     = inr match returned o with
           | inr response => response
           | inl error => json_response 500 (error_message_of error)
           end.
Proof.
  intros Hm HA Herr Hu. cbv zeta. unfold serve, try_block. rewrite Hm, HA.
  remember (replace "Bearer " "" authHeader) as token eqn:Et.
  unfold and_then. cbn [returned calls db]. rewrite Herr, Hu.
  destruct (returned (switch_action uuid_in date_in db_now db_uuid Date_now req u s));
    cbn [returned calls db]; repeat split; reflexivity.
Qed.

(** C9.  When the handler has put the token of a request to the identity
    provider and the answer is an error or no user, the response is 401
    with the body { error: 'Unauthorized' }; the identity provider is the
    only thing the handler has called, no query was sent to the store,
    the store is as it was, and the body carries no event. *)
Theorem C9_failed_credential_is_unauthorized (req : Request) (s : store) :
  credential_fails getUser uuid_in date_in db_now db_uuid Date_now req s ->
  returned (serve' req s) = inr (json_response 401 (error_body "Unauthorized"))
  /\ db (serve' req s) = s
  /\ no_store_call getUser uuid_in date_in db_now db_uuid Date_now req s
  /\ exists token, calls (serve' req s) = [auth_getUser token].
Proof.
  intros (token & Hin & Hfail).
  destruct (serve_asked req s token Hin) as (Hm & authHeader & HA & ->).
  unfold no_store_call.
  rewrite (serve_unauthorized req s authHeader Hm HA Hfail). cbn [returned calls db].
  split; [reflexivity |]. split; [reflexivity |]. split; [reflexivity |].
  eexists. reflexivity.
Qed.

(** C10, amended.  For a request the identity provider has accepted, with
    action update or delete and no id parameter: no query is sent to the
    store and the store is as it was; the response is 400 with the body
    { error: 'Event ID required' } for delete, and for update when the body
    of the request can be read as JSON (the body is read before the id is
    looked at). *)
Theorem C10_missing_id_is_bad_request (req : Request) (s : store) (u : uuid) :
  authenticated_as getUser uuid_in date_in db_now db_uuid Date_now req s u ->
  id req = None ->
  action req = Some "update" \/ action req = Some "delete" ->
  no_store_call getUser uuid_in date_in db_now db_uuid Date_now req s
  /\ db (serve' req s) = s
  /\ (action req = Some "delete" \/ json req <> invalid_json ->
      returned (serve' req s) = inr (json_response 400 (error_body "Event ID required"))).
Proof.
  intros (token & Hin & Herr & Hu) Hid Hact.
  destruct (serve_asked req s token Hin) as (Hm & authHeader & HA & ->).
  destruct (serve_authorized req s authHeader u Hm HA Herr Hu) as (Hc & Hd & Hr).
  unfold no_store_call. rewrite Hc, Hd, Hr. clear Hc Hd Hr.
  unfold switch_action.
  destruct Hact as [Ha | Ha]; rewrite Ha; cbn [String.eqb Ascii.eqb Bool.eqb].
  - unfold update_event. rewrite Hid.
    destruct (json req) eqn:Ej; cbn.
    + split; [reflexivity |]. split; [reflexivity |].
      intros [H | H]; [discriminate H | contradiction H; reflexivity].
    + repeat split; reflexivity.
    + repeat split; reflexivity.
  - unfold delete_event. rewrite Hid. cbn. repeat split; reflexivity.
Qed.

(** C8, amended.  For a request the identity provider has accepted for a
    user, with an id the store reads as an identifier that no event of
    that user has (no event at all, or one of another user): a delete is
    answered 200 with { success: true }; an update is answered 500 with the
    message of the error thrown, which is the refusal of .single() when the
    body is an object whose date, if any, can be read; in both cases the
    store is as it was. *)
Theorem C8_lookup_without_row (req : Request) (s : store) (u : uuid)
    (text : string) (i : uuid) :
  authenticated_as getUser uuid_in date_in db_now db_uuid Date_now req s u ->
  id req = Some text ->
  text <> "" ->
  uuid_in text = Some i ->
  (forall x, In x (calendar_events s) ->
             uuid_is (CalendarEvent.id x) (Some i)
             && uuid_is (CalendarEvent.user_id x) (Some u) = false) ->
  (action req = Some "delete" ->
   returned (serve' req s) = inr (json_response 200 success_body)
   /\ db (serve' req s) = s)
  /\ (action req = Some "update" ->
      db (serve' req s) = s
      /\ exists error,
           returned (serve' req s) = inr (json_response 500 (error_message_of error))
           /\ forall title description date time,
                json req = json_object title description date time ->
                (forall e, text_to date_in "date" date <> Err e) ->
                error = thrown PGRST116).
Proof.
  intros (token & Hin & Herr & Hu) Hid Htext Hi Hnone.
  destruct (serve_asked req s token Hin) as (Hm & authHeader & HA & ->).
  destruct (serve_authorized req s authHeader u Hm HA Herr Hu) as (_ & Hd & Hr).
  rewrite Hd, Hr. clear Hd Hr.
  assert (Hf : String.eqb text "" = false) by (apply String.eqb_neq; exact Htext).
  assert (Ht : forall x, In x (calendar_events s) ->
            calendar_events_target supabase'
              (fun x => uuid_is (CalendarEvent.id x) (Some i)
                        && uuid_is (CalendarEvent.user_id x) (Some u)) x = false).
  { intros x Hx. unfold calendar_events_target. rewrite (Hnone x Hx). reflexivity. }
  unfold switch_action. split; intros Ha; rewrite Ha; cbn [String.eqb Ascii.eqb Bool.eqb].
  - unfold delete_event. rewrite Hid. unfold falsy. rewrite Hf.
    unfold and_then, await, delete_query. rewrite Hi. unfold rows.
    rewrite (delete_calendar_events_none _ _ _ Ht). cbn. split; reflexivity.
  - unfold update_event. rewrite Hid. unfold falsy. rewrite Hf.
    destruct (json req) as [| | title description date time] eqn:Ej.
    + cbn. split; [reflexivity |]. eexists. split; [reflexivity |].
      intros ? ? ? ? E. discriminate E.
    + cbn. split; [reflexivity |]. eexists. split; [reflexivity |].
      intros ? ? ? ? E. discriminate E.
    + unfold and_then, await, update_query. rewrite Hi.
      destruct (text_to date_in "date" date) as [d | e] eqn:Ed.
      * unfold single. rewrite (update_calendar_events_none _ _ _ _ Ht). cbn.
        split; [reflexivity |]. eexists. split; [reflexivity |]. reflexivity.
      * cbn. split; [reflexivity |]. eexists. split; [reflexivity |].
        intros ? ? ? ? E Hno. inversion E; subst. exfalso. exact (Hno e Ed).
Qed.

End HandlerProperties.

(** A request with a token the identity provider does not know. *)
Lemma C9_failed_credential_is_unauthorized_witness :
  returned (Scenario.proxy
              (Scenario.request "GET" "no-such-token" "list" None invalid_json)
              Scenario.with_event)
  = inr (json_response 401 (error_body "Unauthorized"))
  /\ db (Scenario.proxy
           (Scenario.request "GET" "no-such-token" "list" None invalid_json)
           Scenario.with_event)
     = Scenario.with_event.
Proof.
  destruct (C9_failed_credential_is_unauthorized
              Scenario.getUser Scenario.uuid_in Scenario.date_in
              400%Z (fun n => (7 + N.of_nat n)%N) 401%Z
              (Scenario.request "GET" "no-such-token" "list" None invalid_json)
              Scenario.with_event) as (Hr & Hd & _).
  - exists "no-such-token". split; [left; reflexivity | left; discriminate].
  - split; [exact Hr | exact Hd].
Defined.

(** C10, as stated, fails: bob asks for an update without an id and without
    a body that can be read as JSON; the response is 500 with the message of
    the SyntaxError, not 400. *)
Lemma C10_update_without_id_and_body_is_500 :
  authenticated_as Scenario.getUser Scenario.uuid_in Scenario.date_in
    400%Z (fun n => (7 + N.of_nat n)%N) 401%Z
    (Scenario.request "POST" "bob-token" "update" None invalid_json)
    Scenario.with_event Scenario.bob
  /\ returned (Scenario.proxy
                 (Scenario.request "POST" "bob-token" "update" None invalid_json)
                 Scenario.with_event)
     = inr (json_response 500 (error_message_of SyntaxError))
  /\ returned (Scenario.proxy
                 (Scenario.request "POST" "bob-token" "update" None invalid_json)
                 Scenario.with_event)
     <> inr (json_response 400 (error_body "Event ID required")).
Proof.
  split; [| split].
  - exists "bob-token". split; [left; reflexivity | split; reflexivity].
  - reflexivity.
  - discriminate.
Qed.

Lemma C10_missing_id_is_bad_request_witness :
  returned (Scenario.proxy
              (Scenario.request "POST" "bob-token" "update" None Scenario.retitle)
              Scenario.with_event)
  = inr (json_response 400 (error_body "Event ID required"))
  /\ db (Scenario.proxy
           (Scenario.request "POST" "bob-token" "update" None Scenario.retitle)
           Scenario.with_event)
     = Scenario.with_event.
Proof.
  destruct (C10_missing_id_is_bad_request
              Scenario.getUser Scenario.uuid_in Scenario.date_in
              400%Z (fun n => (7 + N.of_nat n)%N) 401%Z
              (Scenario.request "POST" "bob-token" "update" None Scenario.retitle)
              Scenario.with_event Scenario.bob) as (_ & Hd & Hr).
  - exists "bob-token". split; [left; reflexivity | split; reflexivity].
  - reflexivity.
  - left. reflexivity.
  - split; [apply Hr; right; discriminate | exact Hd].
Defined.

(** C8, as stated, fails: bob asks for an update of the event of alice by
    its id.  No row matches the id together with bob's identity, and the
    response is 500 with the message of the error of .single(); it is the
    same for an id that no event has. *)
Lemma C8_update_without_row_is_500 :
  authenticated_as Scenario.getUser Scenario.uuid_in Scenario.date_in
    400%Z (fun n => (7 + N.of_nat n)%N) 401%Z
    (Scenario.request "POST" "bob-token" "update"
       (Some "00000000-0000-0000-0000-000000000007") Scenario.retitle)
    Scenario.with_event Scenario.bob
  /\ In Scenario.standup (calendar_events Scenario.with_event)
  /\ returned (Scenario.proxy
                 (Scenario.request "POST" "bob-token" "update"
                    (Some "00000000-0000-0000-0000-000000000007") Scenario.retitle)
                 Scenario.with_event)
     = inr (json_response 500 (error_message_of (thrown PGRST116)))
  /\ returned (Scenario.proxy
                 (Scenario.request "POST" "bob-token" "update"
                    (Some "00000000-0000-0000-0000-000000000008") Scenario.retitle)
                 Scenario.with_event)
     = inr (json_response 500 (error_message_of (thrown PGRST116))).
Proof.
  split; [| split; [| split]].
  - exists "bob-token". split; [left; reflexivity | split; reflexivity].
  - left. reflexivity.
  - reflexivity.
  - reflexivity.
Qed.

Lemma C8_lookup_without_row_witness :
  returned (Scenario.proxy
              (Scenario.request "POST" "bob-token" "delete"
                 (Some "00000000-0000-0000-0000-000000000007") invalid_json)
              Scenario.with_event)
  = inr (json_response 200 success_body)
  /\ db (Scenario.proxy
           (Scenario.request "POST" "bob-token" "delete"
              (Some "00000000-0000-0000-0000-000000000007") invalid_json)
           Scenario.with_event)
     = Scenario.with_event.
Proof.
  destruct (C8_lookup_without_row
              Scenario.getUser Scenario.uuid_in Scenario.date_in
              400%Z (fun n => (7 + N.of_nat n)%N) 401%Z
              (Scenario.request "POST" "bob-token" "delete"
                 (Some "00000000-0000-0000-0000-000000000007") invalid_json)
              Scenario.with_event Scenario.bob
              "00000000-0000-0000-0000-000000000007" 7%N) as (Hdelete & _).
  - exists "bob-token". split; [left; reflexivity | split; reflexivity].
  - reflexivity.
  - discriminate.
  - reflexivity.
  - intros x [<- | []]. reflexivity.
  - apply Hdelete. reflexivity.
Defined.

(** * Further properties *)

(** ** Primary keys and unique constraints in reachable stores *)

(** Rows that are kept keep distinct keys. *)
Lemma NoDup_map_filter {R K : Type} (key : R -> K) (keep : R -> bool) (t : list R)
    (distinct : NoDup (map key t)) :
  NoDup (map key (filter keep t)).
Proof.
  induction t as [| r t IH]; simpl; [constructor |].
  simpl in distinct. inversion distinct as [| k ks Hn Hl]; subst.
  destruct (keep r); simpl; [| apply IH, Hl].
  constructor; [| apply IH, Hl].
  intros Hin. apply Hn. apply in_map_iff in Hin. destruct Hin as (y & Hy & Hin).
  apply filter_In in Hin. rewrite <- Hy. apply in_map. apply Hin.
Qed.

Lemma in_map_filter {A B : Type} (f : A -> B) (p : A -> bool) (l : list A) x :
  In x (map f (filter p l)) -> In x (map f l).
Proof.
  intros H. apply in_map_iff in H. destruct H as (y & Hy & Hin).
  apply filter_In in Hin. rewrite <- Hy. apply in_map. apply Hin.
Qed.

Lemma primary_key_nil {R : Type} (id : R -> option uuid) : primary_key id [].
Proof. split; [constructor | intros []]. Qed.

Lemma primary_key_filter {R : Type} (id : R -> option uuid) (p : R -> bool) t :
  primary_key id t -> primary_key id (filter p t).
Proof.
  intros [Hn Hs]. split; [apply NoDup_map_filter, Hn |].
  intros H. apply Hs. apply in_map_filter with (p := p). exact H.
Qed.

Lemma primary_key_ids {R : Type} (id : R -> option uuid) t t' :
  map id t' = map id t -> primary_key id t -> primary_key id t'.
Proof. unfold primary_key. intros ->. tauto. Qed.

Lemma not_in_keys {R : Type} (id : R -> option uuid) t x :
  x <> None -> existsb (fun k => uuid_is (id k) x) t = false -> ~ In x (map id t).
Proof.
  intros Hx He Hin. apply in_map_iff in Hin. destruct Hin as (k & Hk & Hin).
  rewrite existsb_none in He. specialize (He k Hin).
  destruct x as [a |]; [| apply Hx; reflexivity].
  rewrite Hk, uuid_is_Some, N.eqb_refl in He. discriminate He.
Qed.

Lemma primary_key_app {R : Type} (id : R -> option uuid) t r :
  primary_key id t ->
  id r <> None ->
  existsb (fun k => uuid_is (id k) (id r)) t = false ->
  primary_key id (t ++ [r]).
Proof.
  intros [Hn Hs] Hr He. unfold primary_key. rewrite map_app. simpl. split.
  - apply NoDup_app; [exact Hn | constructor; [intros [] | constructor] |].
    intros a Ha [<- | []]. exact (not_in_keys id t (id r) Hr He Ha).
  - intros H. apply in_app_or in H. destruct H as [H | [H | []]].
    + exact (Hs H).
    + apply Hr. exact H.
Qed.

Lemma Some_not_None {A : Type} (o : option A) : (exists a, o = Some a) -> o <> None.
Proof. intros [a ->]. discriminate. Qed.

Lemma client_categories_put_facts e r s s' u :
  client_categories_put e r s = (s', Ok u) ->
  s' = set_client_categories (client_categories s ++ [r]) s
  /\ rls (caller e) (client_categories_policy e s r) = true
  /\ ClientCategory.id r <> None
  /\ category_checked r
  /\ existsb (fun k => uuid_is (ClientCategory.id k) (ClientCategory.id r))
             (client_categories s) = false
  /\ existsb (same_client_category r) (client_categories s) = false.
Proof.
  intros H. pose proof (client_categories_put_Ok _ _ _ _ _ H) as (Hs & Hc & Hu).
  unfold client_categories_put in H. run.
  split; [reflexivity |]. split; [assumption |].
  split; [apply Some_not_None; assumption |].
  split; [split; [exact Hc | apply Some_not_None; assumption] |].
  split; assumption.
Qed.

Lemma not_in_category_keys r t :
  category_checked r ->
  existsb (same_client_category r) t = false ->
  ~ In (category_key r) (map category_key t).
Proof.
  intros [(tag & Ht & _) Hc] He Hin. apply in_map_iff in Hin.
  destruct Hin as (k & Hk & Hin). rewrite existsb_none in He. specialize (He k Hin).
  unfold category_key in Hk. inversion Hk as [[Hk1 Hk2]].
  unfold same_client_category in He. rewrite Hk1, Hk2, Ht in He.
  destruct (ClientCategory.client_id r) as [a |]; [| apply Hc; reflexivity].
  rewrite uuid_is_Some, N.eqb_refl in He. simpl in He.
  rewrite String.eqb_refl in He. discriminate He.
Qed.

Lemma categories_keyed_filter (p : ClientCategory.row -> bool) l :
  categories_keyed l -> categories_keyed (filter p l).
Proof.
  intros (Hp & Hn & Hc). split; [apply primary_key_filter, Hp |].
  split; [apply NoDup_map_filter, Hn | apply Forall_filter, Hc].
Qed.

Lemma client_categories_put_keyed e r s s' u :
  client_categories_put e r s = (s', Ok u) ->
  categories_keyed (client_categories s) ->
  categories_keyed (client_categories s').
Proof.
  intros H (Hp & Hn & Hc).
  apply client_categories_put_facts in H.
  destruct H as (-> & _ & Hid & Hck & Hpk & Hu). simpl.
  split; [apply primary_key_app; assumption |]. split.
  - rewrite map_app. simpl. apply NoDup_app; [exact Hn | constructor; [intros [] | constructor] |].
    intros a Ha [<- | []]. exact (not_in_category_keys r _ Hck Hu Ha).
  - apply Forall_app. split; [exact Hc | constructor; [exact Hck | constructor]].
Qed.

Lemma for_each_preserves {A B : Type} (f : A -> M B) (P : store -> Prop) l s s' bs :
  (forall a s1 s2 b, f a s1 = (s2, Ok b) -> P s1 -> P s2) ->
  for_each f l s = (s', Ok bs) -> P s -> P s'.
Proof.
  intros Hf. revert s bs. induction l as [| a l IH]; intros s bs H HP; simpl in H.
  - run. exact HP.
  - run.
    match goal with H : f _ _ = _ |- _ => apply Hf in H; [| exact HP] end.
    match goal with H : for_each _ _ _ = _ |- _ => eapply IH; [exact H | assumption] end.
Qed.

Lemma insert_into_client_categories_keyed e first vs s s' out :
  insert_into_client_categories e first vs s = (s', Ok out) ->
  categories_keyed (client_categories s) ->
  categories_keyed (client_categories s').
Proof.
  unfold insert_into_client_categories. intros H Hk. run.
  match goal with H : for_each client_categories_fkey _ _ = _ |- _ =>
    apply for_each_fkey_Ok in H; destruct H as [-> _] end.
  match goal with H : for_each (client_categories_put _) _ _ = _ |- _ =>
    apply (for_each_preserves _ (fun s => categories_keyed (client_categories s))
             _ _ _ _ (client_categories_put_keyed e) H Hk) end.
Qed.

Lemma clients_put_facts e v s s' r :
  clients_put e v s = (s', Ok r) ->
  s' = set_clients (clients s ++ [r]) s
  /\ rls (caller e) (clients_policy (auth_uid (caller e)) r) = true
  /\ Client.id r <> None
  /\ existsb (fun c => uuid_is (Client.id c) (Client.id r)) (clients s) = false.
Proof.
  unfold clients_put, clients_constraints. intros H. run.
  split; [reflexivity |]. split; [assumption |].
  split; [apply Some_not_None; assumption | assumption].
Qed.

Lemma keyed_insert_client e v s : keyed s -> keyed (fst (insert_client e v s)).
Proof.
  intros Hk. destruct (insert_client e v s) as [s' [c | err]] eqn:E; simpl.
  - unfold insert_client in E. apply statement_Ok in E.
    unfold insert_into_clients, create_default_categories in E. run.
    match goal with H : clients_put _ _ _ = _ |- _ =>
      apply clients_put_facts in H; destruct H as (-> & _ & Hid & Hpk) end.
    match goal with H : clients_fkey _ _ = _ |- _ => apply clients_fkey_state in H; subst end.
    match goal with H : insert_into_client_categories _ _ _ _ = _ |- _ =>
      pose proof (insert_into_client_categories_Ok _ _ _ _ _ _ H) as (_ & Hs & _);
      pose proof (insert_into_client_categories_keyed _ _ _ _ _ _ H) as Hc end.
    destruct Hk as (K1 & K2 & K3 & K4 & K5).
    specialize (Hc K2). subst. simpl in *.
    split; [apply primary_key_app; assumption |]. split; [exact Hc |].
    split; [exact K3 |]. split; assumption.
  - apply statement_Err in E. subst. exact Hk.
Qed.

Lemma keyed_update_clients e where_ set s :
  keyed s -> keyed (fst (update_clients e where_ set s)).
Proof.
  intros Hk. destruct (update_clients e where_ set s) as [s' [out | err]] eqn:E; simpl.
  - apply update_clients_Ok in E. destruct E as (t' & -> & Hid).
    destruct Hk as (K1 & K2 & K3 & K4 & K5).
    split; [simpl; exact (primary_key_ids _ _ _ Hid K1) |].
    simpl. split; [exact K2 |]. split; [exact K3 |]. split; assumption.
  - unfold update_clients in E. apply statement_Err in E. subst. exact Hk.
Qed.

Lemma keyed_delete_clients e where_ s :
  keyed s -> keyed (fst (delete_clients e where_ s)).
Proof.
  intros (K1 & K2 & K3 & K4 & K5). rewrite delete_clients_run. simpl.
  split; [apply primary_key_filter, K1 |].
  split; [apply categories_keyed_filter, K2 |].
  split; [apply primary_key_filter, K3 |].
  split; apply primary_key_filter; assumption.
Qed.

Lemma keyed_insert_client_categories e vs s :
  keyed s -> keyed (fst (insert_client_categories e vs s)).
Proof.
  intros Hk. destruct (insert_client_categories e vs s) as [s' [out | err]] eqn:E; simpl.
  - unfold insert_client_categories in E. apply statement_Ok in E.
    pose proof (insert_into_client_categories_Ok _ _ _ _ _ _ E) as (_ & Hs & _).
    pose proof (insert_into_client_categories_keyed _ _ _ _ _ _ E) as Hc.
    destruct Hk as (K1 & K2 & K3 & K4 & K5). specialize (Hc K2). subst. simpl in *.
    split; [exact K1 |]. split; [exact Hc |].
    split; [exact K3 |]. split; assumption.
  - apply statement_Err in E. subst. exact Hk.
Qed.

Lemma insert_into_tasks_facts e v s s' r :
  insert_into_tasks e v s = (s', Ok r) ->
  s' = set_tasks (tasks s ++ [r]) s
  /\ r = tasks_row e v
  /\ rls (caller e) (tasks_policy (auth_uid (caller e)) r) = true
  /\ Task.id r <> None
  /\ existsb (fun t => uuid_is (Task.id t) (Task.id r)) (tasks s) = false
  /\ (Task.client_id r = None
      \/ references (map Client.id (clients s)) (Task.client_id r) = true).
Proof.
  intros H. pose proof (insert_into_tasks_Ok _ _ _ _ _ H) as (Hr & _ & Hs).
  unfold insert_into_tasks in H. run.
  match goal with H : tasks_constraints _ _ = _ |- _ =>
    unfold tasks_constraints in H end.
  run.
  match goal with H : tasks_fkey _ _ = _ |- _ => unfold tasks_fkey in H end.
  run.
  split; [reflexivity |]. split; [reflexivity |]. split; [assumption |].
  split; [apply Some_not_None; assumption |]. split; [assumption |].
  match goal with Hx : is_null _ || references _ _ = true |- _ =>
    apply orb_true_iff in Hx; destruct Hx as [Hnull | Href] end.
  - left. destruct (Task.client_id (tasks_row e v)); [discriminate | reflexivity].
  - right. exact Href.
Qed.

Lemma keyed_insert_task e v s : keyed s -> keyed (fst (insert_task e v s)).
Proof.
  intros Hk. destruct (insert_task e v s) as [s' [c | err]] eqn:E; simpl.
  - unfold insert_task in E. apply statement_Ok in E.
    apply insert_into_tasks_facts in E. destruct E as (-> & _ & _ & Hid & Hpk & _).
    destruct Hk as (K1 & K2 & K3 & K4 & K5). simpl.
    split; [exact K1 |]. split; [exact K2 |].
    split; [apply primary_key_app; assumption |]. split; assumption.
  - apply statement_Err in E. subst. exact Hk.
Qed.

Lemma update_tasks_ids e where_ set s s' out :
  update_tasks e where_ set s = (s', Ok out) ->
  exists t', s' = set_tasks t' s /\ map Task.id t' = map Task.id (tasks s).
Proof.
  unfold update_tasks. intros H. run.
  match goal with H : update_rows _ _ _ _ = _ |- _ =>
    apply update_rows_Ok in H; [destruct H as [-> HT] | apply update_tasks_row_state] end.
  match goal with H : for_each _ _ _ = _ |- _ =>
    apply for_each_state in H; [subst | apply tasks_fkey_state] end.
  eexists. split; [reflexivity |].
  induction HT as [| r r' t t' Hr HT IH]; simpl; [reflexivity |].
  f_equal; [| exact IH].
  destruct (tasks_target e where_ r); [| subst; reflexivity].
  unfold update_tasks_row in Hr. run. reflexivity.
Qed.

Lemma keyed_update_tasks e where_ set s :
  keyed s -> keyed (fst (update_tasks e where_ set s)).
Proof.
  intros Hk. destruct (update_tasks e where_ set s) as [s' [out | err]] eqn:E; simpl.
  - apply update_tasks_ids in E. destruct E as (t' & -> & Hid).
    destruct Hk as (K1 & K2 & K3 & K4 & K5). simpl.
    split; [exact K1 |]. split; [exact K2 |].
    split; [exact (primary_key_ids _ _ _ Hid K3) |]. split; assumption.
  - unfold update_tasks in E. apply statement_Err in E. subst. exact Hk.
Qed.

Lemma keyed_delete_tasks e where_ s :
  keyed s -> keyed (fst (delete_tasks e where_ s)).
Proof.
  intros (K1 & K2 & K3 & K4 & K5). rewrite delete_tasks_run. simpl.
  split; [exact K1 |]. split; [exact K2 |].
  split; [apply primary_key_filter, K3 |].
  split; apply primary_key_filter; assumption.
Qed.

Lemma keyed_frame s s' :
  clients s' = clients s ->
  client_categories s' = client_categories s ->
  tasks s' = tasks s ->
  task_comments s' = task_comments s ->
  task_attachments s' = task_attachments s ->
  keyed s -> keyed s'.
Proof. unfold keyed. intros -> -> -> -> ->. tauto. Qed.

Lemma step_keyed s s' : step s s' -> keyed s -> keyed s'.
Proof.
  intros Hstep Hs. destruct Hstep.
  - revert Hs. apply keyed_frame; reflexivity.
  - apply keyed_insert_client, Hs.
  - apply keyed_update_clients, Hs.
  - apply keyed_delete_clients, Hs.
  - apply keyed_insert_client_categories, Hs.
  - apply keyed_insert_task, Hs.
  - apply keyed_update_tasks, Hs.
  - apply keyed_delete_tasks, Hs.
  - destruct (insert_task_comment e v s) as [s' [out | err]] eqn:E; simpl.
    + unfold insert_task_comment in E. run.
      destruct Hs as (K1 & K2 & K3 & K4 & K5).
      split; [exact K1 |]. split; [exact K2 |]. split; [exact K3 |].
      split; [| exact K5]. simpl.
      apply primary_key_app; [exact K4 | apply Some_not_None; assumption | assumption].
    + apply statement_Err in E. subst. exact Hs.
  - destruct (delete_task_comments e reads where_ s) as [s' [out | err]] eqn:E; simpl.
    + unfold delete_task_comments in E. run.
      destruct Hs as (K1 & K2 & K3 & K4 & K5).
      split; [exact K1 |]. split; [exact K2 |]. split; [exact K3 |].
      split; [| exact K5]. simpl. apply primary_key_filter, K4.
    + apply statement_Err in E. subst. exact Hs.
  - destruct (insert_task_attachment e v s) as [s' [out | err]] eqn:E; simpl.
    + unfold insert_task_attachment in E. run.
      destruct Hs as (K1 & K2 & K3 & K4 & K5).
      split; [exact K1 |]. split; [exact K2 |]. split; [exact K3 |].
      split; [exact K4 |]. simpl.
      apply primary_key_app; [exact K5 | apply Some_not_None; assumption | assumption].
    + apply statement_Err in E. subst. exact Hs.
  - destruct (delete_task_attachments e reads where_ s) as [s' [out | err]] eqn:E; simpl.
    + unfold delete_task_attachments in E. run.
      destruct Hs as (K1 & K2 & K3 & K4 & K5).
      split; [exact K1 |]. split; [exact K2 |]. split; [exact K3 |].
      split; [exact K4 |]. simpl. apply primary_key_filter, K5.
    + apply statement_Err in E. subst. exact Hs.
  - revert Hs. apply keyed_frame; reflexivity.
Qed.

Lemma keyed_of_reachable (s : store) : reachable s -> keyed s.
Proof.
  induction 1 as [| s s' _ IH Hstep].
  - repeat split; try apply primary_key_nil; try constructor; intros [].
  - exact (step_keyed s s' Hstep IH).
Qed.

(** X1.  In every reachable store the primary keys of clients,
    client_categories, tasks, task_comments and task_attachments hold (no
    row without an id, no two rows with the same id), no two category rows
    have the same (client_id, category), and every category row has a client
    and a tag among "tasks", "gtm", "recurring". *)
Theorem reachable_keyed (s : store) : reachable s -> keyed s.
Proof.
  intros Hreach. induction Hreach as [| s s' _ IH Hstep].
  - repeat split; try apply primary_key_nil; try constructor; intros [].
  - apply (step_keyed s s' Hstep). exact IH.
Qed.

Lemma reachable_crowded : reachable Scenario.crowded.
Proof.
  unfold Scenario.crowded. eapply reachable_step; [| apply step_insert_task].
  unfold Scenario.with_attachment.
  eapply reachable_step; [| apply step_insert_task_attachment].
  unfold Scenario.with_comment.
  eapply reachable_step; [| apply step_insert_task_comment].
  apply reachable_with_task.
Qed.

Lemma reachable_keyed_witness : keyed Scenario.crowded.
Proof. apply reachable_keyed, reachable_crowded. Defined.

(** ** References in reachable stores *)

Lemma references_survive {R : Type} (id : R -> option uuid) (p : R -> bool) (t : list R) fk :
  references (map id t) fk = true ->
  references (map id (filter p t)) fk = false ->
  references (map id (filter (fun r => negb (p r)) t)) fk = true.
Proof.
  intros Hin Hout. apply references_true in Hin. destruct Hin as (a & -> & Hin).
  apply references_true. exists a. split; [reflexivity |].
  apply in_map_iff in Hin. destruct Hin as (r & Hr & Hin).
  apply in_map_iff. exists r. split; [exact Hr |].
  apply filter_In. split; [exact Hin |].
  destruct (p r) eqn:Ep; [| reflexivity]. exfalso.
  assert (Ht : references (map id (filter p t)) (Some a) = true).
  { apply references_true. exists a. split; [reflexivity |].
    rewrite <- Hr. apply in_map. apply filter_In. split; assumption. }
  congruence.
Qed.

Lemma update_rows_out {R : Type} (target : R -> bool) (upd : R -> M R) t s s' tu :
  (forall r s1 s2 x, upd r s1 = (s2, x) -> s2 = s1) ->
  update_rows target upd t s = (s', Ok tu) ->
  Forall (fun r' => exists r, In r t /\ target r = true /\ upd r s = (s, Ok r')) (snd tu)
  /\ Forall (fun r' => (In r' t /\ target r' = false) \/ In r' (snd tu)) (fst tu).
Proof.
  intros Hupd. unfold update_rows. intros H. run. simpl.
  match goal with H : for_each _ _ _ = _ |- _ => rename H into HF end.
  match type of HF with for_each _ _ _ = (?s1, Ok ?l) => revert s1 l HF end.
  induction t as [| r t IH]; intros s1 rs HF; simpl in HF.
  - run. split; constructor.
  - run. destruct (target r) eqn:Et.
    + run. match goal with H : upd _ _ = _ |- _ =>
        pose proof (Hupd _ _ _ _ H); subst; rename H into Hr end.
      match goal with H : for_each _ _ _ = _ |- _ =>
        apply IH in H; destruct H as [H1 H2] end.
      simpl. split.
      * constructor; [exists r; split; [left; reflexivity | split; assumption] |].
        revert H1. apply Forall_impl. intros r' (r0 & Hin & Ht & Hu).
        exists r0. split; [right; exact Hin | split; assumption].
      * constructor; [right; left; reflexivity |].
        revert H2. apply Forall_impl. intros r' [[Hin Ht] | Hin];
          [left; split; [right; exact Hin | exact Ht] | right; right; exact Hin].
    + run. match goal with H : for_each _ _ _ = _ |- _ =>
        apply IH in H; destruct H as [H1 H2] end.
      simpl. split.
      * revert H1. apply Forall_impl. intros r' (r0 & Hin & Ht & Hu).
        exists r0. split; [right; exact Hin | split; assumption].
      * constructor; [left; split; [left; reflexivity | exact Et] |].
        revert H2. apply Forall_impl. intros r' [[Hin Ht] | Hin];
          [left; split; [right; exact Hin | exact Ht] | right; exact Hin].
Qed.

Lemma tasks_fkey_Ok r s s' u :
  tasks_fkey r s = (s', Ok u) ->
  Task.client_id r = None
  \/ references (map Client.id (clients s)) (Task.client_id r) = true.
Proof.
  unfold tasks_fkey. intros H. run.
  match goal with Hx : is_null _ || references _ _ = true |- _ =>
    apply orb_true_iff in Hx; destruct Hx as [Hnull | Href] end.
  - left. destruct (Task.client_id r); [discriminate | reflexivity].
  - right. exact Href.
Qed.

Lemma for_each_tasks_fkey_Ok l s s' us :
  for_each tasks_fkey l s = (s', Ok us) ->
  Forall (fun r => Task.client_id r = None
                   \/ references (map Client.id (clients s)) (Task.client_id r) = true) l.
Proof.
  revert s us. induction l as [| r l IH]; intros s us H; simpl in H; [constructor |].
  run.
  match goal with H : tasks_fkey _ _ = _ |- _ =>
    pose proof (tasks_fkey_state _ _ _ _ H); subst;
    apply tasks_fkey_Ok in H; rename H into Hr end.
  match goal with H : for_each _ _ _ = _ |- _ => apply IH in H end.
  constructor; assumption.
Qed.

Lemma referential_frame s s' :
  clients s' = clients s ->
  tasks s' = tasks s ->
  task_comments s' = task_comments s ->
  task_attachments s' = task_attachments s ->
  referential s -> referential s'.
Proof. unfold referential. intros -> -> -> ->. tauto. Qed.

Lemma referential_more_clients s l :
  map Client.id l = map Client.id (clients s) \/ (exists r, l = clients s ++ [r]) ->
  referential s -> referential (set_clients l s).
Proof.
  intros Hl (R1 & R2 & R3). split; [| split; assumption]. simpl.
  revert R1. apply Forall_impl. intros t [Hn | Hr]; [left; exact Hn | right].
  destruct Hl as [-> | [r ->]]; [exact Hr |].
  rewrite map_app. apply references_app. exact Hr.
Qed.

Lemma referential_insert_client e v s :
  referential s -> referential (fst (insert_client e v s)).
Proof.
  intros Hr. destruct (insert_client e v s) as [s' [c | err]] eqn:E; simpl.
  - unfold insert_client in E. apply statement_Ok in E.
    apply insert_into_clients_Ok in E. destruct E as (_ & -> & _).
    apply (referential_frame (set_clients (clients s ++ [c]) s)); try reflexivity.
    apply referential_more_clients; [right; exists c; reflexivity | exact Hr].
  - apply statement_Err in E. subst. exact Hr.
Qed.

Lemma referential_update_clients e where_ set s :
  referential s -> referential (fst (update_clients e where_ set s)).
Proof.
  intros Hr. destruct (update_clients e where_ set s) as [s' [out | err]] eqn:E; simpl.
  - apply update_clients_Ok in E. destruct E as (t' & -> & Hid).
    apply referential_more_clients; [left; exact Hid | exact Hr].
  - unfold update_clients in E. apply statement_Err in E. subst. exact Hr.
Qed.

Lemma referential_delete_clients e where_ s :
  referential s -> referential (fst (delete_clients e where_ s)).
Proof.
  intros (R1 & R2 & R3). rewrite delete_clients_run. simpl. unfold referential. simpl.
  rewrite !Forall_forall in *. split; [| split].
  - intros t Ht. apply filter_In in Ht. destruct Ht as [Ht Hn].
    apply negb_true_iff in Hn. destruct (R1 t Ht) as [Hnull | Href]; [left; exact Hnull |].
    right. apply references_survive; assumption.
  - intros m Hm. apply filter_In in Hm. destruct Hm as [Hm Hn].
    apply negb_true_iff in Hn. apply references_survive; [apply R2, Hm | exact Hn].
  - intros a Ha. apply filter_In in Ha. destruct Ha as [Ha Hn].
    apply negb_true_iff in Hn. apply references_survive; [apply R3, Ha | exact Hn].
Qed.

Lemma referential_insert_task e v s :
  referential s -> referential (fst (insert_task e v s)).
Proof.
  intros (R1 & R2 & R3). destruct (insert_task e v s) as [s' [c | err]] eqn:E; simpl.
  - unfold insert_task in E. apply statement_Ok in E.
    apply insert_into_tasks_facts in E. destruct E as (-> & _ & _ & _ & _ & Hfk).
    unfold referential. simpl. split; [| split].
    + apply Forall_app. split; [exact R1 | constructor; [exact Hfk | constructor]].
    + revert R2. apply Forall_impl. intros m. rewrite map_app. apply references_app.
    + revert R3. apply Forall_impl. intros a. rewrite map_app. apply references_app.
  - apply statement_Err in E. subst. split; [| split]; assumption.
Qed.

Lemma referential_update_tasks e where_ set s :
  referential s -> referential (fst (update_tasks e where_ set s)).
Proof.
  intros (R1 & R2 & R3).
  destruct (update_tasks e where_ set s) as [s' [out | err]] eqn:E; simpl.
  - destruct (update_tasks_ids _ _ _ _ _ _ E) as (t' & Hs & Hid).
    unfold update_tasks in E. run.
    match goal with H : update_rows _ _ _ _ = _ |- _ =>
      pose proof (update_rows_Ok _ _ _ _ _ _ (update_tasks_row_state e set) H) as [-> _];
      apply update_rows_out in H; [destruct H as [_ Hfst] | apply update_tasks_row_state] end.
    match goal with H : for_each tasks_fkey _ _ = _ |- _ =>
      pose proof (for_each_state _ _ _ _ _ tasks_fkey_state H); subst;
      apply for_each_tasks_fkey_Ok in H; rename H into Hfk end.
    simpl in Hfk.
    match goal with Hx : set_tasks t' s = set_tasks _ s |- _ =>
      apply (f_equal tasks) in Hx; simpl in Hx; subst t' end.
    unfold referential. simpl. rewrite Hid. split; [| split; assumption].
    rewrite Forall_forall in *. intros r' Hr'.
    destruct (Hfst r' Hr') as [[Hin _] | Hin]; [apply R1, Hin | apply Hfk, Hin].
  - unfold update_tasks in E. apply statement_Err in E. subst. split; [| split]; assumption.
Qed.

Lemma referential_delete_tasks e where_ s :
  referential s -> referential (fst (delete_tasks e where_ s)).
Proof.
  intros (R1 & R2 & R3). rewrite delete_tasks_run. simpl. unfold referential. simpl.
  rewrite !Forall_forall in *. split; [| split].
  - intros t Ht. apply filter_In in Ht. apply R1, Ht.
  - intros m Hm. apply filter_In in Hm. destruct Hm as [Hm Hn].
    apply negb_true_iff in Hn. apply references_survive; [apply R2, Hm | exact Hn].
  - intros a Ha. apply filter_In in Ha. destruct Ha as [Ha Hn].
    apply negb_true_iff in Hn. apply references_survive; [apply R3, Ha | exact Hn].
Qed.

Lemma step_referential s s' : step s s' -> referential s -> referential s'.
Proof.
  intros Hstep Hs. destruct Hstep.
  - revert Hs. apply referential_frame; reflexivity.
  - apply referential_insert_client, Hs.
  - apply referential_update_clients, Hs.
  - apply referential_delete_clients, Hs.
  - destruct (insert_client_categories e vs s) as [s' [out | err]] eqn:E; simpl.
    + unfold insert_client_categories in E. apply statement_Ok in E.
      apply insert_into_client_categories_Ok in E. destruct E as (_ & -> & _).
      revert Hs. apply referential_frame; reflexivity.
    + apply statement_Err in E. subst. exact Hs.
  - apply referential_insert_task, Hs.
  - apply referential_update_tasks, Hs.
  - apply referential_delete_tasks, Hs.
  - destruct (insert_task_comment e v s) as [s' [out | err]] eqn:E; simpl.
    + unfold insert_task_comment in E. run. destruct Hs as (R1 & R2 & R3).
      split; [exact R1 | split; [| exact R3]]. simpl.
      apply Forall_app. split; [exact R2 | constructor; [assumption | constructor]].
    + apply statement_Err in E. subst. exact Hs.
  - destruct (delete_task_comments e reads where_ s) as [s' [out | err]] eqn:E; simpl.
    + unfold delete_task_comments in E. run. destruct Hs as (R1 & R2 & R3).
      split; [exact R1 | split; [| exact R3]]. simpl. apply Forall_filter, R2.
    + apply statement_Err in E. subst. exact Hs.
  - destruct (insert_task_attachment e v s) as [s' [out | err]] eqn:E; simpl.
    + unfold insert_task_attachment in E. run. destruct Hs as (R1 & R2 & R3).
      split; [exact R1 | split; [exact R2 |]]. simpl.
      apply Forall_app. split; [exact R3 | constructor; [assumption | constructor]].
    + apply statement_Err in E. subst. exact Hs.
  - destruct (delete_task_attachments e reads where_ s) as [s' [out | err]] eqn:E; simpl.
    + unfold delete_task_attachments in E. run. destruct Hs as (R1 & R2 & R3).
      split; [exact R1 | split; [exact R2 |]]. simpl. apply Forall_filter, R3.
    + apply statement_Err in E. subst. exact Hs.
  - revert Hs. apply referential_frame; reflexivity.
Qed.

(** X2.  In every reachable store each task has no client or the id of a
    client that exists, and each comment and each attachment has the id of a
    task that exists: the foreign keys with their cascades leave no dangling
    reference. *)
Theorem reachable_referential (s : store) : reachable s -> referential s.
Proof.
  induction 1 as [| s s' _ IH Hstep].
  - split; [| split]; constructor.
  - exact (step_referential s s' Hstep IH).
Qed.

Lemma reachable_referential_witness :
  referential Scenario.crowded
  /\ referential
       (fst (delete_clients Scenario.as_alice (client_id_is 1000%N) Scenario.crowded)).
Proof.
  split.
  - apply reachable_referential, reachable_crowded.
  - apply reachable_referential.
    eapply reachable_step; [apply reachable_crowded | apply step_delete_clients].
Defined.

(** ** The three categories of every client *)

Lemma NoDup_map_inj {A B : Type} (f : A -> B) (l : list A) a b :
  NoDup (map f l) -> In a l -> In b l -> f a = f b -> a = b.
Proof.
  induction l as [| x l IH]; simpl; intros Hn Ha Hb Hf; [destruct Ha |].
  inversion Hn as [| y l' Hx Hl]; subst.
  destruct Ha as [-> | Ha], Hb as [-> | Hb].
  - reflexivity.
  - exfalso. apply Hx. rewrite Hf. apply in_map, Hb.
  - exfalso. apply Hx. rewrite <- Hf. apply in_map, Ha.
  - apply IH; assumption.
Qed.

Lemma has_default_more s s' c :
  (forall k, In k (client_categories s) -> In k (client_categories s')) ->
  has_default_categories s c -> has_default_categories s' c.
Proof.
  intros Hsub H tag Htag. destruct (H tag Htag) as (k & Hk & Hrest).
  exists k. split; [apply Hsub, Hk | exact Hrest].
Qed.

Lemma has_default_id s c c' :
  Client.id c' = Client.id c ->
  has_default_categories s c -> has_default_categories s c'.
Proof. unfold has_default_categories. intros ->. tauto. Qed.

Lemma provisioned_frame s s' :
  clients s' = clients s ->
  client_categories s' = client_categories s ->
  provisioned s -> provisioned s'.
Proof.
  unfold provisioned, has_default_categories. intros -> ->. tauto.
Qed.

Lemma provisioned_insert_client e v s :
  consistent s -> provisioned s -> provisioned (fst (insert_client e v s)).
Proof.
  intros Hc Hp. destruct (insert_client e v s) as [s' [c | err]] eqn:E; simpl.
  - destruct (insert_client_Ok e v s s' c Hc E) as (_ & Happ & Hnew & _).
    unfold insert_client in E. apply statement_Ok in E.
    apply insert_into_clients_Ok in E. destruct E as (_ & Hs & _).
    intros c' Hc'. rewrite Hs in Hc'. simpl in Hc'. apply in_app_or in Hc'.
    destruct Hc' as [Hc' | [<- | []]].
    + apply (has_default_more s); [| apply Hp, Hc'].
      intros k Hk. rewrite Happ. apply in_or_app. left. exact Hk.
    + intros tag Htag.
      assert (Hk : exists k, In k (categories_of s' c)
                             /\ ClientCategory.category k = Some tag).
      { rewrite Hnew. simpl in Htag.
        destruct Htag as [<- | [<- | [<- | []]]].
        - exists (client_categories_row e 1 (default_category c "tasks")).
          split; [simpl; auto | reflexivity].
        - exists (client_categories_row e 2 (default_category c "gtm")).
          split; [simpl; auto | reflexivity].
        - exists (client_categories_row e 3 (default_category c "recurring")).
          split; [simpl; auto | reflexivity]. }
      destruct Hk as (k & Hk & Hcat). unfold categories_of in Hk.
      apply filter_In in Hk. destruct Hk as [Hin Hid].
      exists k. repeat split; assumption.
  - apply statement_Err in E. subst. exact Hp.
Qed.

Lemma provisioned_update_clients e where_ set s :
  provisioned s -> provisioned (fst (update_clients e where_ set s)).
Proof.
  intros Hp. destruct (update_clients e where_ set s) as [s' [out | err]] eqn:E; simpl.
  - apply update_clients_Ok in E. destruct E as (t' & -> & Hid).
    intros c' Hc'. simpl in Hc'.
    assert (Hin : In (Client.id c') (map Client.id (clients s)))
      by (rewrite <- Hid; apply in_map, Hc').
    apply in_map_iff in Hin. destruct Hin as (c & Hc & Hin).
    apply (has_default_id _ c c'); [symmetry; exact Hc |].
    apply (has_default_more s); [intros k Hk; exact Hk | apply Hp, Hin].
  - unfold update_clients in E. apply statement_Err in E. subst. exact Hp.
Qed.

Lemma provisioned_delete_clients e where_ s :
  keyed s -> provisioned s -> provisioned (fst (delete_clients e where_ s)).
Proof.
  intros ((Hn & _) & _) Hp. rewrite delete_clients_run. simpl.
  intros c' Hc'. simpl in Hc'. apply filter_In in Hc'. destruct Hc' as [Hc' Ht].
  apply negb_true_iff in Ht.
  intros tag Htag. destruct (Hp c' Hc' tag Htag) as (k & Hk & Hid & Hcat).
  exists k. split; [| split; assumption]. simpl.
  apply filter_In. split; [exact Hk |]. apply negb_true_iff.
  destruct (references (map Client.id (filter (clients_target e where_) (clients s)))
                       (ClientCategory.client_id k)) eqn:Er; [| reflexivity].
  exfalso. apply references_true in Er. destruct Er as (a & Ha & Hin).
  apply in_map_iff in Hin. destruct Hin as (g & Hg & Hin).
  apply filter_In in Hin. destruct Hin as [Hin Hgt].
  apply uuid_is_true in Hid. destruct Hid as (b & Hb & Hc).
  assert (g = c').
  { apply (NoDup_map_inj Client.id (clients s)); try assumption. congruence. }
  subst g. congruence.
Qed.

Lemma step_provisioned s s' :
  step s s' -> consistent s -> keyed s -> provisioned s -> provisioned s'.
Proof.
  intros Hstep Hc Hk Hs. destruct Hstep.
  - revert Hs. apply provisioned_frame; reflexivity.
  - apply provisioned_insert_client; assumption.
  - apply provisioned_update_clients, Hs.
  - apply provisioned_delete_clients; assumption.
  - destruct (insert_client_categories e vs s) as [s' [out | err]] eqn:E; simpl.
    + unfold insert_client_categories in E. apply statement_Ok in E.
      apply insert_into_client_categories_Ok in E. destruct E as (_ & -> & _).
      intros c Hc'. simpl in Hc'. apply (has_default_more s); [| apply Hs, Hc'].
      intros k Hin. simpl. apply in_or_app. left. exact Hin.
    + apply statement_Err in E. subst. exact Hs.
  - destruct (insert_task e v s) as [s' [out | err]] eqn:E; simpl.
    + unfold insert_task in E. apply statement_Ok in E.
      apply insert_into_tasks_Ok in E. destruct E as (_ & _ & ->).
      revert Hs. apply provisioned_frame; reflexivity.
    + apply statement_Err in E. subst. exact Hs.
  - destruct (update_tasks e where_ set s) as [s' [out | err]] eqn:E; simpl.
    + apply update_tasks_ids in E. destruct E as (t' & -> & _).
      revert Hs. apply provisioned_frame; reflexivity.
    + unfold update_tasks in E. apply statement_Err in E. subst. exact Hs.
  - rewrite delete_tasks_run. simpl. revert Hs. apply provisioned_frame; reflexivity.
  - destruct (insert_task_comment e v s) as [s' [out | err]] eqn:E; simpl.
    + unfold insert_task_comment in E. run.
      revert Hs. apply provisioned_frame; reflexivity.
    + apply statement_Err in E. subst. exact Hs.
  - destruct (delete_task_comments e reads where_ s) as [s' [out | err]] eqn:E; simpl.
    + unfold delete_task_comments in E. run.
      revert Hs. apply provisioned_frame; reflexivity.
    + apply statement_Err in E. subst. exact Hs.
  - destruct (insert_task_attachment e v s) as [s' [out | err]] eqn:E; simpl.
    + unfold insert_task_attachment in E. run.
      revert Hs. apply provisioned_frame; reflexivity.
    + apply statement_Err in E. subst. exact Hs.
  - destruct (delete_task_attachments e reads where_ s) as [s' [out | err]] eqn:E; simpl.
    + unfold delete_task_attachments in E. run.
      revert Hs. apply provisioned_frame; reflexivity.
    + apply statement_Err in E. subst. exact Hs.
  - revert Hs. apply provisioned_frame; reflexivity.
Qed.

Lemma reachable_provisioned s : reachable s -> provisioned s.
Proof.
  induction 1 as [| s s' Hr IH Hstep].
  - intros c [].
  - apply (step_provisioned s s' Hstep); [apply reachable_consistent, Hr
                                         | apply keyed_of_reachable, Hr | exact IH].
Qed.

(** X3.  In every reachable store each client has exactly one category row
    per tag: the tags of its category rows are "tasks", "gtm" and
    "recurring", each once, in some order. *)
Theorem reachable_three_categories (s : store) (c : Client.row) :
  reachable s ->
  In c (clients s) ->
  Permutation (map ClientCategory.category (categories_of s c))
              [Some "tasks"; Some "gtm"; Some "recurring"].
Proof.
  intros Hr Hc.
  destruct (keyed_of_reachable s Hr) as (_ & (_ & Hn & Hck) & _).
  pose proof (reachable_provisioned s Hr c Hc) as Hp.
  apply NoDup_Permutation.
  - apply (NoDup_map_filter category_key
             (fun k => uuid_is (ClientCategory.client_id k) (Client.id c))) in Hn.
    fold (categories_of s c) in Hn.
    assert (Hsame : forall k, In k (categories_of s c) ->
              category_key k = (Client.id c, ClientCategory.category k)).
    { intros k Hk. unfold categories_of in Hk. apply filter_In in Hk.
      destruct Hk as [_ Hk]. apply uuid_is_true in Hk. destruct Hk as (a & Ha & Hb).
      unfold category_key. congruence. }
    assert (Hm : map category_key (categories_of s c)
                 = map (pair (Client.id c))
                       (map ClientCategory.category (categories_of s c))).
    { rewrite map_map. apply map_ext_in. exact Hsame. }
    rewrite Hm in Hn. apply NoDup_map_inv in Hn. exact Hn.
  - repeat constructor; simpl; intuition discriminate.
  - intros x. split.
    + intros Hx. apply in_map_iff in Hx. destruct Hx as (k & <- & Hk).
      unfold categories_of in Hk. apply filter_In in Hk. destruct Hk as [Hk _].
      rewrite Forall_forall in Hck. destruct (Hck k Hk) as [(tag & -> & Htag) _].
      simpl in Htag. simpl. intuition congruence.
    + intros Hx.
      assert (Htag : exists tag, x = Some tag /\ In tag categories).
      { simpl in Hx. destruct Hx as [<- | [<- | [<- | []]]];
          eexists; (split; [reflexivity |]); simpl; auto. }
      destruct Htag as (tag & -> & Htag).
      destruct (Hp tag Htag) as (k & Hk & Hid & Hcat).
      rewrite <- Hcat. apply in_map. unfold categories_of.
      apply filter_In. split; assumption.
Qed.

Lemma reachable_three_categories_witness :
  Permutation (map ClientCategory.category (categories_of Scenario.crowded Scenario.acme))
              [Some "tasks"; Some "gtm"; Some "recurring"].
Proof.
  apply reachable_three_categories; [apply reachable_crowded | left; reflexivity].
Defined.

Lemma for_each_put_unique e rows s s' us :
  for_each (client_categories_put e) rows s = (s', Ok us) ->
  Forall (fun r => one_of categories (ClientCategory.category r)
                   /\ existsb (same_client_category r) (client_categories s) = false)
         rows.
Proof.
  revert s us. induction rows as [| r rows IH]; intros s us H; simpl in H; [constructor |].
  run.
  match goal with H : client_categories_put _ _ _ = _ |- _ =>
    apply client_categories_put_Ok in H; destruct H as (-> & Hc & Hu) end.
  match goal with H : for_each _ _ _ = _ |- _ => apply IH in H end.
  constructor; [split; assumption |].
  match goal with H : Forall _ rows |- _ => revert H end.
  apply Forall_impl. intros k [Hk He]. split; [exact Hk |].
  simpl in He. rewrite existsb_app in He. apply orb_false_iff in He. apply He.
Qed.

Lemma in_combine_seq {A : Type} (l : list A) (a : A) (first : nat) :
  In a l -> exists n, In (n, a) (combine (seq first (List.length l)) l).
Proof.
  revert first. induction l as [| x l IH]; intros first H; [destruct H |].
  simpl. destruct H as [-> | H].
  - exists first. left. reflexivity.
  - destruct (IH (S first) H) as [n Hn]. exists n. right. exact Hn.
Qed.

(** X4.  In a reachable store no further category row can be inserted for a
    client that exists: an INSERT INTO client_categories with a row whose
    client_id is the id of a client raises, whoever the caller, and leaves
    the store as it was. *)
Theorem no_fourth_category (e : env) (vs : list ClientCategory.values) (s : store)
    (v : ClientCategory.values) (c : Client.row) :
  reachable s ->
  In c (clients s) ->
  In v vs ->
  default NULL (ClientCategory.v_client_id v) = Client.id c ->
  exists err, insert_client_categories e vs s = (s, Err err).
Proof.
  intros Hr Hc Hv Hid.
  destruct (insert_client_categories e vs s) as [s' [out | err]] eqn:E.
  - exfalso. unfold insert_client_categories in E. apply statement_Ok in E.
    unfold insert_into_client_categories in E. run.
    match goal with H : for_each (client_categories_put _) _ _ = _ |- _ =>
      apply for_each_put_unique in H; rename H into Hu end.
    destruct (in_combine_seq vs v 0 Hv) as [n Hn].
    rewrite Forall_forall in Hu.
    destruct (Hu (client_categories_row e n v)) as [(tag & Htag & Hin) He].
    { apply in_map_iff. exists (n, v). split; [reflexivity | exact Hn]. }
    destruct (reachable_provisioned s Hr c Hc tag Hin) as (k & Hk & Hkid & Hcat).
    rewrite existsb_none in He. specialize (He k Hk).
    unfold same_client_category in He. simpl in He, Htag.
    rewrite Hid, Hkid, Hcat, Htag in He. simpl in He.
    rewrite String.eqb_refl in He. discriminate He.
  - exists err. apply statement_Err in E. subst. reflexivity.
Qed.

(** alice tries to add a category row "gtm" to her client Acme. *)
Lemma no_fourth_category_witness :
  exists err,
    insert_client_categories Scenario.alice_again
      [ {| ClientCategory.v_id := DEFAULT; ClientCategory.v_client_id := V 1000%N;
           ClientCategory.v_category := V "gtm"; ClientCategory.v_created_at := DEFAULT |} ]
      Scenario.with_acme
    = (Scenario.with_acme, Err err).
Proof.
  eapply no_fourth_category with (c := Scenario.acme).
  - apply reachable_with_acme.
  - left. reflexivity.
  - left. reflexivity.
  - reflexivity.
Defined.

(** ** Isolation between identities *)

Lemma owns_task_true e u s task_id :
  caller e = authenticated u ->
  owns_task e s task_id = true ->
  exists t, In t (tasks s)
            /\ uuid_is (Task.id t) task_id = true
            /\ owner_is u (Task.user_id t) = true.
Proof.
  intros He H. unfold owns_task, visible_tasks in H. rewrite He in H. simpl in H.
  apply existsb_exists in H. destruct H as (t & Hin & Ht).
  apply filter_In in Hin. destruct Hin as [Hin Hp].
  apply andb_true_iff in Ht. destruct Ht as [Hid _].
  exists t. split; [exact Hin |]. split; [exact Hid | exact Hp].
Qed.

Lemma client_categories_policy_true e u s k :
  caller e = authenticated u ->
  client_categories_policy e s k = true ->
  exists c, In c (clients s)
            /\ uuid_is (Client.id c) (ClientCategory.client_id k) = true
            /\ owner_is u (Client.user_id c) = true.
Proof.
  intros He H. unfold client_categories_policy, visible_clients in H.
  rewrite He in H. simpl in H.
  apply existsb_exists in H. destruct H as (c & Hin & Hc).
  apply filter_In in Hin. destruct Hin as [Hin Hp].
  apply andb_true_iff in Hc. destruct Hc as [Hid _].
  exists c. split; [exact Hin |]. split; [exact Hid | exact Hp].
Qed.

(** X5.  What an authenticated caller reads is theirs: a SELECT on clients
    or tasks returns only rows whose user_id is the caller, and all of those
    that the WHERE clause selects; a SELECT on client_categories returns
    only rows of a client of the caller; a SELECT on task_comments or
    task_attachments returns only rows of a task of the caller.  No SELECT
    changes the store. *)
Theorem select_returns_own_rows (e : env) (u : uuid) (s : store) :
  caller e = authenticated u ->
  (forall where_,
      exists out,
        select_clients e where_ s = (s, Ok out)
        /\ Forall (fun c => owner_is u (Client.user_id c) = true) out
        /\ forall c, In c (clients s) -> where_ c = true ->
                     owner_is u (Client.user_id c) = true -> In c out)
  /\ (forall where_,
         exists out,
           select_tasks e where_ s = (s, Ok out)
           /\ Forall (fun t => owner_is u (Task.user_id t) = true) out
           /\ forall t, In t (tasks s) -> where_ t = true ->
                        owner_is u (Task.user_id t) = true -> In t out)
  /\ (forall where_,
         exists out,
           select_client_categories e where_ s = (s, Ok out)
           /\ Forall (fun k => exists c,
                          In c (clients s)
                          /\ uuid_is (Client.id c) (ClientCategory.client_id k) = true
                          /\ owner_is u (Client.user_id c) = true) out)
  /\ (forall where_,
         exists out,
           select_task_comments e where_ s = (s, Ok out)
           /\ Forall (fun m => exists t,
                          In t (tasks s)
                          /\ uuid_is (Task.id t) (TaskComment.task_id m) = true
                          /\ owner_is u (Task.user_id t) = true) out)
  /\ (forall where_,
         exists out,
           select_task_attachments e where_ s = (s, Ok out)
           /\ Forall (fun a => exists t,
                          In t (tasks s)
                          /\ uuid_is (Task.id t) (TaskAttachment.task_id a) = true
                          /\ owner_is u (Task.user_id t) = true) out).
Proof.
  intros He. split; [| split; [| split; [| split]]]; intros where_; eexists;
    (split; [reflexivity |]).
  - split.
    + rewrite Forall_forall. intros c Hc. apply filter_In in Hc. destruct Hc as [_ Hc].
      unfold clients_target in Hc. rewrite He in Hc. apply andb_true_iff in Hc. apply Hc.
    + intros c Hin Hw Ho. apply filter_In. split; [exact Hin |].
      unfold clients_target. rewrite He, Hw. exact Ho.
  - split.
    + rewrite Forall_forall. intros t Ht. apply filter_In in Ht. destruct Ht as [_ Ht].
      unfold tasks_target in Ht. rewrite He in Ht. apply andb_true_iff in Ht. apply Ht.
    + intros t Hin Hw Ho. apply filter_In. split; [exact Hin |].
      unfold tasks_target. rewrite He, Hw. exact Ho.
  - rewrite Forall_forall. intros k Hk. apply filter_In in Hk. destruct Hk as [_ Hk].
    apply andb_true_iff in Hk. destruct Hk as [_ Hk]. rewrite He in Hk.
    apply (client_categories_policy_true e u s k He Hk).
  - rewrite Forall_forall. intros m Hm. apply filter_In in Hm. destruct Hm as [_ Hm].
    apply andb_true_iff in Hm. destruct Hm as [_ Hm]. rewrite He in Hm.
    apply (owns_task_true e u s _ He Hm).
  - rewrite Forall_forall. intros a Ha. apply filter_In in Ha. destruct Ha as [_ Ha].
    apply andb_true_iff in Ha. destruct Ha as [_ Ha]. rewrite He in Ha.
    apply (owns_task_true e u s _ He Ha).
Qed.

(** bob sees his own task and not alice's, and none of the comments. *)
Lemma select_returns_own_rows_witness :
  select_tasks Scenario.as_bob (fun _ => true) Scenario.crowded
  = (Scenario.crowded, Ok [Scenario.bobs_task])
  /\ exists out,
       select_task_comments Scenario.as_bob (fun _ => true) Scenario.crowded
       = (Scenario.crowded, Ok out)
       /\ Forall (fun m => exists t,
                      In t (tasks Scenario.crowded)
                      /\ uuid_is (Task.id t) (TaskComment.task_id m) = true
                      /\ owner_is Scenario.bob (Task.user_id t) = true) out.
Proof.
  destruct (select_returns_own_rows Scenario.as_bob Scenario.bob Scenario.crowded eq_refl)
    as (_ & _ & _ & Hcomments & _).
  split; [reflexivity | apply Hcomments].
Defined.

(** Rows of other owners pass through an UPDATE untouched. *)
Lemma others_untouched {R : Type} (own target : R -> bool) (upd : R -> M R) s t t' :
  (forall r, target r = true -> own r = true) ->
  (forall r r', target r = true -> upd r s = (s, Ok r') -> own r' = true) ->
  Forall2 (fun r r' => if target r then upd r s = (s, Ok r') else r' = r) t t' ->
  filter (fun r => negb (own r)) t' = filter (fun r => negb (own r)) t.
Proof.
  intros Ht Hu H. induction H as [| r r' t t' Hr _ IH]; simpl; [reflexivity |].
  destruct (target r) eqn:Er.
  - rewrite (Ht r Er), (Hu r r' Er Hr). simpl. exact IH.
  - subst r'. destruct (own r); simpl; [exact IH | f_equal; exact IH].
Qed.

Lemma update_tasks_row_Ok e u set r s r' :
  caller e = authenticated u ->
  update_tasks_row e set r s = (s, Ok r') ->
  r' = tasks_assign set r /\ owner_is u (Task.user_id r') = true.
Proof.
  intros He H. unfold update_tasks_row in H. run.
  split; [reflexivity |].
  match goal with Hx : rls _ _ = true |- _ => rewrite He in Hx; exact Hx end.
Qed.

Lemma update_clients_row_Ok e u set r s r' :
  caller e = authenticated u ->
  update_clients_row e set r s = (s, Ok r') ->
  r' = clients_assign set r /\ owner_is u (Client.user_id r') = true.
Proof.
  intros He H. unfold update_clients_row in H. run.
  split; [reflexivity |].
  match goal with Hx : rls _ _ = true |- _ => rewrite He in Hx; exact Hx end.
Qed.

Lemma kept_or_referenced {R : Type} (keys : list (option uuid)) (fk : R -> option uuid)
    (t : list R) (r : R) :
  In r t ->
  In r (filter (fun x => negb (references keys (fk x))) t) \/ references keys (fk r) = true.
Proof.
  intros Hin. destruct (references keys (fk r)) eqn:E; [right; reflexivity | left].
  apply filter_In. split; [exact Hin | rewrite E; reflexivity].
Qed.

Lemma gone_key {R : Type} (id : R -> option uuid) (gone : list R) (fk : option uuid) :
  references (map id gone) fk = true ->
  exists r, In r gone /\ uuid_is (id r) fk = true.
Proof.
  unfold references. intros H. apply existsb_exists in H. destruct H as (k & Hk & Hid).
  apply in_map_iff in Hk. destruct Hk as (r & <- & Hr). exists r. split; assumption.
Qed.

(** X6.  In the table it names, an UPDATE or a DELETE of an authenticated
    caller on tasks or on clients reaches only rows of the caller.  After an
    UPDATE that succeeds the rows of the other owners in that table are what
    they were, every row that was updated still belongs to the caller and no
    other table is changed; an UPDATE that raises changes nothing.  A DELETE
    removes only rows of the caller from the table it names.  Beyond that
    table the cascades apply whoever owns the rows: a DELETE on tasks leaves
    clients and category rows alone and removes only comments and
    attachments of a task of the caller; a DELETE on clients removes only
    category rows and tasks that reference a client of the caller (such a
    task can be another user's), and only comments and attachments of such
    a task. *)
Theorem writes_touch_own_rows (e : env) (u : uuid) (s : store) :
  caller e = authenticated u ->
  (forall where_ set s' out,
      update_tasks e where_ set s = (s', Ok out) ->
      Forall (fun t => owner_is u (Task.user_id t) = true) out
      /\ filter (fun t => negb (owner_is u (Task.user_id t))) (tasks s')
         = filter (fun t => negb (owner_is u (Task.user_id t))) (tasks s)
      /\ s' = set_tasks (tasks s') s)
  /\ (forall where_ set s' out,
         update_clients e where_ set s = (s', Ok out) ->
         Forall (fun c => owner_is u (Client.user_id c) = true) out
         /\ filter (fun c => negb (owner_is u (Client.user_id c))) (clients s')
            = filter (fun c => negb (owner_is u (Client.user_id c))) (clients s)
         /\ s' = set_clients (clients s') s)
  /\ (forall where_task set_task where_client set_client s' err,
         (update_tasks e where_task set_task s = (s', Err err) -> s' = s)
         /\ (update_clients e where_client set_client s = (s', Err err) -> s' = s))
  /\ (forall where_,
         Forall (fun t => owner_is u (Task.user_id t) = true)
                (filter (tasks_target e where_) (tasks s))
         /\ filter (fun t => negb (owner_is u (Task.user_id t)))
                   (tasks (fst (delete_tasks e where_ s)))
            = filter (fun t => negb (owner_is u (Task.user_id t))) (tasks s))
  /\ (forall where_,
         Forall (fun c => owner_is u (Client.user_id c) = true)
                (filter (clients_target e where_) (clients s))
         /\ filter (fun c => negb (owner_is u (Client.user_id c)))
                   (clients (fst (delete_clients e where_ s)))
            = filter (fun c => negb (owner_is u (Client.user_id c))) (clients s))
  /\ (forall where_,
         clients (fst (delete_tasks e where_ s)) = clients s
         /\ client_categories (fst (delete_tasks e where_ s)) = client_categories s
         /\ (forall m, In m (task_comments s) ->
                In m (task_comments (fst (delete_tasks e where_ s)))
                \/ own_task u s (TaskComment.task_id m))
         /\ (forall a, In a (task_attachments s) ->
                In a (task_attachments (fst (delete_tasks e where_ s)))
                \/ own_task u s (TaskAttachment.task_id a)))
  /\ (forall where_,
         (forall k, In k (client_categories s) ->
            In k (client_categories (fst (delete_clients e where_ s)))
            \/ own_client u s (ClientCategory.client_id k))
         /\ (forall t, In t (tasks s) ->
                In t (tasks (fst (delete_clients e where_ s)))
                \/ own_client u s (Task.client_id t))
         /\ (forall m, In m (task_comments s) ->
                In m (task_comments (fst (delete_clients e where_ s)))
                \/ task_of_own_client u s (TaskComment.task_id m))
         /\ (forall a, In a (task_attachments s) ->
                In a (task_attachments (fst (delete_clients e where_ s)))
                \/ task_of_own_client u s (TaskAttachment.task_id a))).
Proof.
  intros He.
  assert (Htt : forall where_ t, tasks_target e where_ t = true ->
                                 owner_is u (Task.user_id t) = true).
  { intros w t H. unfold tasks_target in H. rewrite He in H.
    apply andb_true_iff in H. apply H. }
  assert (Hct : forall where_ c, clients_target e where_ c = true ->
                                 owner_is u (Client.user_id c) = true).
  { intros w c H. unfold clients_target in H. rewrite He in H.
    apply andb_true_iff in H. apply H. }
  split; [| split; [| split; [| split; [| split; [| split]]]]].
  - intros where_ set s' out H. unfold update_tasks in H. run.
    match goal with H : update_rows _ _ _ _ = _ |- _ =>
      pose proof (update_rows_Ok _ _ _ _ _ _ (update_tasks_row_state e set) H) as [-> HT];
      apply update_rows_out in H; [destruct H as [Hout _] | apply update_tasks_row_state] end.
    match goal with H : for_each tasks_fkey _ _ = _ |- _ =>
      pose proof (for_each_state _ _ _ _ _ tasks_fkey_state H); subst end.
    simpl. split; [| split; [| reflexivity]].
    + revert Hout. apply Forall_impl. intros r' (r & _ & _ & Hr).
      apply (update_tasks_row_Ok e u set r s r' He Hr).
    + apply (others_untouched _ (tasks_target e where_) (update_tasks_row e set) s).
      * apply Htt.
      * intros r r' _ Hr. apply (update_tasks_row_Ok e u set r s r' He Hr).
      * exact HT.
  - intros where_ set s' out H. unfold update_clients in H. run.
    match goal with H : update_rows _ _ _ _ = _ |- _ =>
      pose proof (update_rows_Ok _ _ _ _ _ _ (update_clients_row_state e set) H) as [-> HT];
      apply update_rows_out in H; [destruct H as [Hout _] | apply update_clients_row_state] end.
    match goal with H : for_each clients_fkey _ _ = _ |- _ =>
      pose proof (for_each_state _ _ _ _ _ clients_fkey_state H); subst end.
    simpl. split; [| split; [| reflexivity]].
    + revert Hout. apply Forall_impl. intros r' (r & _ & _ & Hr).
      apply (update_clients_row_Ok e u set r s r' He Hr).
    + apply (others_untouched _ (clients_target e where_) (update_clients_row e set) s).
      * apply Hct.
      * intros r r' _ Hr. apply (update_clients_row_Ok e u set r s r' He Hr).
      * exact HT.
  - intros wt st wc sc s' err. split; intros H; apply statement_Err in H; exact H.
  - intros where_. split.
    + rewrite Forall_forall. intros t Ht. apply filter_In in Ht. apply (Htt where_), Ht.
    + rewrite delete_tasks_run. simpl.
      induction (tasks s) as [| t l IH]; simpl; [reflexivity |].
      destruct (tasks_target e where_ t) eqn:Et; simpl.
      * rewrite (Htt where_ t Et). simpl. exact IH.
      * destruct (owner_is u (Task.user_id t)); simpl; [exact IH | f_equal; exact IH].
  - intros where_. split.
    + rewrite Forall_forall. intros c Hc. apply filter_In in Hc. apply (Hct where_), Hc.
    + rewrite delete_clients_run. simpl.
      induction (clients s) as [| c l IH]; simpl; [reflexivity |].
      destruct (clients_target e where_ c) eqn:Et; simpl.
      * rewrite (Hct where_ c Et). simpl. exact IH.
      * destruct (owner_is u (Client.user_id c)); simpl; [exact IH | f_equal; exact IH].
  - intros where_. rewrite delete_tasks_run. simpl.
    pose (gone := map Task.id (filter (tasks_target e where_) (tasks s))).
    assert (Hgone : forall fk, references gone fk = true -> own_task u s fk).
    { intros fk H. apply gone_key in H. destruct H as (t & Ht & Hid).
      apply filter_In in Ht. destruct Ht as [Hin Ht].
      exists t. split; [exact Hin |]. split; [exact Hid | apply (Htt where_ t Ht)]. }
    split; [reflexivity |]. split; [reflexivity |]. split.
    + intros m Hm.
      destruct (kept_or_referenced gone TaskComment.task_id (task_comments s) m Hm)
        as [H | H]; [left; exact H | right; apply Hgone, H].
    + intros a Ha.
      destruct (kept_or_referenced gone TaskAttachment.task_id (task_attachments s) a Ha)
        as [H | H]; [left; exact H | right; apply Hgone, H].
  - intros where_. rewrite delete_clients_run. simpl.
    pose (gone := map Client.id (filter (clients_target e where_) (clients s))).
    pose (gone_tasks :=
            map Task.id
                (filter (fun t => references gone (Task.client_id t)) (tasks s))).
    assert (Hgone : forall fk, references gone fk = true -> own_client u s fk).
    { intros fk H. apply gone_key in H. destruct H as (c & Hc & Hid).
      apply filter_In in Hc. destruct Hc as [Hin Hc].
      exists c. split; [exact Hin |]. split; [exact Hid | apply (Hct where_ c Hc)]. }
    assert (Hgone_task : forall fk,
              references gone_tasks fk = true -> task_of_own_client u s fk).
    { intros fk H. apply gone_key in H. destruct H as (t & Ht & Hid).
      apply filter_In in Ht. destruct Ht as [Hin Ht].
      exists t. split; [exact Hin |]. split; [exact Hid | apply Hgone, Ht]. }
    split; [| split; [| split]].
    + intros k Hk.
      destruct (kept_or_referenced gone ClientCategory.client_id (client_categories s) k Hk)
        as [H | H]; [left; exact H | right; apply Hgone, H].
    + intros t Ht.
      destruct (kept_or_referenced gone Task.client_id (tasks s) t Ht)
        as [H | H]; [left; exact H | right; apply Hgone, H].
    + intros m Hm.
      destruct (kept_or_referenced gone_tasks TaskComment.task_id (task_comments s) m Hm)
        as [H | H]; [left; exact H | right; apply Hgone_task, H].
    + intros a Ha.
      destruct (kept_or_referenced gone_tasks TaskAttachment.task_id
                  (task_attachments s) a Ha)
        as [H | H]; [left; exact H | right; apply Hgone_task, H].
Qed.

(** bob completes every task he can reach: alice's task is not changed.
    alice deletes Acme: the task of bob on Acme goes with it, as a task that
    references a client of alice. *)
Lemma writes_touch_own_rows_witness :
  filter (fun t => negb (owner_is Scenario.bob (Task.user_id t)))
         (tasks (fst (update_tasks Scenario.as_bob (fun _ => true)
                        (fun t => {| Task.id := Task.id t; Task.user_id := Task.user_id t;
                                     Task.client_id := Task.client_id t;
                                     Task.category := Task.category t;
                                     Task.name := Task.name t;
                                     Task.description := Task.description t;
                                     Task.assignee := Task.assignee t;
                                     Task.status := Some "Completed";
                                     Task.created_at := Task.created_at t;
                                     Task.updated_at := Task.updated_at t;
                                     Task.due_date := Task.due_date t;
                                     Task.start_date := Task.start_date t;
                                     Task.priority := Task.priority t;
                                     Task.tags := Task.tags t |})
                        Scenario.crowded)))
  = [Scenario.alices_task]
  /\ In Scenario.bobs_task (tasks Scenario.crowded)
  /\ tasks (fst (delete_clients Scenario.as_alice (client_id_is 1000%N) Scenario.crowded))
     = []
  /\ own_client Scenario.alice Scenario.crowded (Task.client_id Scenario.bobs_task).
Proof.
  destruct (writes_touch_own_rows Scenario.as_bob Scenario.bob Scenario.crowded eq_refl)
    as (Hupdate & _).
  destruct (writes_touch_own_rows Scenario.as_alice Scenario.alice Scenario.crowded eq_refl)
    as (_ & _ & _ & _ & _ & _ & Hcascade).
  assert (Hbob : In Scenario.bobs_task (tasks Scenario.crowded))
    by (right; left; reflexivity).
  split; [| split; [exact Hbob | split; [reflexivity |]]].
  - match goal with |- context [update_tasks ?e ?w ?f ?s] =>
      destruct (update_tasks e w f s) as [s' [out | err]] eqn:E end.
    + destruct (Hupdate _ _ _ _ E) as (_ & Hothers & _). simpl. rewrite Hothers. reflexivity.
    + vm_compute in E. discriminate E.
  - destruct (Hcascade (client_id_is 1000%N)) as (_ & Htasks & _).
    destruct (Htasks Scenario.bobs_task Hbob) as [Hkept | Hown]; [| exact Hown].
    destruct Hkept.
Defined.

Lemma not_owner u (user_id : option uuid) :
  user_id <> Some u -> owner_is u user_id = false.
Proof.
  intros H. unfold owner_is. destruct user_id as [a |]; [| reflexivity].
  rewrite uuid_is_Some. apply N.eqb_neq. intros ->. apply H. reflexivity.
Qed.

Lemma Forall2_in_l {A B : Type} (P : A -> B -> Prop) l l' a :
  Forall2 P l l' -> In a l -> exists b, In b l' /\ P a b.
Proof.
  intros H. induction H as [| x y l l' Hxy _ IH]; intros Hin; [destruct Hin |].
  destruct Hin as [<- | Hin].
  - exists y. split; [left; reflexivity | exact Hxy].
  - destruct (IH Hin) as (b & Hb & Hab). exists b. split; [right; exact Hb | exact Hab].
Qed.

(** X7.  Ownership cannot be forged or given away by an authenticated
    caller: an INSERT into clients or tasks whose user_id is not the caller
    (another identity, or none) raises the row-level-security error of the
    table, and an UPDATE of tasks or clients that would give a row it reaches
    a user_id other than the caller raises; in each case the store is as it
    was. *)
Theorem ownership_cannot_be_forged (e : env) (u : uuid) (s : store) :
  caller e = authenticated u ->
  (forall v, Client.user_id (clients_row e v) <> Some u ->
             insert_client e v s = (s, Err (insufficient_privilege "clients")))
  /\ (forall v, Task.user_id (tasks_row e v) <> Some u ->
                insert_task e v s = (s, Err (insufficient_privilege "tasks")))
  /\ (forall where_ set r,
         In r (tasks s) -> tasks_target e where_ r = true ->
         Task.user_id (set r) <> Some u ->
         exists err, update_tasks e where_ set s = (s, Err err))
  /\ (forall where_ set r,
         In r (clients s) -> clients_target e where_ r = true ->
         Client.user_id (set r) <> Some u ->
         exists err, update_clients e where_ set s = (s, Err err)).
Proof.
  intros He. split; [| split; [| split]].
  - intros v Hv. unfold insert_client. apply statement_raises with (s1 := s).
    unfold insert_into_clients. apply bind_Err_run.
    unfold clients_put, bind, get. rewrite He. simpl.
    change (clients_policy (Some u) (clients_row e v))
      with (owner_is u (Client.user_id (clients_row e v))).
    rewrite (not_owner _ _ Hv). reflexivity.
  - intros v Hv. unfold insert_task. apply statement_raises with (s1 := s).
    unfold insert_into_tasks, bind, get. rewrite He. simpl.
    change (tasks_policy (Some u) (tasks_row e v))
      with (owner_is u (Task.user_id (tasks_row e v))).
    rewrite (not_owner _ _ Hv). reflexivity.
  - intros where_ set r Hin Ht Hu.
    destruct (update_tasks e where_ set s) as [s' [out | err]] eqn:E.
    + exfalso. unfold update_tasks in E. run.
      match goal with H : update_rows _ _ _ _ = _ |- _ =>
        apply update_rows_Ok in H; [destruct H as [-> HT] | apply update_tasks_row_state] end.
      destruct (Forall2_in_l _ _ _ r HT Hin) as (r' & _ & Hr). rewrite Ht in Hr.
      destruct (update_tasks_row_Ok e u set r s r' He Hr) as [-> Ho].
      simpl in Ho. rewrite (not_owner _ _ Hu) in Ho. discriminate Ho.
    + exists err. unfold update_tasks in E. apply statement_Err in E. subst. reflexivity.
  - intros where_ set r Hin Ht Hu.
    destruct (update_clients e where_ set s) as [s' [out | err]] eqn:E.
    + exfalso. unfold update_clients in E. run.
      match goal with H : update_rows _ _ _ _ = _ |- _ =>
        apply update_rows_Ok in H; [destruct H as [-> HT] | apply update_clients_row_state]
      end.
      destruct (Forall2_in_l _ _ _ r HT Hin) as (r' & _ & Hr). rewrite Ht in Hr.
      destruct (update_clients_row_Ok e u set r s r' He Hr) as [-> Ho].
      simpl in Ho. rewrite (not_owner _ _ Hu) in Ho. discriminate Ho.
    + exists err. unfold update_clients in E. apply statement_Err in E. subst. reflexivity.
Qed.

(** bob creates a client in alice's name; alice hands her task to bob. *)
Lemma ownership_cannot_be_forged_witness :
  insert_client Scenario.as_bob (Scenario.new_client "Mine" Scenario.alice) Scenario.crowded
  = (Scenario.crowded, Err (insufficient_privilege "clients"))
  /\ exists err,
       update_tasks Scenario.as_alice (task_id_is 1000%N)
         (fun t => {| Task.id := Task.id t; Task.user_id := Some Scenario.bob;
                      Task.client_id := Task.client_id t; Task.category := Task.category t;
                      Task.name := Task.name t; Task.description := Task.description t;
                      Task.assignee := Task.assignee t; Task.status := Task.status t;
                      Task.created_at := Task.created_at t;
                      Task.updated_at := Task.updated_at t;
                      Task.due_date := Task.due_date t;
                      Task.start_date := Task.start_date t;
                      Task.priority := Task.priority t; Task.tags := Task.tags t |})
         Scenario.crowded
       = (Scenario.crowded, Err err).
Proof.
  destruct (ownership_cannot_be_forged Scenario.as_bob Scenario.bob Scenario.crowded eq_refl)
    as (Hinsert & _).
  destruct (ownership_cannot_be_forged Scenario.as_alice Scenario.alice Scenario.crowded
              eq_refl) as (_ & _ & Hupdate & _).
  split.
  - apply Hinsert. discriminate.
  - apply Hupdate with (r := Scenario.alices_task).
    + left. reflexivity.
    + reflexivity.
    + discriminate.
Defined.

(** X8.  The policies are all declared TO authenticated: for the anon role
    every SELECT, UPDATE and DELETE on clients, tasks and calendar_events
    returns no row and every INSERT into clients, client_categories, tasks,
    task_comments, task_attachments and calendar_events raises the
    row-level-security error of its table; the store is never changed. *)
Theorem anon_is_denied (e : env) (s : store) :
  caller e = anon ->
  (forall w, select_clients e w s = (s, Ok []))
  /\ (forall w f, update_clients e w f s = (s, Ok []))
  /\ (forall w, delete_clients e w s = (s, Ok []))
  /\ (forall w, select_tasks e w s = (s, Ok []))
  /\ (forall w f, update_tasks e w f s = (s, Ok []))
  /\ (forall w, delete_tasks e w s = (s, Ok []))
  /\ (forall w, select_calendar_events e w s = (s, Ok []))
  /\ (forall w f, update_calendar_events e w f s = (s, Ok []))
  /\ (forall w, delete_calendar_events e w s = (s, Ok []))
  /\ (forall w, select_client_categories e w s = (s, Ok []))
  /\ (forall w, select_task_comments e w s = (s, Ok []))
  /\ (forall w, select_task_attachments e w s = (s, Ok []))
  /\ (forall v, insert_client e v s = (s, Err (insufficient_privilege "clients")))
  /\ (forall v vs, insert_client_categories e (v :: vs) s
                   = (s, Err (insufficient_privilege "client_categories")))
  /\ (forall v, insert_task e v s = (s, Err (insufficient_privilege "tasks")))
  /\ (forall v, insert_task_comment e v s
                = (s, Err (insufficient_privilege "task_comments")))
  /\ (forall v, insert_task_attachment e v s
                = (s, Err (insufficient_privilege "task_attachments")))
  /\ (forall v, insert_calendar_event e v s
                = (s, Err (insufficient_privilege "calendar_events"))).
Proof.
  intros He.
  assert (Hc : forall w c, clients_target e w c = false).
  { intros w c. unfold clients_target. rewrite He. apply andb_false_r. }
  assert (Ht : forall w t, tasks_target e w t = false).
  { intros w t. unfold tasks_target. rewrite He. apply andb_false_r. }
  assert (Hv : forall w x, calendar_events_target e w x = false).
  { intros w x. unfold calendar_events_target. rewrite He. apply andb_false_r. }
  repeat split; intros.
  - unfold select_clients, bind, get, ret. rewrite filter_none; [reflexivity | auto].
  - apply update_clients_none. auto.
  - apply delete_clients_none. auto.
  - unfold select_tasks, bind, get, ret. rewrite filter_none; [reflexivity | auto].
  - apply update_tasks_none. auto.
  - apply delete_tasks_none. auto.
  - unfold select_calendar_events, bind, get, ret. rewrite filter_none; [reflexivity | auto].
  - apply update_calendar_events_none. auto.
  - apply delete_calendar_events_none. auto.
  - unfold select_client_categories, bind, get, ret. rewrite He.
    rewrite filter_none; [reflexivity | intros; apply andb_false_r].
  - unfold select_task_comments, bind, get, ret. rewrite He.
    rewrite filter_none; [reflexivity | intros; apply andb_false_r].
  - unfold select_task_attachments, bind, get, ret. rewrite He.
    rewrite filter_none; [reflexivity | intros; apply andb_false_r].
  - unfold insert_client. apply statement_raises with (s1 := s).
    unfold insert_into_clients. apply bind_Err_run.
    unfold clients_put, bind, get. rewrite He. reflexivity.
  - unfold insert_client_categories. apply statement_raises with (s1 := s).
    unfold insert_into_client_categories. cbv zeta. apply bind_Err_run.
    simpl. apply bind_Err_run. unfold client_categories_put, bind, get. rewrite He.
    reflexivity.
  - unfold insert_task. apply statement_raises with (s1 := s).
    unfold insert_into_tasks, bind, get. rewrite He. reflexivity.
  - unfold insert_task_comment. apply statement_raises with (s1 := s).
    unfold bind, get. rewrite He. reflexivity.
  - unfold insert_task_attachment. apply statement_raises with (s1 := s).
    unfold bind, get. rewrite He. reflexivity.
  - unfold insert_calendar_event. apply statement_raises with (s1 := s).
    unfold bind, get. rewrite He. reflexivity.
Qed.

Lemma anon_is_denied_witness :
  select_tasks {| caller := anon; now := 0%Z; gen_random_uuid := fun _ => 9%N |}
               (fun _ => true) Scenario.crowded
  = (Scenario.crowded, Ok [])
  /\ insert_client {| caller := anon; now := 0%Z; gen_random_uuid := fun _ => 9%N |}
                   (Scenario.new_client "Mine" Scenario.bob) Scenario.crowded
     = (Scenario.crowded, Err (insufficient_privilege "clients")).
Proof.
  destruct (anon_is_denied {| caller := anon; now := 0%Z; gen_random_uuid := fun _ => 9%N |}
                           Scenario.crowded eq_refl)
    as (_ & _ & _ & Hs & _ & _ & _ & _ & _ & _ & _ & _ & Hi & _).
  split; [apply Hs | apply Hi].
Defined.

(** X9.  A comment or an attachment can only be put on a task of the
    caller, in the caller's name: when an authenticated caller's INSERT into
    task_comments or task_attachments succeeds, the row carries the caller as
    user_id and the id of a task that exists and belongs to the caller, and
    it is the one row added to the store. *)
Theorem child_rows_need_own_task (e : env) (u : uuid) (s : store) :
  caller e = authenticated u ->
  (forall v s' m,
      insert_task_comment e v s = (s', Ok m) ->
      s' = set_task_comments (task_comments s ++ [m]) s
      /\ TaskComment.user_id m = Some u
      /\ exists t, In t (tasks s)
                   /\ uuid_is (Task.id t) (TaskComment.task_id m) = true
                   /\ owner_is u (Task.user_id t) = true)
  /\ (forall v s' a,
         insert_task_attachment e v s = (s', Ok a) ->
         s' = set_task_attachments (task_attachments s ++ [a]) s
         /\ TaskAttachment.user_id a = Some u
         /\ exists t, In t (tasks s)
                      /\ uuid_is (Task.id t) (TaskAttachment.task_id a) = true
                      /\ owner_is u (Task.user_id t) = true).
Proof.
  intros He. split.
  - intros v s' m H. unfold insert_task_comment in H. run.
    match goal with Hx : rls _ _ = true |- _ =>
      rewrite He in Hx; unfold rls, task_comments_insert in Hx;
      apply andb_true_iff in Hx; destruct Hx as [Hown Huser] end.
    split; [reflexivity |]. split.
    + rewrite He in Huser. apply (uuid_is_true (Some u)) in Huser.
      destruct Huser as (a & Ha & Hb). inversion Ha; subst. exact Hb.
    + apply (owns_task_true e u s _ He Hown).
  - intros v s' a H. unfold insert_task_attachment in H. run.
    match goal with Hx : rls _ _ = true |- _ =>
      rewrite He in Hx; unfold rls, task_attachments_insert in Hx;
      apply andb_true_iff in Hx; destruct Hx as [Hown Huser] end.
    split; [reflexivity |]. split.
    + rewrite He in Huser.
      apply (uuid_is_true (TaskAttachment.user_id (task_attachments_row e v))) in Huser.
      destruct Huser as (b & Ha & Hb). inversion Hb; subst. exact Ha.
    + apply (owns_task_true e u s _ He Hown).
Qed.

(** bob's comment on alice's task is refused; alice's comment on her task is
    kept, under her name. *)
Lemma child_rows_need_own_task_witness :
  insert_task_comment Scenario.as_bob
    {| TaskComment.v_id := DEFAULT; TaskComment.v_task_id := V 1000%N;
       TaskComment.v_user_id := V Scenario.bob;
       TaskComment.v_user_email := V "bob@example.com";
       TaskComment.v_comment_text := V "Mine now";
       TaskComment.v_created_at := DEFAULT |}
    Scenario.with_task
  = (Scenario.with_task, Err (insufficient_privilege "task_comments"))
  /\ exists m,
       In m (task_comments Scenario.with_comment)
       /\ TaskComment.user_id m = Some Scenario.alice.
Proof.
  destruct (child_rows_need_own_task Scenario.as_alice Scenario.alice Scenario.with_task
              eq_refl) as (Hcomment & _).
  split; [reflexivity |].
  match type of Hcomment with forall v s' m, insert_task_comment ?e v ?s = _ -> _ =>
    destruct (insert_task_comment e
                {| TaskComment.v_id := DEFAULT; TaskComment.v_task_id := V 1000%N;
                   TaskComment.v_user_id := V Scenario.alice;
                   TaskComment.v_user_email := V "alice@example.com";
                   TaskComment.v_comment_text := V "Called, no answer";
                   TaskComment.v_created_at := DEFAULT |} s)
      as [s' [m | err]] eqn:E end.
  - destruct (Hcomment _ _ _ E) as (Hs & Hu & _). exists m. split; [| exact Hu].
    unfold Scenario.with_comment. rewrite E. simpl. rewrite Hs. simpl.
    left. reflexivity.
  - vm_compute in E. discriminate E.
Defined.

Lemma filter_filter_implied {R : Type} (p q : R -> bool) (l : list R) :
  (forall x, In x l -> p x = true -> q x = true) ->
  filter p (filter q l) = filter p l.
Proof.
  induction l as [| x l IH]; intros H; simpl; [reflexivity |].
  assert (IH' := IH (fun y Hy => H y (or_intror Hy))).
  destruct (q x) eqn:Eq; simpl.
  - rewrite IH'. reflexivity.
  - destruct (p x) eqn:Ep; [| exact IH'].
    rewrite (H x (or_introl eq_refl) Ep) in Eq. discriminate Eq.
Qed.

Lemma references_None keys : references keys None = false.
Proof.
  unfold references. apply existsb_none. intros k _. destruct k; reflexivity.
Qed.

Lemma kept_client_is_not_referenced_as_gone e where_ s c fk :
  keyed s ->
  In c (clients s) ->
  clients_target e where_ c = false ->
  uuid_is (Client.id c) fk = true ->
  references (map Client.id (filter (clients_target e where_) (clients s))) fk = false.
Proof.
  intros ((Hn & _) & _) Hc Ht Hid.
  destruct (references _ fk) eqn:Er; [| reflexivity].
  exfalso. apply references_true in Er. destruct Er as (a & Ha & Hin).
  apply in_map_iff in Hin. destruct Hin as (g & Hg & Hin).
  apply filter_In in Hin. destruct Hin as [Hin Hgt].
  apply uuid_is_true in Hid. destruct Hid as (b & Hb & Hfk).
  assert (g = c).
  { apply (NoDup_map_inj Client.id (clients s)); try assumption. congruence. }
  subst g. congruence.
Qed.

(** X10.  In a reachable store a DELETE on clients spares the other
    clients: every client that is left has the category rows and the tasks
    it had, and the tasks without a client are all left. *)
Theorem delete_clients_spares_others (e : env) (where_ : Client.row -> bool)
    (s : store) (c : Client.row) :
  reachable s ->
  In c (clients (fst (delete_clients e where_ s))) ->
  In c (clients s)
  /\ categories_of (fst (delete_clients e where_ s)) c = categories_of s c
  /\ filter (fun t => uuid_is (Client.id c) (Task.client_id t))
            (tasks (fst (delete_clients e where_ s)))
     = filter (fun t => uuid_is (Client.id c) (Task.client_id t)) (tasks s)
  /\ filter (fun t => is_null (Task.client_id t)) (tasks (fst (delete_clients e where_ s)))
     = filter (fun t => is_null (Task.client_id t)) (tasks s).
Proof.
  intros Hr. apply keyed_of_reachable in Hr. rewrite delete_clients_run. simpl.
  intros Hc. apply filter_In in Hc. destruct Hc as [Hc Ht]. apply negb_true_iff in Ht.
  split; [exact Hc |]. split; [| split].
  - unfold categories_of. simpl. apply filter_filter_implied.
    intros k _ Hk. apply negb_true_iff. rewrite uuid_is_sym in Hk.
    apply (kept_client_is_not_referenced_as_gone e where_ s c _ Hr Hc Ht Hk).
  - apply filter_filter_implied.
    intros t _ Hk. apply negb_true_iff.
    apply (kept_client_is_not_referenced_as_gone e where_ s c _ Hr Hc Ht Hk).
  - apply filter_filter_implied.
    intros t _ Hk. destruct (Task.client_id t); [discriminate Hk |].
    rewrite references_None. reflexivity.
Qed.

(** alice has a second client, Beta, when she deletes Acme: Beta keeps its
    three category rows. *)
Lemma delete_clients_spares_others_witness :
  List.length
    (categories_of
       (fst (delete_clients Scenario.as_alice (client_id_is 1000%N)
               (fst (insert_client Scenario.alice_again
                       (Scenario.new_client "Beta" Scenario.alice) Scenario.crowded))))
       (clients_row Scenario.alice_again (Scenario.new_client "Beta" Scenario.alice)))
  = 3.
Proof.
  set (s := fst (insert_client Scenario.alice_again
                   (Scenario.new_client "Beta" Scenario.alice) Scenario.crowded)).
  assert (Hr : reachable s).
  { eapply reachable_step; [apply reachable_crowded | apply step_insert_client]. }
  destruct (delete_clients_spares_others Scenario.as_alice (client_id_is 1000%N) s
              (clients_row Scenario.alice_again (Scenario.new_client "Beta" Scenario.alice))
              Hr) as (_ & Hcat & _).
  - left. reflexivity.
  - rewrite Hcat. reflexivity.
Defined.

(** ** The event sync proxy: what the four actions do *)

Lemma date_le_total x y : date_le x y = false -> date_le y x = true.
Proof.
  unfold date_le. destruct (CalendarEvent.date x) as [a |], (CalendarEvent.date y) as [b |];
    try reflexivity; try discriminate.
  intros H. apply Z.leb_gt in H. apply Z.leb_le. lia.
Qed.

Lemma insert_by_date_perm x l : Permutation (insert_by_date x l) (x :: l).
Proof.
  induction l as [| y l IH]; simpl; [apply Permutation_refl |].
  destruct (date_le x y); [apply Permutation_refl |].
  apply perm_trans with (y :: x :: l); [apply perm_skip, IH | apply perm_swap].
Qed.

Lemma order_by_date_perm l : Permutation (order_by_date l) l.
Proof.
  induction l as [| x l IH]; simpl; [constructor |].
  apply perm_trans with (x :: order_by_date l);
    [apply insert_by_date_perm | apply perm_skip, IH].
Qed.

Lemma insert_by_date_sorted x l :
  Sorted date_ascending l -> Sorted date_ascending (insert_by_date x l).
Proof.
  induction l as [| y l IH]; simpl; intros H; [repeat constructor |].
  destruct (date_le x y) eqn:E.
  - constructor; [exact H | constructor; exact E].
  - inversion H as [| ? ? Hs Hh]; subst. constructor; [apply IH, Hs |].
    destruct l as [| z l]; simpl.
    + constructor. apply date_le_total, E.
    + destruct (date_le x z); constructor;
        [apply date_le_total, E | inversion Hh; assumption].
Qed.

Lemma order_by_date_sorted l : Sorted date_ascending (order_by_date l).
Proof.
  induction l as [| x l IH]; simpl; [constructor | apply insert_by_date_sorted, IH].
Qed.

Lemma calendar_events_fkey_state r s s' (x : result unit) :
  calendar_events_fkey r s = (s', x) -> s' = s.
Proof.
  unfold calendar_events_fkey, bind, get. intros H. apply guard_state in H. exact H.
Qed.

Lemma update_calendar_events_row_state e set r s1 s2 (x : result CalendarEvent.row) :
  update_calendar_events_row e set r s1 = (s2, x) -> s2 = s1.
Proof.
  unfold update_calendar_events_row, calendar_events_constraints, not_null,
    bind, guard, ret, raise.
  intros H.
  repeat match type of H with
         | context [if ?b then _ else _] => destruct b
         end; inversion H; reflexivity.
Qed.

Lemma update_calendar_events_Ok e where_ set s s' out :
  update_calendar_events e where_ set s = (s', Ok out) ->
  exists t',
    s' = set_calendar_events t' s
    /\ Forall2 (fun r r' => if calendar_events_target e where_ r
                            then update_calendar_events_row e set r s = (s, Ok r')
                            else r' = r) (calendar_events s) t'.
Proof.
  unfold update_calendar_events. intros H. run.
  match goal with H : update_rows _ _ _ _ = _ |- _ =>
    apply update_rows_Ok in H;
    [destruct H as [-> HT] | apply update_calendar_events_row_state] end.
  match goal with H : for_each _ _ _ = _ |- _ =>
    apply for_each_state in H; [subst | apply calendar_events_fkey_state] end.
  eexists. split; [reflexivity | exact HT].
Qed.

Lemma delete_calendar_events_run e where_ s :
  delete_calendar_events e where_ s
  = (set_calendar_events
       (filter (fun x => negb (calendar_events_target e where_ x)) (calendar_events s)) s,
     Ok (filter (calendar_events_target e where_) (calendar_events s))).
Proof. reflexivity. Qed.

Lemma insert_calendar_event_cases e v s :
  (exists err, insert_calendar_event e v s = (s, Err err))
  \/ (insert_calendar_event e v s
      = (set_calendar_events (calendar_events s ++ [calendar_events_row e v]) s,
         Ok [calendar_events_row e v])
      /\ CalendarEvent.title (calendar_events_row e v) <> None
      /\ CalendarEvent.date (calendar_events_row e v) <> None).
Proof.
  destruct (insert_calendar_event e v s) as [s' [out | err]] eqn:E.
  - right. unfold insert_calendar_event in E. run.
    match goal with H : calendar_events_constraints _ _ = _ |- _ =>
      unfold calendar_events_constraints in H end.
    run.
    match goal with H : calendar_events_fkey _ _ = _ |- _ =>
      apply calendar_events_fkey_state in H; subst end.
    split; [reflexivity |]. split; apply Some_not_None; assumption.
  - left. exists err. apply statement_Err in E. subst. reflexivity.
Qed.

Lemma owner_is_user u (x : option uuid) : uuid_is x (Some u) = owner_is u x.
Proof. unfold owner_is. apply uuid_is_sym. Qed.

Lemma substring_all (t : string) : substring 0 (String.length t) t = t.
Proof. induction t as [| c t IH]; simpl; [reflexivity | rewrite IH; reflexivity]. Qed.

(** The header the client library builds gives the handler the token back. *)
Lemma replace_Bearer (token : string) : replace "Bearer " "" ("Bearer " ++ token) = token.
Proof.
  unfold replace. simpl.
  replace (prefix "" token) with true by (destruct token; reflexivity).
  simpl. rewrite Nat.sub_0_r. apply substring_all.
Qed.

Lemma for_each_update_none {R : Type} (target : R -> bool) (upd : R -> M R) t s :
  (forall r, In r t -> target r = false) ->
  for_each (fun r => if target r
                     then r' <- upd r ;; ret (r', [r'])
                     else ret (r, [])) t s
  = (s, Ok (map (fun r => (r, [])) t)).
Proof.
  intros H. induction t as [| r t IH]; simpl; [reflexivity |].
  rewrite (H r (or_introl eq_refl)).
  unfold bind at 1. unfold ret at 1.
  rewrite (bind_Ok_run _ _ _ _ _ (IH (fun x Hx => H x (or_intror Hx)))).
  reflexivity.
Qed.

Lemma update_rows_one {R : Type} (target : R -> bool) (upd : R -> M R) l1 x x' l2 s :
  (forall r, In r l1 -> target r = false) ->
  (forall r, In r l2 -> target r = false) ->
  target x = true ->
  upd x s = (s, Ok x') ->
  update_rows target upd (l1 ++ x :: l2) s = (s, Ok (l1 ++ x' :: l2, [x'])).
Proof.
  intros H1 H2 Hx Hu. unfold update_rows.
  assert (HF : for_each (fun r => if target r
                                  then r' <- upd r ;; ret (r', [r'])
                                  else ret (r, [])) (l1 ++ x :: l2) s
               = (s, Ok (map (fun r => (r, [])) l1 ++ (x', [x'])
                         :: map (fun r => (r, [])) l2))).
  { induction l1 as [| r l1 IH]; simpl.
    - rewrite Hx.
      assert (Hone : (r' <- upd x ;; ret (r', [r'])) s = (s, Ok (x', [x'])))
        by (rewrite (bind_Ok_run _ _ _ _ _ Hu); reflexivity).
      rewrite (bind_Ok_run _ _ _ _ _ Hone).
      rewrite (bind_Ok_run _ _ _ _ _ (for_each_update_none target upd l2 s H2)).
      reflexivity.
    - rewrite (H1 r (or_introl eq_refl)).
      unfold bind at 1. unfold ret at 1.
      rewrite (bind_Ok_run _ _ _ _ _ (IH (fun y Hy => H1 y (or_intror Hy)))).
      reflexivity. }
  rewrite (bind_Ok_run _ _ _ _ _ HF). unfold ret. f_equal. f_equal. f_equal.
  - rewrite map_app. simpl. rewrite !map_map. simpl. rewrite !map_id. reflexivity.
  - rewrite map_app. simpl. rewrite !map_map. simpl.
    assert (Hnil : forall l : list R, List.concat (map (fun _ : R => @nil R) l) = [])
      by (intros l; induction l; simpl; [reflexivity | assumption]).
    rewrite concat_app. simpl. rewrite !Hnil. reflexivity.
Qed.

Section ProxyProperties.

Variable getUser : string -> UserResponse.
Variable uuid_in : string -> option uuid.
Variable date_in : string -> option pg_date.
Variable db_now : timestamptz.
Variable db_uuid : nat -> uuid.
Variable Date_now : timestamptz.

Local Abbreviation serve' := (serve getUser uuid_in date_in db_now db_uuid Date_now).
Local Abbreviation switch' := (switch_action uuid_in date_in db_now db_uuid Date_now).
Local Abbreviation supabase' := (supabase db_now db_uuid).
Local Abbreviation authenticated' :=
  (authenticated_as getUser uuid_in date_in db_now db_uuid Date_now).

Lemma query_then {A : Type} (c : call) (q : store -> store * (PostgrestError + A))
    (k : A -> Response) s :
  db ((r <~ await c q ;; x <~ data_or_throw r ;; pure (k x)) s) = fst (q s)
  /\ returned ((r <~ await c q ;; x <~ data_or_throw r ;; pure (k x)) s)
     = match snd (q s) with
       | inl error => inl (thrown error)
       | inr data => inr (k data)
       end.
Proof.
  unfold and_then, await. simpl. destruct (snd (q s)); split; reflexivity.
Qed.

(** What an accepted request comes down to. *)
Lemma authenticated_serve req s u :
  authenticated' req s u ->
  db (serve' req s) = db (switch' req u s)
  /\ returned (serve' req s)
     = inr match returned (switch' req u s) with
           | inr response => response
           | inl error => json_response 500 (error_message_of error)
           end
  /\ exists token, calls (serve' req s) = auth_getUser token :: calls (switch' req u s).
Proof.
  intros (token & Hin & Herr & Hu).
  destruct (serve_asked getUser uuid_in date_in db_now db_uuid Date_now req s token Hin)
    as (Hm & authHeader & HA & ->).
  destruct (serve_authorized getUser uuid_in date_in db_now db_uuid Date_now
              req s authHeader u Hm HA Herr Hu) as (Hc & Hd & Hr).
  split; [exact Hd |]. split; [exact Hr |]. eexists. exact Hc.
Qed.

Lemma list_action_answer (req : Request) (u : uuid) (s : store) :
  action req = Some "list" ->
  exists events,
    switch' req u s
    = {| calls := [from_select]; db := s;
         returned := inr (json_response 200 (events_body events)) |}
    /\ Permutation events
         (filter (fun x => owner_is u (CalendarEvent.user_id x)) (calendar_events s))
    /\ Sorted date_ascending events.
Proof.
  intros Hact. unfold switch_action. rewrite Hact.
  cbn [String.eqb Ascii.eqb Bool.eqb].
  exists (order_by_date
            (filter (calendar_events_target supabase'
                       (fun x => uuid_is (CalendarEvent.user_id x) (Some u)))
                    (calendar_events s))).
  split; [reflexivity |]. split; [| apply order_by_date_sorted].
  eapply perm_trans; [apply order_by_date_perm |].
  erewrite filter_ext; [apply Permutation_refl |].
  intros x. unfold calendar_events_target. simpl. rewrite andb_true_r.
  apply owner_is_user.
Qed.

(** X11.  The list action: for a request the identity provider has accepted
    for a user, the answer is 200 with the events of that user, all of them
    and no other, in ascending order of date; one query is sent to the store
    and the store is as it was. *)
Theorem list_returns_own_events_by_date (req : Request) (s : store) (u : uuid) :
  authenticated' req s u ->
  action req = Some "list" ->
  exists events,
    returned (serve' req s) = inr (json_response 200 (events_body events))
    /\ Permutation events
         (filter (fun x => owner_is u (CalendarEvent.user_id x)) (calendar_events s))
    /\ Sorted date_ascending events
    /\ db (serve' req s) = s
    /\ exists token, calls (serve' req s) = [auth_getUser token; from_select].
Proof.
  intros Ha Hact. destruct (authenticated_serve req s u Ha) as (Hd & Hr & token & Hc).
  destruct (list_action_answer req u s Hact) as (events & Hanswer & Hp & Hs).
  rewrite Hanswer in Hd, Hr, Hc. cbn [returned db calls] in Hd, Hr, Hc.
  exists events. split; [exact Hr |]. split; [exact Hp |]. split; [exact Hs |].
  split; [exact Hd |]. exists token. exact Hc.
Qed.

Lemma switch_action_others req u s :
  db (switch' req u s) = set_calendar_events (calendar_events (db (switch' req u s))) s
  /\ filter (fun x => negb (owner_is u (CalendarEvent.user_id x)))
            (calendar_events (db (switch' req u s)))
     = filter (fun x => negb (owner_is u (CalendarEvent.user_id x))) (calendar_events s).
Proof.
  assert (Hsame : s = set_calendar_events (calendar_events s) s
                  /\ filter (fun x => negb (owner_is u (CalendarEvent.user_id x)))
                            (calendar_events s)
                     = filter (fun x => negb (owner_is u (CalendarEvent.user_id x)))
                              (calendar_events s)).
  { split; [symmetry; apply set_calendar_events_same | reflexivity]. }
  unfold switch_action. destruct (action req) as [a |]; [| exact Hsame].
  destruct (String.eqb a "list").
  { unfold list_events.
    match goal with |- context [await from_select ?q] =>
      destruct (query_then from_select q
                  (fun events => json_response 200 (events_body events)) s) as [-> _] end.
    exact Hsame. }
  destruct (String.eqb a "create").
  { unfold create_event. destruct (json req) as [| | title description date time];
      try exact Hsame.
    match goal with |- context [await from_insert ?q] =>
      destruct (query_then from_insert q
                  (fun event => json_response 200 (event_body event)) s) as [-> _] end.
    unfold create_query. destruct (text_to date_in "date" date) as [d | e0];
      [| exact Hsame].
    unfold single.
    match goal with |- context [insert_calendar_event ?e ?v s] =>
      destruct (insert_calendar_event_cases e v s) as [[err ->] | [-> _]] end;
      [exact Hsame |].
    cbn [fst]. split; [destruct s; reflexivity |].
    simpl. rewrite filter_app. simpl.
    unfold owner_is. rewrite uuid_is_Some, N.eqb_refl. simpl. apply app_nil_r. }
  destruct (String.eqb a "update").
  { unfold update_event. destruct (json req) as [| | title description date time];
      try exact Hsame; destruct (id req) as [eventId |]; try exact Hsame;
      destruct (falsy (Some eventId)); try exact Hsame.
    match goal with |- context [await from_update ?q] =>
      destruct (query_then from_update q
                  (fun event => json_response 200 (event_body event)) s) as [-> _] end.
    unfold update_query. destruct (uuid_in eventId) as [i |]; [| exact Hsame].
    destruct (text_to date_in "date" date) as [d | e0]; [| exact Hsame].
    unfold single.
    match goal with |- context [update_calendar_events ?e ?w ?f s] =>
      destruct (update_calendar_events e w f s) as [s' [out | err]] eqn:E end.
    - destruct out as [| x [| y out]]; try exact Hsame. cbn [fst].
      apply update_calendar_events_Ok in E. destruct E as (t' & -> & HT).
      split; [reflexivity |]. simpl.
      match type of HT with Forall2 (fun r r' => if ?target r then ?upd r s = _ else _) _ _ =>
        apply (others_untouched (fun x => owner_is u (CalendarEvent.user_id x))
                 target upd s) end; [| | exact HT].
      + intros r Hr. unfold calendar_events_target in Hr.
        apply andb_true_iff in Hr. destruct Hr as [Hr _].
        apply andb_true_iff in Hr. destruct Hr as [_ Hr].
        rewrite <- owner_is_user. exact Hr.
      + intros r r' Hr Hu. unfold update_calendar_events_row in Hu. run. simpl.
        unfold calendar_events_target in Hr.
        apply andb_true_iff in Hr. destruct Hr as [Hr _].
        apply andb_true_iff in Hr. destruct Hr as [_ Hr].
        rewrite <- owner_is_user. exact Hr.
    - cbn [fst]. unfold update_calendar_events in E. apply statement_Err in E. subst.
      exact Hsame. }
  destruct (String.eqb a "delete"); [| exact Hsame].
  unfold delete_event. destruct (id req) as [eventId |]; try exact Hsame.
  destruct (falsy (Some eventId)); try exact Hsame.
  match goal with |- context [await from_delete ?q] =>
    destruct (query_then from_delete q
                (fun _ : list CalendarEvent.row => json_response 200 success_body) s)
      as [-> _] end.
  unfold delete_query. destruct (uuid_in eventId) as [i |]; [| exact Hsame].
  unfold rows. rewrite delete_calendar_events_run. cbn [fst].
  split; [reflexivity |]. simpl. apply filter_filter_implied.
  intros x _ Hx. apply negb_true_iff. apply negb_true_iff in Hx.
  unfold calendar_events_target. simpl.
  rewrite andb_true_r, (owner_is_user u (CalendarEvent.user_id x)), Hx.
  apply andb_false_r.
Qed.

(** X12.  Whatever a request asks, the proxy leaves the events of the other
    identities alone: for a request accepted for a user, the events that are
    not that user's are the same before and after, in the same order, and no
    other table is changed; a request that is accepted for nobody changes
    nothing. *)
Theorem proxy_leaves_other_events (req : Request) (s : store) :
  (forall u,
      authenticated' req s u ->
      filter (fun x => negb (owner_is u (CalendarEvent.user_id x)))
             (calendar_events (db (serve' req s)))
      = filter (fun x => negb (owner_is u (CalendarEvent.user_id x))) (calendar_events s)
      /\ db (serve' req s) = set_calendar_events (calendar_events (db (serve' req s))) s)
  /\ ((forall u, ~ authenticated' req s u) -> db (serve' req s) = s).
Proof.
  split.
  - intros u Ha. destruct (authenticated_serve req s u Ha) as (Hd & _).
    rewrite Hd. destruct (switch_action_others req u s) as [H1 H2]. split; assumption.
  - intros Hno. unfold serve.
    destruct (String.eqb (method req) "OPTIONS") eqn:Hm; [reflexivity |].
    assert (Hdb : db (try_block getUser uuid_in date_in db_now db_uuid Date_now req s) = s).
    { destruct (Authorization req) as [authHeader |] eqn:HA.
      - destruct (authError (getUser (replace "Bearer " "" authHeader))) as [err |] eqn:He.
        + unfold try_block. rewrite HA. unfold and_then. cbn [returned calls db].
          rewrite He. reflexivity.
        + destruct (user (getUser (replace "Bearer " "" authHeader))) as [u |] eqn:Hu.
          * exfalso. apply (Hno u). exists (replace "Bearer " "" authHeader).
            split; [| split; assumption].
            rewrite serve_calls, Hm.
            destruct (try_block_calls getUser uuid_in date_in db_now db_uuid Date_now
                        req s authHeader HA) as (rest & -> & _).
            left. reflexivity.
          * unfold try_block. rewrite HA. unfold and_then. cbn [returned calls db].
            rewrite He, Hu. reflexivity.
      - unfold try_block. rewrite HA. reflexivity. }
    destruct (returned (try_block getUser uuid_in date_in db_now db_uuid Date_now req s));
      exact Hdb.
Qed.

(** The identity a request is accepted for does not depend on the store. *)
Lemma authenticated_any_store req s s' u :
  authenticated' req s u -> authenticated' req s' u.
Proof.
  intros (token & Hin & Herr & Hu).
  destruct (serve_asked getUser uuid_in date_in db_now db_uuid Date_now req s token Hin)
    as (Hm & authHeader & HA & ->).
  exists (replace "Bearer " "" authHeader). split; [| split; assumption].
  rewrite serve_calls, Hm.
  destruct (try_block_calls getUser uuid_in date_in db_now db_uuid Date_now
              req s' authHeader HA) as (rest & -> & _).
  left. reflexivity.
Qed.

Lemma insert_calendar_event_Ok e v s s' out :
  insert_calendar_event e v s = (s', Ok out) ->
  s' = set_calendar_events (calendar_events s ++ [calendar_events_row e v]) s
  /\ out = [calendar_events_row e v]
  /\ (exists t, CalendarEvent.title (calendar_events_row e v) = Some t)
  /\ (exists d, CalendarEvent.date (calendar_events_row e v) = Some d)
  /\ existsb (fun x => uuid_is (CalendarEvent.id x)
                               (CalendarEvent.id (calendar_events_row e v)))
             (calendar_events s) = false
  /\ existsb (fun a => uuid_is (Some a) (CalendarEvent.user_id (calendar_events_row e v)))
             (auth_users s) = true.
Proof.
  intros E. unfold insert_calendar_event in E. run.
  match goal with H : calendar_events_constraints _ _ = _ |- _ =>
    unfold calendar_events_constraints in H end.
  run.
  match goal with H : calendar_events_fkey _ _ = _ |- _ =>
    unfold calendar_events_fkey in H end.
  run.
  repeat (split; [first [reflexivity | assumption] |]).
  match goal with H : existsb _ (auth_users _) = true |- _ => exact H end.
Qed.

Lemma insert_calendar_event_run e v s i t d u :
  rls (caller e) (calendar_events_policy (auth_uid (caller e)) (calendar_events_row e v))
  = true ->
  CalendarEvent.id (calendar_events_row e v) = Some i ->
  CalendarEvent.title (calendar_events_row e v) = Some t ->
  CalendarEvent.date (calendar_events_row e v) = Some d ->
  CalendarEvent.user_id (calendar_events_row e v) = Some u ->
  (forall x, In x (calendar_events s) -> CalendarEvent.id x <> Some i) ->
  In u (auth_users s) ->
  insert_calendar_event e v s
  = (set_calendar_events (calendar_events s ++ [calendar_events_row e v]) s,
     Ok [calendar_events_row e v]).
Proof.
  intros Hr Hi Ht Hd Hu Hpk Hfk.
  assert (Hnew : existsb (fun x => uuid_is (CalendarEvent.id x)
                                     (CalendarEvent.id (calendar_events_row e v)))
                         (calendar_events s) = false).
  { apply existsb_none. intros x Hx. rewrite Hi.
    destruct (uuid_is (CalendarEvent.id x) (Some i)) eqn:E; [| reflexivity].
    apply uuid_is_true in E. destruct E as (a & Ea & Eb). inversion Eb; subst.
    exfalso. apply (Hpk x Hx). exact Ea. }
  assert (Hin : existsb (fun a => uuid_is (Some a)
                                    (CalendarEvent.user_id (calendar_events_row e v)))
                        (auth_users s) = true).
  { apply existsb_exists. exists u. split; [exact Hfk |].
    rewrite Hu, uuid_is_Some. apply N.eqb_refl. }
  unfold insert_calendar_event, statement, calendar_events_constraints,
    calendar_events_fkey, unless_exists, not_null, bind, get, modify.
  rewrite Hr, Hnew, Hi, Ht, Hd, Hu. simpl.
  rewrite Hu in Hin. destruct s; simpl in *. rewrite Hin. reflexivity.
Qed.

Lemma create_action_answer (req : Request) (u : uuid) (s : store)
    (title description date time : value string) :
  action req = Some "create" ->
  json req = json_object title description date time ->
  (exists event,
      returned (switch' req u s) = inr (json_response 200 (event_body event))
      /\ db (switch' req u s) = set_calendar_events (calendar_events s ++ [event]) s
      /\ CalendarEvent.user_id event = Some u
      /\ CalendarEvent.id event = Some (db_uuid 0)
      /\ ~ In (Some (db_uuid 0)) (map CalendarEvent.id (calendar_events s))
      /\ CalendarEvent.google_event_id event = NULL
      /\ (exists t, title = V t /\ CalendarEvent.title event = Some t)
      /\ (exists text d, date = V text /\ date_in text = Some d
                         /\ CalendarEvent.date event = Some d)
      /\ CalendarEvent.created_at event = Some db_now
      /\ In u (auth_users s))
  \/ (exists error,
        returned (switch' req u s) = inl error /\ db (switch' req u s) = s).
Proof.
  intros Hact Hj. unfold switch_action. rewrite Hact.
  cbn [String.eqb Ascii.eqb Bool.eqb]. unfold create_event. rewrite Hj.
  match goal with |- context [await from_insert ?q] =>
    destruct (query_then from_insert q (fun event => json_response 200 (event_body event)) s)
      as [Hdb Hret] end.
  rewrite Hdb, Hret. clear Hdb Hret. unfold create_query.
  destruct (text_to date_in "date" date) as [d | e0] eqn:Ed.
  - unfold single.
    match goal with |- context [insert_calendar_event ?e ?v s] =>
      destruct (insert_calendar_event e v s) as [s' [out | err]] eqn:E end.
    + apply insert_calendar_event_Ok in E.
      destruct E as (-> & -> & (t & Ht) & (d' & Hd') & Hpk & Hfk).
      left. eexists. cbn [fst snd]. split; [reflexivity |]. split; [reflexivity |].
      simpl in *. split; [reflexivity |]. split; [reflexivity |].
      split; [| split; [reflexivity |]; split; [| split; [| split; [reflexivity |]]]].
      * intros Hin. apply in_map_iff in Hin. destruct Hin as (x & Hx & Hin).
        rewrite existsb_none in Hpk. specialize (Hpk x Hin). rewrite Hx in Hpk.
        rewrite uuid_is_Some, N.eqb_refl in Hpk. discriminate Hpk.
      * exists t. destruct title; simpl in Ht; try discriminate Ht.
        inversion Ht. split; reflexivity.
      * unfold text_to in Ed. destruct date as [| | text]; inversion Ed; subst;
          simpl in Hd'; try discriminate Hd'.
        destruct (date_in text) as [a |] eqn:Ea; inversion Ed; subst.
        simpl in Hd'. inversion Hd'; subst. exists text, d'. repeat split. exact Ea.
      * apply existsb_exists in Hfk. destruct Hfk as (a & Hin & Hu).
        rewrite uuid_is_Some in Hu. apply N.eqb_eq in Hu. subst. exact Hin.
    + right. apply statement_Err in E. subst. eexists. split; reflexivity.
  - right. eexists. split; reflexivity.
Qed.

(** X13.  The create action: for an accepted request whose body is an
    object, either one event is appended to the events and returned with
    200, or the answer is 500 and the store is as it was.  The stored event
    belongs to the caller whatever the body says, has a generated id that
    no event had, the title and the date of the body (both present, the
    date readable as a date), no google_event_id, and the caller is a user
    the identity provider has registered. *)
Theorem create_appends_own_event (req : Request) (s : store) (u : uuid)
    (title description date time : value string) :
  authenticated' req s u ->
  action req = Some "create" ->
  json req = json_object title description date time ->
  (exists event,
      returned (serve' req s) = inr (json_response 200 (event_body event))
      /\ db (serve' req s) = set_calendar_events (calendar_events s ++ [event]) s
      /\ CalendarEvent.user_id event = Some u
      /\ CalendarEvent.id event = Some (db_uuid 0)
      /\ ~ In (Some (db_uuid 0)) (map CalendarEvent.id (calendar_events s))
      /\ CalendarEvent.google_event_id event = NULL
      /\ (exists t, title = V t /\ CalendarEvent.title event = Some t)
      /\ (exists text d, date = V text /\ date_in text = Some d
                         /\ CalendarEvent.date event = Some d)
      /\ CalendarEvent.created_at event = Some db_now
      /\ In u (auth_users s))
  \/ (exists error,
        returned (serve' req s) = inr (json_response 500 (error_message_of error))
        /\ db (serve' req s) = s).
Proof.
  intros Ha Hact Hj. destruct (authenticated_serve req s u Ha) as (Hd & Hr & _).
  destruct (create_action_answer req u s title description date time Hact Hj)
    as [(event & Hanswer & Hstore & Hfacts) | (error & Hanswer & Hstore)].
  - left. exists event. rewrite Hanswer in Hr. rewrite Hstore in Hd.
    split; [exact Hr |]. split; [exact Hd | exact Hfacts].
  - right. exists error. rewrite Hanswer in Hr. rewrite Hstore in Hd.
    split; [exact Hr | exact Hd].
Qed.

(** X14.  The create action succeeds whenever the body has a title and a
    date the store reads as a date, the caller is a registered user and the
    generated id is not in use: the event stored and returned has these
    values; a description or time the body leaves out is stored as NULL. *)
Theorem create_succeeds (req : Request) (s : store) (u : uuid)
    (t text : string) (d : pg_date) (description time : value string) :
  authenticated' req s u ->
  action req = Some "create" ->
  json req = json_object (V t) description (V text) time ->
  date_in text = Some d ->
  In u (auth_users s) ->
  (forall x, In x (calendar_events s) -> CalendarEvent.id x <> Some (db_uuid 0)) ->
  let event :=
    {| CalendarEvent.id := Some (db_uuid 0);
       CalendarEvent.google_event_id := NULL;
       CalendarEvent.title := Some t;
       CalendarEvent.description := assign description NULL;
       CalendarEvent.date := Some d;
       CalendarEvent.time := assign time NULL;
       CalendarEvent.user_id := Some u;
       CalendarEvent.created_at := Some db_now;
       CalendarEvent.updated_at := Some db_now |} in
  returned (serve' req s) = inr (json_response 200 (event_body event))
  /\ db (serve' req s) = set_calendar_events (calendar_events s ++ [event]) s.
Proof.
  intros Ha Hact Hj Hdate Hu Hfresh event.
  destruct (authenticated_serve req s u Ha) as (Hd & Hr & _).
  rewrite Hd, Hr. clear Hd Hr. unfold switch_action. rewrite Hact.
  cbn [String.eqb Ascii.eqb Bool.eqb]. unfold create_event. rewrite Hj.
  match goal with |- context [await from_insert ?q] =>
    destruct (query_then from_insert q (fun event => json_response 200 (event_body event)) s)
      as [Hdb Hret] end.
  rewrite Hdb, Hret. clear Hdb Hret. unfold create_query, text_to. rewrite Hdate.
  unfold single.
  match goal with |- context [insert_calendar_event ?e ?v s] =>
    rewrite (insert_calendar_event_run e v s (db_uuid 0) t d u);
      try reflexivity; try assumption end.
  cbn [fst snd].
  assert (Hrow : calendar_events_row supabase'
                   {| CalendarEvent.v_id := DEFAULT;
                      CalendarEvent.v_google_event_id := VNULL;
                      CalendarEvent.v_title := missing_is_null (V t);
                      CalendarEvent.v_description := missing_is_null description;
                      CalendarEvent.v_date := missing_is_null (V d);
                      CalendarEvent.v_time := missing_is_null time;
                      CalendarEvent.v_user_id := V u;
                      CalendarEvent.v_created_at := DEFAULT;
                      CalendarEvent.v_updated_at := DEFAULT |} = event).
  { unfold calendar_events_row, event. simpl.
    destruct description, time; reflexivity. }
  rewrite Hrow. split; reflexivity.
Qed.

Lemma update_calendar_events_one e where_ set l1 x l2 s x' :
  calendar_events s = l1 ++ x :: l2 ->
  (forall r, In r l1 -> calendar_events_target e where_ r = false) ->
  (forall r, In r l2 -> calendar_events_target e where_ r = false) ->
  calendar_events_target e where_ x = true ->
  update_calendar_events_row e set x s = (s, Ok x') ->
  existsb (fun a => uuid_is (Some a) (CalendarEvent.user_id x')) (auth_users s) = true ->
  update_calendar_events e where_ set s
  = (set_calendar_events (l1 ++ x' :: l2) s, Ok [x']).
Proof.
  intros Hs H1 H2 Hx Hu Hfk. unfold update_calendar_events, statement.
  unfold bind at 1. unfold get at 1. rewrite Hs.
  rewrite (bind_Ok_run _ _ _ _ _
             (update_rows_one (calendar_events_target e where_)
                (update_calendar_events_row e set) l1 x x' l2 s H1 H2 Hx Hu)).
  unfold bind, modify, for_each, calendar_events_fkey, bind, get, guard. cbn [fst snd].
  destruct s; simpl in *. rewrite Hfk. reflexivity.
Qed.

Lemma event_is_target i u x :
  calendar_events_target supabase'
    (fun x => uuid_is (CalendarEvent.id x) (Some i)
              && uuid_is (CalendarEvent.user_id x) (Some u)) x
  = event_is i u x.
Proof. unfold calendar_events_target, event_is. simpl. apply andb_true_r. Qed.

(** X15.  The update action on an event of the caller: when the id names
    exactly one event of the caller, the body is an object whose date (if
    any) reads as a date, and the title and the date are not set to null,
    the answer is 200 with the event as it is now stored: the fields the
    body names are replaced, those it leaves out are kept, updated_at is
    the time of the request, and id, owner, google_event_id and created_at
    are as before.  The events after the request are the updated event and
    the other events as they were (nothing is said of the order of the
    rows), and no other table is changed. *)
Theorem update_rewrites_own_event (req : Request) (s : store) (u i : uuid)
    (eventId : string) (title description date time : value string)
    (d : value pg_date) (l1 l2 : list CalendarEvent.row) (x : CalendarEvent.row) :
  authenticated' req s u ->
  action req = Some "update" ->
  id req = Some eventId ->
  eventId <> ""%string ->
  json req = json_object title description date time ->
  uuid_in eventId = Some i ->
  text_to date_in "date" date = Ok d ->
  calendar_events s = l1 ++ x :: l2 ->
  event_is i u x = true ->
  (forall y, In y (l1 ++ l2) -> event_is i u y = false) ->
  assign title (CalendarEvent.title x) <> NULL ->
  assign d (CalendarEvent.date x) <> NULL ->
  In u (auth_users s) ->
  let event :=
    {| CalendarEvent.id := CalendarEvent.id x;
       CalendarEvent.google_event_id := CalendarEvent.google_event_id x;
       CalendarEvent.title := assign title (CalendarEvent.title x);
       CalendarEvent.description := assign description (CalendarEvent.description x);
       CalendarEvent.date := assign d (CalendarEvent.date x);
       CalendarEvent.time := assign time (CalendarEvent.time x);
       CalendarEvent.user_id := CalendarEvent.user_id x;
       CalendarEvent.created_at := CalendarEvent.created_at x;
       CalendarEvent.updated_at := Some Date_now |} in
  returned (serve' req s) = inr (json_response 200 (event_body event))
  /\ Permutation (calendar_events (db (serve' req s))) (event :: l1 ++ l2)
  /\ db (serve' req s) = set_calendar_events (calendar_events (db (serve' req s))) s.
Proof.
  intros Ha Hact Hid Hne Hj Hi Hdate Hs Hx Hothers Htitle Hd Hu event.
  destruct (authenticated_serve req s u Ha) as (Hdb & Hr & _).
  rewrite Hdb, Hr. clear Hdb Hr. unfold switch_action. rewrite Hact.
  cbn [String.eqb Ascii.eqb Bool.eqb]. unfold update_event. rewrite Hj, Hid.
  unfold falsy. apply String.eqb_neq in Hne. rewrite Hne.
  match goal with |- context [await from_update ?q] =>
    destruct (query_then from_update q (fun event => json_response 200 (event_body event)) s)
      as [Hdb Hret] end.
  rewrite Hdb, Hret. clear Hdb Hret. unfold update_query. rewrite Hi, Hdate.
  unfold single.
  apply andb_true_iff in Hx as Hx'. destruct Hx' as [Hxi Hxu].
  apply uuid_is_true in Hxi. destruct Hxi as (a & Hxi & Ea). inversion Ea; subst a.
  apply uuid_is_true in Hxu. destruct Hxu as (b & Hxu & Eb). inversion Eb; subst b.
  match goal with |- context [update_calendar_events ?e ?w ?f s] =>
    rewrite (update_calendar_events_one e w f l1 x l2 s event Hs) end.
  - cbn [fst snd]. split; [reflexivity |]. split.
    + destruct s; simpl. apply Permutation_sym, Permutation_middle.
    + destruct s; reflexivity.
  - intros r Hr. rewrite event_is_target. apply Hothers, in_or_app. left. exact Hr.
  - intros r Hr. rewrite event_is_target. apply Hothers, in_or_app. right. exact Hr.
  - rewrite event_is_target. exact Hx.
  - subst event.
    unfold update_calendar_events_row, calendar_events_assign, calendar_events_constraints,
      not_null, bind, guard. cbn [CalendarEvent.id CalendarEvent.title CalendarEvent.date
      CalendarEvent.user_id caller supabase rls].
    rewrite Hxi, Hxu.
    destruct (assign title (CalendarEvent.title x)) as [t |] eqn:Et;
      [| exfalso; apply Htitle; reflexivity].
    destruct (assign d (CalendarEvent.date x)) as [d' |] eqn:Ed;
      [| exfalso; apply Hd; reflexivity].
    reflexivity.
  - subst event. cbn [CalendarEvent.user_id]. rewrite Hxu.
    apply existsb_exists. exists u. split; [exact Hu |].
    rewrite uuid_is_Some. apply N.eqb_refl.
Qed.

Lemma delete_action_answer (req : Request) (u : uuid) (s : store) (eventId : string) :
  action req = Some "delete" ->
  id req = Some eventId ->
  eventId <> ""%string ->
  match uuid_in eventId with
  | Some i =>
      returned (switch' req u s) = inr (json_response 200 success_body)
      /\ db (switch' req u s)
         = set_calendar_events
             (filter (fun x => negb (event_is i u x)) (calendar_events s)) s
  | None =>
      returned (switch' req u s)
      = inl (thrown (pg (invalid_text_representation "uuid")))
      /\ db (switch' req u s) = s
  end
  /\ calls (switch' req u s) = [from_delete].
Proof.
  intros Hact Hid Hne. unfold switch_action. rewrite Hact.
  cbn [String.eqb Ascii.eqb Bool.eqb]. unfold delete_event. rewrite Hid.
  unfold falsy. apply String.eqb_neq in Hne. rewrite Hne.
  rewrite query_then_calls.
  match goal with |- context [await from_delete ?q] =>
    destruct (query_then from_delete q
                (fun _ : list CalendarEvent.row => json_response 200 success_body) s)
      as [Hdb Hret] end.
  rewrite Hdb, Hret. clear Hdb Hret. unfold delete_query.
  split; [| reflexivity].
  destruct (uuid_in eventId) as [i |]; [| split; reflexivity].
  unfold rows. rewrite delete_calendar_events_run. cbn [fst snd].
  split; [reflexivity |]. f_equal. apply filter_ext. intros x.
  rewrite event_is_target. reflexivity.
Qed.

(** X16.  The delete action: for an accepted request with an id, when the
    store reads the id as an identifier the answer is 200 { success: true }
    and the events left are those that are not the caller's event of that
    id, in their order; when it does not, the answer is 500 and the store is
    as it was.  One query is sent in both cases. *)
Theorem delete_removes_own_event (req : Request) (s : store) (u : uuid)
    (eventId : string) :
  authenticated' req s u ->
  action req = Some "delete" ->
  id req = Some eventId ->
  eventId <> ""%string ->
  match uuid_in eventId with
  | Some i =>
      returned (serve' req s) = inr (json_response 200 success_body)
      /\ db (serve' req s)
         = set_calendar_events
             (filter (fun x => negb (event_is i u x)) (calendar_events s)) s
  | None =>
      returned (serve' req s)
      = inr (json_response 500
               (error_message_of (thrown (pg (invalid_text_representation "uuid")))))
      /\ db (serve' req s) = s
  end
  /\ exists token, calls (serve' req s) = [auth_getUser token; from_delete].
Proof.
  intros Ha Hact Hid Hne.
  destruct (authenticated_serve req s u Ha) as (Hdb & Hr & token & Hc).
  destruct (delete_action_answer req u s eventId Hact Hid Hne) as [Hanswer Hcalls].
  rewrite Hcalls in Hc. split; [| exists token; exact Hc].
  destruct (uuid_in eventId) as [i |]; destruct Hanswer as [Hreturned Hstore];
    rewrite Hreturned in Hr; rewrite Hstore in Hdb; split; assumption.
Qed.

(** X17.  Deleting is idempotent: the same accepted delete request sent
    again, to the store the first one left, is answered as the first one
    was and changes nothing more. *)
Theorem delete_twice_is_delete_once (req : Request) (s : store) (u : uuid) :
  authenticated' req s u ->
  action req = Some "delete" ->
  db (serve' req (db (serve' req s))) = db (serve' req s)
  /\ returned (serve' req (db (serve' req s))) = returned (serve' req s).
Proof.
  intros Ha Hact.
  assert (Ha' := authenticated_any_store req s (db (serve' req s)) u Ha).
  destruct (id req) as [eventId |] eqn:Hid.
  - destruct (String.eqb eventId "") eqn:Hne.
    + assert (Hsame : db (serve' req s) = s).
      { destruct (authenticated_serve req s u Ha) as (Hdb & _).
        rewrite Hdb. unfold switch_action. rewrite Hact.
        cbn [String.eqb Ascii.eqb Bool.eqb]. unfold delete_event. rewrite Hid.
        unfold falsy. rewrite Hne. reflexivity. }
      rewrite !Hsame. split; reflexivity.
    + apply String.eqb_neq in Hne.
      destruct (authenticated_serve req s u Ha) as (Hd1 & Hr1 & _).
      destruct (authenticated_serve req (db (serve' req s)) u Ha') as (Hd2 & Hr2 & _).
      destruct (delete_action_answer req u s eventId Hact Hid Hne) as [H1 _].
      destruct (delete_action_answer req u (db (serve' req s)) eventId Hact Hid Hne)
        as [H2 _].
      destruct (uuid_in eventId) as [i |]; destruct H1 as [Ha1 Hs1], H2 as [Ha2 Hs2];
        rewrite Ha1 in Hr1; rewrite Ha2 in Hr2; rewrite Hs1 in Hd1; rewrite Hs2 in Hd2;
        rewrite Hr2, Hr1; (split; [| reflexivity]); rewrite Hd2; [| reflexivity].
      clear Hr1 Hr2 Hd2 Ha' Ha1 Ha2 Hs1 Hs2. rewrite Hd1. clear Hd1 Ha.
      destruct s; unfold set_calendar_events; simpl. f_equal.
      apply filter_filter_implied. intros x _ Hx. exact Hx.
  - assert (Hsame : db (serve' req s) = s).
    { destruct (authenticated_serve req s u Ha) as (Hdb & _).
      rewrite Hdb. unfold switch_action. rewrite Hact.
      cbn [String.eqb Ascii.eqb Bool.eqb]. unfold delete_event. rewrite Hid.
      reflexivity. }
    rewrite !Hsame. split; reflexivity.
Qed.

Lemma well_formed_200 b : well_formed (json_response 200 b).
Proof.
  split; [apply incl_appl, incl_refl | left; reflexivity].
Qed.

Lemma well_formed_error status message :
  status = 400 \/ status = 401 \/ status = 500 ->
  well_formed (json_response status (error_body message)).
Proof.
  intros H. split; [apply incl_appl, incl_refl | right].
  split; [exact H | left; exists message; reflexivity].
Qed.

Lemma well_formed_500 error : well_formed (json_response 500 (error_message_of error)).
Proof.
  split; [apply incl_appl, incl_refl | right].
  split; [right; right; reflexivity | right; exists error; reflexivity].
Qed.

Lemma query_then_well_formed {A : Type} (c : call)
    (q : store -> store * (PostgrestError + A)) (b : A -> Body) s :
  match returned ((r <~ await c q ;; x <~ data_or_throw r ;;
                   pure (json_response 200 (b x))) s) with
  | inr r => well_formed r
  | inl _ => True
  end.
Proof.
  destruct (query_then c q (fun x => json_response 200 (b x)) s) as [_ ->].
  destruct (snd (q s)); [exact I | apply well_formed_200].
Qed.

Lemma switch_action_well_formed req u s :
  match returned (switch' req u s) with
  | inr r => well_formed r
  | inl _ => True
  end.
Proof.
  assert (Hinvalid : well_formed (json_response 400 (error_body "Invalid action")))
    by (apply well_formed_error; left; reflexivity).
  assert (Hid : well_formed Event_ID_required)
    by (apply well_formed_error; left; reflexivity).
  unfold switch_action. destruct (action req) as [a |]; [| exact Hinvalid].
  destruct (String.eqb a "list"); [apply query_then_well_formed |].
  destruct (String.eqb a "create").
  { unfold create_event. destruct (json req); try exact I.
    apply (query_then_well_formed from_insert _ event_body). }
  destruct (String.eqb a "update").
  { unfold update_event. destruct (json req); try exact I;
      destruct (id req) as [eventId |]; try exact Hid;
      destruct (falsy (Some eventId)); try exact Hid; try exact I.
    apply (query_then_well_formed from_update _ event_body). }
  destruct (String.eqb a "delete"); [| exact Hinvalid].
  unfold delete_event. destruct (id req) as [eventId |]; try exact Hid.
  destruct (falsy (Some eventId)); try exact Hid.
  apply (query_then_well_formed from_delete _ (fun _ => success_body)).
Qed.

(** X18.  The handler answers every request, and every answer carries the
    CORS headers; its status is 200, or it is 400, 401 or 500 and the body
    is { error: ... }.  No exception leaves the handler. *)
Theorem every_answer_is_well_formed (req : Request) (s : store) :
  exists r, returned (serve' req s) = inr r /\ well_formed r.
Proof.
  unfold serve. destruct (String.eqb (method req) "OPTIONS").
  { eexists. split; [reflexivity |]. split; [apply incl_refl | left; reflexivity]. }
  destruct (returned (try_block getUser uuid_in date_in db_now db_uuid Date_now req s))
    as [error | r] eqn:E.
  { eexists. split; [reflexivity | apply well_formed_500]. }
  exists r. split; [exact E |].
  unfold try_block in E. destruct (Authorization req) as [authHeader |];
    [| discriminate E].
  unfold and_then in E. cbn [returned calls db] in E.
  destruct (authError (getUser (replace "Bearer " "" authHeader))) as [err |].
  { inversion E. apply well_formed_error. right. left. reflexivity. }
  destruct (user (getUser (replace "Bearer " "" authHeader))) as [u |].
  - cbn [returned] in E. pose proof (switch_action_well_formed req u s) as H.
    rewrite E in H. exact H.
  - inversion E. apply well_formed_error. right. left. reflexivity.
Qed.

(** X19.  A request that is accepted for nobody is one of three: a preflight
    (OPTIONS), answered 200 without a body; a request without an
    Authorization header, answered 500; a request whose token the identity
    provider does not accept, answered 401.  In none of them a query is sent
    to the store, the store is as it was, and the answer carries no event. *)
Theorem unaccepted_request_gets_no_data (req : Request) (s : store) :
  (forall u, ~ authenticated' req s u) ->
  (method req = "OPTIONS"
   /\ serve' req s
      = {| calls := []; db := s;
           returned := inr {| status := 200; headers := corsHeaders; body := None |} |})
  \/ (method req <> "OPTIONS" /\ Authorization req = None
      /\ serve' req s
         = {| calls := []; db := s;
              returned := inr (json_response 500 (error_message_of TypeError)) |})
  \/ (exists authHeader,
        method req <> "OPTIONS" /\ Authorization req = Some authHeader
        /\ serve' req s
           = {| calls := [auth_getUser (replace "Bearer " "" authHeader)]; db := s;
                returned := inr (json_response 401 (error_body "Unauthorized")) |}).
Proof.
  intros Hno. destruct (String.eqb (method req) "OPTIONS") eqn:Hm.
  { left. split; [apply String.eqb_eq, Hm |]. unfold serve. rewrite Hm. reflexivity. }
  right. assert (Hm' := Hm). apply String.eqb_neq in Hm'.
  destruct (Authorization req) as [authHeader |] eqn:HA.
  - right. exists authHeader. split; [exact Hm' |]. split; [reflexivity |].
    apply (serve_unauthorized getUser uuid_in date_in db_now db_uuid Date_now
             req s authHeader Hm HA).
    destruct (authError (getUser (replace "Bearer " "" authHeader))) as [err |] eqn:He;
      [left; discriminate |].
    destruct (user (getUser (replace "Bearer " "" authHeader))) as [u |] eqn:Hu;
      [| right; reflexivity].
    exfalso. apply (Hno u). exists (replace "Bearer " "" authHeader).
    split; [| split; assumption].
    rewrite serve_calls, Hm.
    destruct (try_block_calls getUser uuid_in date_in db_now db_uuid Date_now
                req s authHeader HA) as (rest & -> & _).
    left. reflexivity.
  - left. split; [exact Hm' |]. split; [reflexivity |].
    unfold serve, try_block. rewrite Hm, HA. reflexivity.
Qed.

Lemma bearer_token_accepted req s token u :
  method req <> "OPTIONS" ->
  Authorization req = Some ("Bearer " ++ token)%string ->
  authError (getUser token) = None ->
  user (getUser token) = Some u ->
  authenticated' req s u.
Proof.
  intros Hm HA Herr Hu. apply String.eqb_neq in Hm. exists token.
  split; [| split; assumption].
  rewrite serve_calls, Hm.
  destruct (try_block_calls getUser uuid_in date_in db_now db_uuid Date_now
              req s _ HA) as (rest & Hc & _).
  rewrite replace_Bearer in Hc. rewrite Hc. left. reflexivity.
Qed.

Lemma bearer_token_refused req s token :
  method req <> "OPTIONS" ->
  Authorization req = Some ("Bearer " ++ token)%string ->
  authError (getUser token) <> None \/ user (getUser token) = None ->
  serve' req s
  = {| calls := [auth_getUser token]; db := s;
       returned := inr (json_response 401 (error_body "Unauthorized")) |}.
Proof.
  intros Hm HA Hfail. apply String.eqb_neq in Hm.
  pose proof (serve_unauthorized getUser uuid_in date_in db_now db_uuid Date_now
                req s _ Hm HA) as H.
  rewrite replace_Bearer in H. apply H. exact Hfail.
Qed.

(** X20.  What the handler makes of the Authorization header: for a header
    that is the word Bearer, a space and a token, the identity provider is
    asked about exactly that token, so the request is accepted for a user
    exactly when the identity provider gives that user for the token and no
    error. *)
Theorem bearer_token_is_what_is_checked (req : Request) (s : store) (token : string)
    (u : uuid) :
  method req <> "OPTIONS" ->
  Authorization req = Some ("Bearer " ++ token)%string ->
  (authenticated' req s u
   <-> authError (getUser token) = None /\ user (getUser token) = Some u)
  /\ exists rest, calls (serve' req s) = auth_getUser token :: rest.
Proof.
  intros Hm HA. apply String.eqb_neq in Hm.
  assert (Hc : exists rest, calls (serve' req s) = auth_getUser token :: rest).
  { rewrite serve_calls, Hm.
    destruct (try_block_calls getUser uuid_in date_in db_now db_uuid Date_now
                req s _ HA) as (rest & Hc & _).
    rewrite replace_Bearer in Hc. exists rest. exact Hc. }
  split; [| exact Hc]. split.
  - intros (token' & Hin & Herr & Hu).
    destruct (serve_asked getUser uuid_in date_in db_now db_uuid Date_now req s token' Hin)
      as (_ & authHeader & HA' & ->).
    assert (Hh : authHeader = ("Bearer " ++ token)%string) by congruence.
    rewrite Hh, replace_Bearer in Herr, Hu. split; assumption.
  - intros [Herr Hu]. exists token. destruct Hc as (rest & Hc).
    rewrite Hc. split; [left; reflexivity | split; assumption].
Qed.

End ProxyProperties.

(** alice lists her events: the retro and the standup, not bob's review. *)
Lemma list_returns_own_events_by_date_witness :
  exists events,
    returned (Scenario.proxy (Scenario.request "GET" "alice-token" "list" None invalid_json)
                Agenda.busy)
    = inr (json_response 200 (events_body events))
    /\ Permutation events
         (filter (fun x => owner_is Scenario.alice (CalendarEvent.user_id x))
                 (calendar_events Agenda.busy))
    /\ Sorted date_ascending events
    /\ db (Scenario.proxy (Scenario.request "GET" "alice-token" "list" None invalid_json)
             Agenda.busy)
       = Agenda.busy
    /\ exists token,
         calls (Scenario.proxy
                  (Scenario.request "GET" "alice-token" "list" None invalid_json)
                  Agenda.busy)
         = [auth_getUser token; from_select].
Proof.
  apply (list_returns_own_events_by_date
           Scenario.getUser Scenario.uuid_in Scenario.date_in
           400%Z (fun n => (7 + N.of_nat n)%N) 401%Z
           (Scenario.request "GET" "alice-token" "list" None invalid_json)
           Agenda.busy Scenario.alice).
  - exists "alice-token". split; [left; reflexivity | split; reflexivity].
  - reflexivity.
Defined.

(** bob asks for the deletion of alice's standup: the events that are not
    bob's stay. *)
Lemma proxy_leaves_other_events_witness :
  filter (fun x => negb (owner_is Scenario.bob (CalendarEvent.user_id x)))
         (calendar_events
            (db (Scenario.proxy
                   (Scenario.request "POST" "bob-token" "delete"
                      (Some "00000000-0000-0000-0000-000000000007") invalid_json)
                   Agenda.busy)))
  = [Scenario.standup; Agenda.retro].
Proof.
  destruct (proxy_leaves_other_events
              Scenario.getUser Scenario.uuid_in Scenario.date_in
              400%Z (fun n => (7 + N.of_nat n)%N) 401%Z
              (Scenario.request "POST" "bob-token" "delete"
                 (Some "00000000-0000-0000-0000-000000000007") invalid_json)
              Agenda.busy) as [H _].
  destruct (H Scenario.bob) as [Hothers _].
  - exists "bob-token". split; [left; reflexivity | split; reflexivity].
  - exact Hothers.
Defined.

Lemma create_appends_own_event_witness :
  (exists event,
      returned (Scenario.proxy
                  (Scenario.request "POST" "alice-token" "create" None Agenda.retro_body)
                  Scenario.signed_up)
      = inr (json_response 200 (event_body event))
      /\ db (Scenario.proxy
               (Scenario.request "POST" "alice-token" "create" None Agenda.retro_body)
               Scenario.signed_up)
         = set_calendar_events (calendar_events Scenario.signed_up ++ [event])
                               Scenario.signed_up
      /\ CalendarEvent.user_id event = Some Scenario.alice
      /\ CalendarEvent.id event = Some 7%N
      /\ ~ In (Some 7%N) (map CalendarEvent.id (calendar_events Scenario.signed_up))
      /\ CalendarEvent.google_event_id event = NULL
      /\ (exists t, V "Retro" = V t /\ CalendarEvent.title event = Some t)
      /\ (exists text d, V "2025-12-09" = V text /\ Scenario.date_in text = Some d
                         /\ CalendarEvent.date event = Some d)
      /\ CalendarEvent.created_at event = Some 400%Z
      /\ In Scenario.alice (auth_users Scenario.signed_up))
  \/ (exists error,
        returned (Scenario.proxy
                    (Scenario.request "POST" "alice-token" "create" None Agenda.retro_body)
                    Scenario.signed_up)
        = inr (json_response 500 (error_message_of error))
        /\ db (Scenario.proxy
                 (Scenario.request "POST" "alice-token" "create" None Agenda.retro_body)
                 Scenario.signed_up)
           = Scenario.signed_up).
Proof.
  apply (create_appends_own_event
           Scenario.getUser Scenario.uuid_in Scenario.date_in
           400%Z (fun n => (7 + N.of_nat n)%N) 401%Z
           (Scenario.request "POST" "alice-token" "create" None Agenda.retro_body)
           Scenario.signed_up Scenario.alice
           (V "Retro") DEFAULT (V "2025-12-09") DEFAULT).
  - exists "alice-token". split; [left; reflexivity | split; reflexivity].
  - reflexivity.
  - reflexivity.
Defined.

Lemma create_succeeds_witness :
  returned (Scenario.proxy
              (Scenario.request "POST" "alice-token" "create" None Agenda.retro_body)
              Scenario.signed_up)
  = inr (json_response 200
           (event_body
              {| CalendarEvent.id := Some 7%N;
                 CalendarEvent.google_event_id := NULL;
                 CalendarEvent.title := Some "Retro";
                 CalendarEvent.description := NULL;
                 CalendarEvent.date := Some 20431%Z;
                 CalendarEvent.time := NULL;
                 CalendarEvent.user_id := Some Scenario.alice;
                 CalendarEvent.created_at := Some 400%Z;
                 CalendarEvent.updated_at := Some 400%Z |})).
Proof.
  apply (create_succeeds
           Scenario.getUser Scenario.uuid_in Scenario.date_in
           400%Z (fun n => (7 + N.of_nat n)%N) 401%Z
           (Scenario.request "POST" "alice-token" "create" None Agenda.retro_body)
           Scenario.signed_up Scenario.alice
           "Retro" "2025-12-09" 20431%Z DEFAULT DEFAULT).
  - exists "alice-token". split; [left; reflexivity | split; reflexivity].
  - reflexivity.
  - reflexivity.
  - reflexivity.
  - right. left. reflexivity.
  - intros x [].
Defined.

(** alice gives her standup a new title: bob's review and her retro are as
    they were. *)
Lemma update_rewrites_own_event_witness :
  returned (Scenario.proxy
              (Scenario.request "POST" "alice-token" "update"
                 (Some "00000000-0000-0000-0000-000000000007") Scenario.retitle)
              Agenda.busy)
  = inr (json_response 200
           (event_body
              {| CalendarEvent.id := Some 7%N;
                 CalendarEvent.google_event_id := NULL;
                 CalendarEvent.title := Some "Retro";
                 CalendarEvent.description := Some "";
                 CalendarEvent.date := Some 20431%Z;
                 CalendarEvent.time := Some "09:30";
                 CalendarEvent.user_id := Some Scenario.alice;
                 CalendarEvent.created_at := Some 400%Z;
                 CalendarEvent.updated_at := Some 401%Z |}))
  /\ Permutation
       (calendar_events
          (db (Scenario.proxy
                 (Scenario.request "POST" "alice-token" "update"
                    (Some "00000000-0000-0000-0000-000000000007") Scenario.retitle)
                 Agenda.busy)))
       ({| CalendarEvent.id := Some 7%N;
           CalendarEvent.google_event_id := NULL;
           CalendarEvent.title := Some "Retro";
           CalendarEvent.description := Some "";
           CalendarEvent.date := Some 20431%Z;
           CalendarEvent.time := Some "09:30";
           CalendarEvent.user_id := Some Scenario.alice;
           CalendarEvent.created_at := Some 400%Z;
           CalendarEvent.updated_at := Some 401%Z |}
        :: [Agenda.review; Agenda.retro]).
Proof.
  destruct (update_rewrites_own_event
              Scenario.getUser Scenario.uuid_in Scenario.date_in
              400%Z (fun n => (7 + N.of_nat n)%N) 401%Z
              (Scenario.request "POST" "alice-token" "update"
                 (Some "00000000-0000-0000-0000-000000000007") Scenario.retitle)
              Agenda.busy Scenario.alice 7%N
              "00000000-0000-0000-0000-000000000007"
              (V "Retro") DEFAULT DEFAULT DEFAULT DEFAULT
              [] [Agenda.review; Agenda.retro] Scenario.standup)
    as (Hanswer & Hevents & _).
  - exists "alice-token". split; [left; reflexivity | split; reflexivity].
  - reflexivity.
  - reflexivity.
  - discriminate.
  - reflexivity.
  - reflexivity.
  - reflexivity.
  - reflexivity.
  - reflexivity.
  - intros y [<- | [<- | []]]; reflexivity.
  - discriminate.
  - discriminate.
  - right. left. reflexivity.
  - split; [exact Hanswer | exact Hevents].
Defined.

(** alice deletes her standup: bob's review and her retro are left. *)
Lemma delete_removes_own_event_witness :
  match Scenario.uuid_in "00000000-0000-0000-0000-000000000007" with
  | Some i =>
      returned (Scenario.proxy
                  (Scenario.request "POST" "alice-token" "delete"
                     (Some "00000000-0000-0000-0000-000000000007") invalid_json)
                  Agenda.busy)
      = inr (json_response 200 success_body)
      /\ db (Scenario.proxy
               (Scenario.request "POST" "alice-token" "delete"
                  (Some "00000000-0000-0000-0000-000000000007") invalid_json)
               Agenda.busy)
         = set_calendar_events
             (filter (fun x => negb (event_is i Scenario.alice x))
                     (calendar_events Agenda.busy))
             Agenda.busy
  | None =>
      returned (Scenario.proxy
                  (Scenario.request "POST" "alice-token" "delete"
                     (Some "00000000-0000-0000-0000-000000000007") invalid_json)
                  Agenda.busy)
      = inr (json_response 500
               (error_message_of (thrown (pg (invalid_text_representation "uuid")))))
      /\ db (Scenario.proxy
               (Scenario.request "POST" "alice-token" "delete"
                  (Some "00000000-0000-0000-0000-000000000007") invalid_json)
               Agenda.busy)
         = Agenda.busy
  end
  /\ exists token,
       calls (Scenario.proxy
                (Scenario.request "POST" "alice-token" "delete"
                   (Some "00000000-0000-0000-0000-000000000007") invalid_json)
                Agenda.busy)
       = [auth_getUser token; from_delete].
Proof.
  apply (delete_removes_own_event
           Scenario.getUser Scenario.uuid_in Scenario.date_in
           400%Z (fun n => (7 + N.of_nat n)%N) 401%Z
           (Scenario.request "POST" "alice-token" "delete"
              (Some "00000000-0000-0000-0000-000000000007") invalid_json)
           Agenda.busy Scenario.alice "00000000-0000-0000-0000-000000000007").
  - exists "alice-token". split; [left; reflexivity | split; reflexivity].
  - reflexivity.
  - reflexivity.
  - discriminate.
Defined.

Lemma delete_twice_is_delete_once_witness :
  db (Scenario.proxy
        (Scenario.request "POST" "alice-token" "delete"
           (Some "00000000-0000-0000-0000-000000000007") invalid_json)
        (db (Scenario.proxy
               (Scenario.request "POST" "alice-token" "delete"
                  (Some "00000000-0000-0000-0000-000000000007") invalid_json)
               Agenda.busy)))
  = db (Scenario.proxy
          (Scenario.request "POST" "alice-token" "delete"
             (Some "00000000-0000-0000-0000-000000000007") invalid_json)
          Agenda.busy)
  /\ returned (Scenario.proxy
                 (Scenario.request "POST" "alice-token" "delete"
                    (Some "00000000-0000-0000-0000-000000000007") invalid_json)
                 (db (Scenario.proxy
                        (Scenario.request "POST" "alice-token" "delete"
                           (Some "00000000-0000-0000-0000-000000000007") invalid_json)
                        Agenda.busy)))
     = returned (Scenario.proxy
                   (Scenario.request "POST" "alice-token" "delete"
                      (Some "00000000-0000-0000-0000-000000000007") invalid_json)
                   Agenda.busy).
Proof.
  apply (delete_twice_is_delete_once
           Scenario.getUser Scenario.uuid_in Scenario.date_in
           400%Z (fun n => (7 + N.of_nat n)%N) 401%Z
           (Scenario.request "POST" "alice-token" "delete"
              (Some "00000000-0000-0000-0000-000000000007") invalid_json)
           Agenda.busy Scenario.alice).
  - exists "alice-token". split; [left; reflexivity | split; reflexivity].
  - reflexivity.
Defined.

(** A request with a token the identity provider does not know. *)
Lemma unaccepted_request_gets_no_data_witness :
  Scenario.proxy (Scenario.request "GET" "mallory-token" "list" None invalid_json)
    Agenda.busy
  = {| calls := [auth_getUser "mallory-token"]; db := Agenda.busy;
       returned := inr (json_response 401 (error_body "Unauthorized")) |}.
Proof.
  destruct (unaccepted_request_gets_no_data
              Scenario.getUser Scenario.uuid_in Scenario.date_in
              400%Z (fun n => (7 + N.of_nat n)%N) 401%Z
              (Scenario.request "GET" "mallory-token" "list" None invalid_json)
              Agenda.busy) as [[Hm _] | [(_ & HA & _) | (authHeader & _ & HA & H)]].
  - intros u (token & Hin & Herr & Hu).
    destruct Hin as [Hin | []]. inversion Hin; subst token. discriminate Herr.
  - discriminate Hm.
  - discriminate HA.
  - inversion HA; subst authHeader. exact H.
Defined.

Lemma bearer_token_is_what_is_checked_witness :
  (authenticated_as Scenario.getUser Scenario.uuid_in Scenario.date_in
     400%Z (fun n => (7 + N.of_nat n)%N) 401%Z
     (Scenario.request "GET" "alice-token" "list" None invalid_json)
     Agenda.busy Scenario.alice
   <-> authError (Scenario.getUser "alice-token") = None
       /\ user (Scenario.getUser "alice-token") = Some Scenario.alice)
  /\ exists rest,
       calls (Scenario.proxy
                (Scenario.request "GET" "alice-token" "list" None invalid_json)
                Agenda.busy)
       = auth_getUser "alice-token" :: rest.
Proof.
  apply (bearer_token_is_what_is_checked
           Scenario.getUser Scenario.uuid_in Scenario.date_in
           400%Z (fun n => (7 + N.of_nat n)%N) 401%Z
           (Scenario.request "GET" "alice-token" "list" None invalid_json)
           Agenda.busy "alice-token" Scenario.alice).
  - discriminate.
  - reflexivity.
Defined.

(** ** The client library over the proxy *)

Section ClientProperties.

Variable getUser : string -> UserResponse.
Variable uuid_in : string -> option uuid.
Variable date_in : string -> option pg_date.
Variable db_now : timestamptz.
Variable db_uuid : nat -> uuid.
Variable Date_now : timestamptz.

Local Abbreviation serve' := (serve getUser uuid_in date_in db_now db_uuid Date_now).

(** X21.  listCalendarEvents with a session whose token the identity
    provider accepts for a user returns the events of that user, all of
    them and no other, in ascending order of date, and leaves the store as
    it was. *)
Theorem listCalendarEvents_gives_own_events (token : string) (u : uuid) (s : store) :
  authError (getUser token) = None ->
  user (getUser token) = Some u ->
  fst (listCalendarEvents serve' (Some token) s) = s
  /\ Permutation (snd (listCalendarEvents serve' (Some token) s))
       (filter (fun x => owner_is u (CalendarEvent.user_id x)) (calendar_events s))
  /\ Sorted date_ascending (snd (listCalendarEvents serve' (Some token) s)).
Proof.
  intros Herr Hu. unfold listCalendarEvents, getAuthHeaders.
  match goal with |- context [serve' ?r s] => set (req := r) end.
  assert (Ha : authenticated_as getUser uuid_in date_in db_now db_uuid Date_now req s u).
  { apply (bearer_token_accepted getUser uuid_in date_in db_now db_uuid Date_now
             req s token u); [discriminate | reflexivity | exact Herr | exact Hu]. }
  destruct (authenticated_serve getUser uuid_in date_in db_now db_uuid Date_now
              req s u Ha) as (Hd & Hr & _).
  destruct (list_action_answer uuid_in date_in db_now db_uuid Date_now
              req u s eq_refl) as (events & Hanswer & Hp & Hs).
  rewrite Hanswer in Hd, Hr. cbn [returned db] in Hd, Hr.
  cbn [fst snd]. rewrite Hr, Hd. cbn [ok status json_response body Nat.leb andb].
  split; [reflexivity |]. split; assumption.
Qed.

(** X22.  Without a session, or with a token the identity provider does not
    accept, the client library reports nothing of the refusal: the list is
    empty, the created event is null, and the store is as it was. *)
Theorem client_hides_refusal (session : option string) (event : Draft.event) (s : store) :
  (forall token, getAuthHeaders session = ("Bearer " ++ token)%string ->
     authError (getUser token) <> None \/ user (getUser token) = None) ->
  listCalendarEvents serve' session s = (s, [])
  /\ createCalendarEvent serve' session event s = (s, None).
Proof.
  intros Hfail.
  assert (Hno : authError (getUser match session with
                                   | Some access_token => access_token
                                   | None => "undefined"
                                   end) <> None
                \/ user (getUser match session with
                                 | Some access_token => access_token
                                 | None => "undefined"
                                 end) = None)
    by (apply Hfail; reflexivity).
  unfold listCalendarEvents, createCalendarEvent. split.
  - match goal with |- context [serve' ?r s] =>
      rewrite (bearer_token_refused getUser uuid_in date_in db_now db_uuid Date_now
                 r s _ ltac:(discriminate) eq_refl Hno) end.
    reflexivity.
  - match goal with |- context [serve' ?r s] =>
      rewrite (bearer_token_refused getUser uuid_in date_in db_now db_uuid Date_now
                 r s _ ltac:(discriminate) eq_refl Hno) end.
    reflexivity.
Qed.

(** X23.  createCalendarEvent with an accepted session: when it returns an
    event, that event belongs to the user of the session, has the title of
    the draft and is the one row added to the store; when it returns null,
    the store is as it was. *)
Theorem createCalendarEvent_adds_own_event (token : string) (u : uuid)
    (draft : Draft.event) (s : store) :
  authError (getUser token) = None ->
  user (getUser token) = Some u ->
  match snd (createCalendarEvent serve' (Some token) draft s) with
  | Some event =>
      fst (createCalendarEvent serve' (Some token) draft s)
      = set_calendar_events (calendar_events s ++ [event]) s
      /\ CalendarEvent.user_id event = Some u
      /\ CalendarEvent.title event = Some (Draft.title draft)
  | None => fst (createCalendarEvent serve' (Some token) draft s) = s
  end.
Proof.
  intros Herr Hu. unfold createCalendarEvent, getAuthHeaders.
  match goal with |- context [serve' ?r s] => set (req := r) end.
  assert (Ha : authenticated_as getUser uuid_in date_in db_now db_uuid Date_now req s u).
  { apply (bearer_token_accepted getUser uuid_in date_in db_now db_uuid Date_now
             req s token u); [discriminate | reflexivity | exact Herr | exact Hu]. }
  destruct (authenticated_serve getUser uuid_in date_in db_now db_uuid Date_now
              req s u Ha) as (Hd & Hr & _).
  destruct (create_action_answer uuid_in date_in db_now db_uuid Date_now
              req u s _ _ _ _ eq_refl eq_refl)
    as [(event & Hanswer & Hstore & Hown & _ & _ & _ & (t & Et & Ht) & _)
       | (error & Hanswer & Hstore)];
    rewrite Hanswer in Hr; rewrite Hstore in Hd.
  - cbn [fst snd]. rewrite Hr, Hd. cbn [ok status json_response body Nat.leb andb].
    inversion Et; subst t. split; [reflexivity |]. split; assumption.
  - cbn [fst snd]. rewrite Hr, Hd. reflexivity.
Qed.

End ClientProperties.

Lemma listCalendarEvents_gives_own_events_witness :
  snd (listCalendarEvents Scenario.proxy (Some "alice-token"%string) Agenda.busy)
  = [Agenda.retro; Scenario.standup]
  /\ Permutation
       (snd (listCalendarEvents Scenario.proxy (Some "alice-token"%string) Agenda.busy))
       (filter (fun x => owner_is Scenario.alice (CalendarEvent.user_id x))
               (calendar_events Agenda.busy)).
Proof.
  split; [reflexivity |].
  apply (listCalendarEvents_gives_own_events
           Scenario.getUser Scenario.uuid_in Scenario.date_in
           400%Z (fun n => (7 + N.of_nat n)%N) 401%Z
           "alice-token" Scenario.alice Agenda.busy); reflexivity.
Defined.

(** Signed out, the token sent is the text undefined. *)
Lemma client_hides_refusal_witness :
  listCalendarEvents Scenario.proxy None Agenda.busy = (Agenda.busy, [])
  /\ createCalendarEvent Scenario.proxy None
       {| Draft.title := "Retro"; Draft.description := "";
          Draft.date := "2025-12-09"; Draft.time := "" |} Agenda.busy
     = (Agenda.busy, None).
Proof.
  apply (client_hides_refusal
           Scenario.getUser Scenario.uuid_in Scenario.date_in
           400%Z (fun n => (7 + N.of_nat n)%N) 401%Z).
  intros token H. inversion H; subst token. left. discriminate.
Defined.

Lemma createCalendarEvent_adds_own_event_witness :
  match snd (createCalendarEvent Scenario.proxy (Some "alice-token"%string)
               {| Draft.title := "Retro"; Draft.description := "";
                  Draft.date := "2025-12-09"; Draft.time := "" |} Scenario.signed_up) with
  | Some event =>
      fst (createCalendarEvent Scenario.proxy (Some "alice-token"%string)
             {| Draft.title := "Retro"; Draft.description := "";
                Draft.date := "2025-12-09"; Draft.time := "" |} Scenario.signed_up)
      = set_calendar_events (calendar_events Scenario.signed_up ++ [event])
                            Scenario.signed_up
      /\ CalendarEvent.user_id event = Some Scenario.alice
      /\ CalendarEvent.title event = Some "Retro"%string
  | None =>
      fst (createCalendarEvent Scenario.proxy (Some "alice-token"%string)
             {| Draft.title := "Retro"; Draft.description := "";
                Draft.date := "2025-12-09"; Draft.time := "" |} Scenario.signed_up)
      = Scenario.signed_up
  end.
Proof.
  apply (createCalendarEvent_adds_own_event
           Scenario.getUser Scenario.uuid_in Scenario.date_in
           400%Z (fun n => (7 + N.of_nat n)%N) 401%Z
           "alice-token" Scenario.alice
           {| Draft.title := "Retro"; Draft.description := "";
              Draft.date := "2025-12-09"; Draft.time := "" |} Scenario.signed_up);
    reflexivity.
Defined.

(** ** Counts the front end shows *)

Lemma strictly_equal_one_of (x : option string) (a b c : string) :
  a <> b -> a <> c -> b <> c ->
  one_of [a; b; c] x ->
  (if strictly_equal x a then 1 else 0) + (if strictly_equal x b then 1 else 0)
  + (if strictly_equal x c then 1 else 0) = 1.
Proof.
  intros Hab Hac Hbc (v & -> & Hin). simpl.
  apply String.eqb_neq in Hab, Hac, Hbc.
  destruct Hin as [<- | [<- | [<- | []]]].
  - rewrite String.eqb_refl, Hab, Hac. reflexivity.
  - rewrite String.eqb_refl, Hbc. rewrite String.eqb_sym, Hab. reflexivity.
  - rewrite String.eqb_refl. rewrite String.eqb_sym, Hac.
    rewrite String.eqb_sym, Hbc. reflexivity.
Qed.

Lemma three_way_count {R : Type} (key : R -> option string) (a b c : string) (l : list R) :
  a <> b -> a <> c -> b <> c ->
  Forall (fun r => one_of [a; b; c] (key r)) l ->
  List.length (filter (fun r => strictly_equal (key r) a) l)
  + List.length (filter (fun r => strictly_equal (key r) b) l)
  + List.length (filter (fun r => strictly_equal (key r) c) l)
  = List.length l.
Proof.
  intros Hab Hac Hbc H. induction H as [| r l Hr _ IH]; [reflexivity |].
  pose proof (strictly_equal_one_of (key r) a b c Hab Hac Hbc Hr) as H1.
  simpl. destruct (strictly_equal (key r) a), (strictly_equal (key r) b),
    (strictly_equal (key r) c); simpl in *; lia.
Qed.

(** X24.  The three numbers of the home tab account for every task the
    caller can see: in a reachable store, To Do, Completed and In-Progress
    add up to the number of visible tasks, and the query changes nothing. *)
Theorem task_stats_cover_visible_tasks (e : env) (s : store) :
  reachable s ->
  exists stats,
    fetchTaskStats e s = (s, Ok stats)
    /\ pending stats + completed stats + inProgress stats
       = List.length (visible_tasks e s).
Proof.
  intros Hreach. eexists. split; [reflexivity |]. cbn [pending completed inProgress].
  assert (Hv : filter (tasks_target e (fun _ => true)) (tasks s) = visible_tasks e s)
    by reflexivity.
  rewrite Hv.
  rewrite Nat.add_shuffle0.
  apply (three_way_count Task.status "Pending" "In-Progress" "Completed");
    try discriminate.
  apply Forall_forall. intros t Ht. unfold visible_tasks in Ht.
  apply filter_In in Ht. destruct Ht as [Ht _].
  pose proof (reachable_task_checks s Hreach) as Hc.
  rewrite Forall_forall in Hc. apply (Hc t Ht).
Qed.

(** X25.  The three counts the side bar shows for a client account for
    every task of that client the caller can see: in a reachable store they
    add up to the number of visible tasks that reference the client. *)
Theorem sidebar_counts_cover_client_tasks (e : env) (client_id : option uuid) (s : store) :
  reachable s ->
  exists c,
    counts e client_id s = (s, Ok c)
    /\ count_tasks c + count_gtm c + count_recurring c
       = List.length (filter (fun t => uuid_is (Task.client_id t) client_id)
                             (visible_tasks e s)).
Proof.
  intros Hreach. eexists. split; [reflexivity |].
  cbn [count_tasks count_gtm count_recurring].
  assert (Hv : filter (tasks_target e (fun t => uuid_is (Task.client_id t) client_id))
                      (tasks s)
               = filter (fun t => uuid_is (Task.client_id t) client_id)
                        (visible_tasks e s)).
  { unfold visible_tasks, tasks_target. induction (tasks s) as [| t l IH];
      [reflexivity |].
    simpl. destruct (uuid_is (Task.client_id t) client_id) eqn:E1,
      (rls (caller e) (tasks_policy (auth_uid (caller e)) t)) eqn:E2; simpl;
      rewrite ?E1, ?IH; reflexivity. }
  rewrite Hv.
  apply (three_way_count Task.category "tasks" "gtm" "recurring"); try discriminate.
  apply Forall_forall. intros t Ht.
  apply filter_In in Ht. destruct Ht as [Ht _]. unfold visible_tasks in Ht.
  apply filter_In in Ht. destruct Ht as [Ht _].
  pose proof (reachable_task_checks s Hreach) as Hc.
  rewrite Forall_forall in Hc. apply (Hc t Ht).
Qed.

Lemma task_stats_cover_visible_tasks_witness :
  exists stats,
    fetchTaskStats Scenario.as_alice Scenario.crowded = (Scenario.crowded, Ok stats)
    /\ pending stats + completed stats + inProgress stats
       = List.length (visible_tasks Scenario.as_alice Scenario.crowded).
Proof.
  apply (task_stats_cover_visible_tasks Scenario.as_alice Scenario.crowded).
  apply reachable_crowded.
Defined.

Lemma sidebar_counts_cover_client_tasks_witness :
  exists c,
    counts Scenario.as_bob (Some 1000%N) Scenario.crowded = (Scenario.crowded, Ok c)
    /\ count_tasks c + count_gtm c + count_recurring c
       = List.length (filter (fun t => uuid_is (Task.client_id t) (Some 1000%N))
                             (visible_tasks Scenario.as_bob Scenario.crowded)).
Proof.
  apply (sidebar_counts_cover_client_tasks Scenario.as_bob (Some 1000%N) Scenario.crowded).
  apply reachable_crowded.
Defined.

(** ** Small functions of the components *)

Lemma length_append (a b : string) :
  String.length (a ++ b) = String.length a + String.length b.
Proof. induction a as [| c a IH]; simpl; [reflexivity | rewrite IH; reflexivity]. Qed.

Lemma length_substring (n : nat) (t : string) :
  n <= String.length t -> String.length (substring 0 n t) = n.
Proof.
  revert t. induction n as [| n IH]; intros t H.
  - destruct t; reflexivity.
  - destruct t as [| c t]; simpl in *; [lia |]. rewrite IH; [reflexivity | lia].
Qed.

Lemma prefix_append (a b : string) : prefix a (a ++ b) = true.
Proof.
  induction a as [| c a IH]; simpl; [destruct b; reflexivity |].
  destruct (ascii_dec c c) as [_ | H]; [exact IH | exfalso; apply H; reflexivity].
Qed.

Lemma substring_short (n : nat) (t : string) :
  String.length t <= n -> substring 0 n t = t.
Proof.
  revert t. induction n as [| n IH]; intros t H.
  - destruct t; [reflexivity | simpl in H; lia].
  - destruct t as [| c t]; simpl in *; [reflexivity |]. rewrite IH; [reflexivity | lia].
Qed.

(** X26.  truncateDescription never shows more than maxLength characters of
    a description: the text shown is at most maxLength + 3 characters long
    (or the 14 of 'No description'); for a description that is not empty it
    starts with the first maxLength characters of it, is the description
    itself when that is short enough, and is exactly maxLength + 3 long
    when it is not. *)
Theorem truncateDescription_shows_the_start (text : option string) (maxLength : nat) :
  String.length (truncateDescription text maxLength) <= Nat.max (maxLength + 3) 14
  /\ forall t, text = Some t -> t <> ""%string ->
       prefix (substring 0 maxLength t) (truncateDescription text maxLength) = true
       /\ (String.length t <= maxLength -> truncateDescription text maxLength = t)
       /\ (maxLength < String.length t ->
           String.length (truncateDescription text maxLength) = maxLength + 3).
Proof.
  split.
  - unfold truncateDescription. destruct text as [t |]; [| simpl; lia].
    destruct (String.eqb t ""); [simpl; lia |].
    destruct (Nat.leb (String.length t) maxLength) eqn:E.
    + apply Nat.leb_le in E. lia.
    + apply Nat.leb_gt in E. rewrite length_append, length_substring by lia.
      simpl. lia.
  - intros t -> Ht. unfold truncateDescription. apply String.eqb_neq in Ht. rewrite Ht.
    destruct (Nat.leb (String.length t) maxLength) eqn:E.
    + apply Nat.leb_le in E. split; [| split; [reflexivity | lia]].
      rewrite substring_short by exact E.
      rewrite <- (prefix_append t "") at 1.
      assert (Hnil : (t ++ "")%string = t)
        by (clear; induction t as [| c t IH]; simpl; [| rewrite IH]; reflexivity).
      rewrite Hnil. reflexivity.
    + apply Nat.leb_gt in E. split; [apply prefix_append |]. split; [lia |].
      intros _. rewrite length_append, length_substring by lia. reflexivity.
Qed.

(** X27.  toggleClient opens or closes the clients of the given id and no
    other: the clients keep their number, order, ids, names and counts;
    those of another id are as they were; doing it twice undoes it. *)
Theorem toggleClient_twice (clients : list Sidebar.Client) (clientId : string) :
  Sidebar.toggleClient (Sidebar.toggleClient clients clientId) clientId = clients
  /\ map Sidebar.id (Sidebar.toggleClient clients clientId) = map Sidebar.id clients
  /\ map Sidebar.categories (Sidebar.toggleClient clients clientId)
     = map Sidebar.categories clients
  /\ filter (fun c => negb (String.eqb (Sidebar.id c) clientId))
            (Sidebar.toggleClient clients clientId)
     = filter (fun c => negb (String.eqb (Sidebar.id c) clientId)) clients
  /\ map Sidebar.isExpanded
         (filter (fun c => String.eqb (Sidebar.id c) clientId)
                 (Sidebar.toggleClient clients clientId))
     = map (fun c => negb (Sidebar.isExpanded c))
           (filter (fun c => String.eqb (Sidebar.id c) clientId) clients).
Proof.
  unfold Sidebar.toggleClient.
  induction clients as [| c l (IH1 & IH2 & IH3 & IH4 & IH5)];
    [repeat split; reflexivity |].
  simpl. destruct (String.eqb (Sidebar.id c) clientId) eqn:E; simpl; rewrite E; simpl.
  - rewrite IH1, IH2, IH3, IH4, IH5, negb_involutive.
    destruct c; repeat split; reflexivity.
  - rewrite IH1, IH2, IH3, IH4, IH5. repeat split; reflexivity.
Qed.

(** ** Deleting comments and attachments *)

Lemma filter_split {R : Type} (p : R -> bool) (l : list R) (x : R) :
  In x l -> In x (filter p l) \/ In x (filter (fun y => negb (p y)) l).
Proof.
  intros Hin. destruct (p x) eqn:E.
  - left. apply filter_In. split; assumption.
  - right. apply filter_In. split; [exact Hin | rewrite E; reflexivity].
Qed.

Lemma sql_eq_owner u (x : option uuid) :
  is_true (sql_eq N.eqb (Some u) x) = owner_is u x
  /\ is_true (sql_eq N.eqb x (Some u)) = owner_is u x.
Proof.
  unfold owner_is, uuid_is. split; [reflexivity |].
  destruct x as [a |]; simpl; [| reflexivity]. rewrite N.eqb_sym. reflexivity.
Qed.

(** X28.  A DELETE of an authenticated caller on task_comments or on
    task_attachments removes only rows the caller wrote: every row removed
    has the caller as user_id, the rows of the other authors stay, in their
    order, every row is either removed or kept, and no other table changes.
    When the statement reads a column of the table (in WHERE or RETURNING)
    the SELECT policy applies too, and every row removed is on a task that
    exists and belongs to the caller.  When it reads none, the DELETE policy
    decides alone: every row of the caller that the statement selects is
    removed, also one on a task of another user. *)
Theorem child_deletes_remove_own_rows (e : env) (u : uuid) (s : store) :
  caller e = authenticated u ->
  (forall reads where_,
      exists gone kept,
        delete_task_comments e reads where_ s = (set_task_comments kept s, Ok gone)
        /\ Forall (fun m =>
                     owner_is u (TaskComment.user_id m) = true
                     /\ (reads = true -> own_task u s (TaskComment.task_id m))) gone
        /\ filter (fun m => negb (owner_is u (TaskComment.user_id m))) kept
           = filter (fun m => negb (owner_is u (TaskComment.user_id m))) (task_comments s)
        /\ (forall m, In m (task_comments s) -> In m gone \/ In m kept)
        /\ (reads = false ->
            forall m, In m (task_comments s) -> where_ m = true ->
                      owner_is u (TaskComment.user_id m) = true -> In m gone))
  /\ (forall reads where_,
         exists gone kept,
           delete_task_attachments e reads where_ s
           = (set_task_attachments kept s, Ok gone)
           /\ Forall (fun a =>
                        owner_is u (TaskAttachment.user_id a) = true
                        /\ (reads = true -> own_task u s (TaskAttachment.task_id a))) gone
           /\ filter (fun a => negb (owner_is u (TaskAttachment.user_id a))) kept
              = filter (fun a => negb (owner_is u (TaskAttachment.user_id a)))
                       (task_attachments s)
           /\ (forall a, In a (task_attachments s) -> In a gone \/ In a kept)
           /\ (reads = false ->
               forall a, In a (task_attachments s) -> where_ a = true ->
                         owner_is u (TaskAttachment.user_id a) = true -> In a gone)).
Proof.
  intros He. split; intros reads where_.
  - eexists. eexists. split; [reflexivity |]. split; [| split; [| split]].
    + apply Forall_forall. intros m Hm. apply filter_In in Hm. destruct Hm as [_ Hm].
      apply andb_true_iff in Hm. destruct Hm as [_ Hm]. rewrite He in Hm.
      cbn [rls] in Hm. apply andb_true_iff in Hm. destruct Hm as [Hsel Hown].
      unfold task_comments_own in Hown. rewrite He in Hown. cbn [auth_uid] in Hown.
      split; [rewrite <- (proj1 (sql_eq_owner u _)); exact Hown |].
      intros ->. apply (owns_task_true e u s _ He Hsel).
    + apply filter_filter_implied. intros m _ Hm. apply negb_true_iff in Hm.
      apply negb_true_iff. rewrite He. cbn [rls]. unfold task_comments_own. rewrite He.
      cbn [auth_uid]. rewrite (proj1 (sql_eq_owner u _)), Hm. rewrite !andb_false_r.
      reflexivity.
    + intros m Hm. apply filter_split. exact Hm.
    + intros -> m Hm Hw Hown. apply filter_In. split; [exact Hm |].
      rewrite Hw, He. cbn [rls]. unfold task_comments_own. rewrite He. cbn [auth_uid].
      rewrite (proj1 (sql_eq_owner u _)), Hown. reflexivity.
  - eexists. eexists. split; [reflexivity |]. split; [| split; [| split]].
    + apply Forall_forall. intros a Ha. apply filter_In in Ha. destruct Ha as [_ Ha].
      apply andb_true_iff in Ha. destruct Ha as [_ Ha]. rewrite He in Ha.
      cbn [rls] in Ha. apply andb_true_iff in Ha. destruct Ha as [Hsel Hown].
      unfold task_attachments_delete in Hown. rewrite He in Hown. cbn [auth_uid] in Hown.
      split; [rewrite <- (proj2 (sql_eq_owner u _)); exact Hown |].
      intros ->. apply (owns_task_true e u s _ He Hsel).
    + apply filter_filter_implied. intros a _ Ha. apply negb_true_iff in Ha.
      apply negb_true_iff. rewrite He. cbn [rls]. unfold task_attachments_delete.
      rewrite He. cbn [auth_uid]. rewrite (proj2 (sql_eq_owner u _)), Ha.
      rewrite !andb_false_r. reflexivity.
    + intros a Ha. apply filter_split. exact Ha.
    + intros -> a Ha Hw Hown. apply filter_In. split; [exact Ha |].
      rewrite Hw, He. cbn [rls]. unfold task_attachments_delete. rewrite He.
      cbn [auth_uid]. rewrite (proj2 (sql_eq_owner u _)), Hown. reflexivity.
Qed.

(** alice has a comment on her task and one on the task of bob.  bob can
    delete neither.  alice's DELETE that reads a column removes the comment
    on her task only; her DELETE that reads none removes both. *)
Lemma child_deletes_remove_own_rows_witness :
  List.length (task_comments Thread.stray) = 2
  /\ (exists gone kept,
         delete_task_comments Scenario.as_bob false (fun _ => true) Thread.stray
         = (set_task_comments kept Thread.stray, Ok gone)
         /\ filter (fun m => negb (owner_is Scenario.bob (TaskComment.user_id m))) kept
            = task_comments Thread.stray)
  /\ map TaskComment.task_id
         (task_comments
            (fst (delete_task_comments Scenario.as_alice true (fun _ => true)
                    Thread.stray)))
     = [Some 2000%N]
  /\ task_comments
       (fst (delete_task_comments Scenario.as_alice false (fun _ => true) Thread.stray))
     = []
  /\ (exists gone kept,
         delete_task_comments Scenario.as_alice false (fun _ => true) Thread.stray
         = (set_task_comments kept Thread.stray, Ok gone)
         /\ forall m, In m (task_comments Thread.stray) -> In m gone).
Proof.
  split; [reflexivity |]. split; [| split; [reflexivity | split; [reflexivity |]]].
  - destruct (child_deletes_remove_own_rows Scenario.as_bob Scenario.bob Thread.stray
                eq_refl) as [H _].
    destruct (H false (fun _ => true)) as (gone & kept & Hrun & _ & Hothers & _).
    exists gone, kept. split; [exact Hrun |]. rewrite Hothers. reflexivity.
  - destruct (child_deletes_remove_own_rows Scenario.as_alice Scenario.alice Thread.stray
                eq_refl) as [H _].
    destruct (H false (fun _ => true)) as (gone & kept & Hrun & _ & _ & _ & Hbare).
    exists gone, kept. split; [exact Hrun |].
    intros m Hm. apply (Hbare eq_refl m Hm eq_refl).
    destruct Hm as [<- | [<- | []]]; reflexivity.
Defined.
